(** * PackMaker: the package transcoder, embedded and verified

    A shallow embedding of the resource-pack maker's core (validation,
    Platform A export, geometry conversion, pack import, merge and the
    language converters) together with the properties its specification
    states about them.

    Conventions of the embedding.
    - A JavaScript string is the list of its UTF-16 code units ([jstring]).
    - A JavaScript number is an integer ([Z]); NaN, infinities and
      fractions are outside the model.
    - A [Map] is the list of its entries in insertion order.  A
      JavaScript object used as a map is the list of its own entries in
      enumeration order: the names that are array indices first, in
      ascending order, then the others as they were inserted ([place]).
      A lookup in an object sees also what every object inherits from
      [Object.prototype] ([inherited]); an assignment to "__proto__"
      adds no entry ([assign]), and when an object is assigned it
      becomes the prototype ([Importer.TextureMap]); a [push] on what
      is inherited throws ([pushUnder]).
    - A state setter of the component is an effect; an operation is the
      list of the effects it has, in order, and its result is the state
      after them.  An exception that nothing catches, and a promise that
      is never settled, end the list where they occur.
    - What the code draws from outside (the clock, [uuidv4], image sizes,
      [JSON.parse] of an archive entry) is a variable of the section that
      uses it. *)

From Stdlib Require Import String Ascii DecimalString.
From Stdlib Require Import ZArith NArith Bool Lia List.
From Stdlib Require Import Sorting.Sorted Sorting.Permutation.
Import ListNotations.

Set Implicit Arguments.
Set Warnings "-register-all".
Local Open Scope bool_scope.
Local Open Scope list_scope.

(* ================================================================== *)
(** ** JavaScript strings *)

Module JS.

Definition char := N.
Definition jstring := list char.

(** A literal, written as a Rocq string of one-byte characters. *)
Definition str (s : string) : jstring :=
  map N_of_ascii (list_ascii_of_string s).

Fixpoint jeqb (a b : jstring) : bool :=
  match a, b with
  | [], [] => true
  | x :: a', y :: b' => N.eqb x y && jeqb a' b'
  | _, _ => false
  end.

(** [s.startsWith(p)] *)
Fixpoint startsWith (p s : jstring) : bool :=
  match p, s with
  | [], _ => true
  | x :: p', y :: s' => N.eqb x y && startsWith p' s'
  | _ :: _, [] => false
  end.

(** [s.endsWith(p)] *)
Definition endsWith (p s : jstring) : bool :=
  startsWith (rev p) (rev s).

(** [s.includes(p)] *)
Fixpoint includes (p s : jstring) : bool :=
  startsWith p s ||
  match s with
  | [] => false
  | _ :: s' => includes p s'
  end.

(** [s.replace(/^p/, '')] for a literal [p]: drop the prefix when present. *)
Fixpoint stripPrefix (p s : jstring) : jstring :=
  match p with
  | [] => s
  | x :: p' =>
      match s with
      | y :: s' =>
          if N.eqb x y && startsWith p' s' then stripPrefix p' s' else s
      | [] => s
      end
  end.

(** [s.indexOf(c)] for a one-unit [c]; [None] stands for [-1]. *)
Fixpoint indexOf (c : char) (s : jstring) : option nat :=
  match s with
  | [] => None
  | x :: s' =>
      if N.eqb x c then Some 0%nat
      else match indexOf c s' with
           | Some i => Some (S i)
           | None => None
           end
  end.

(** [s.substring(a)] and [s.substring(0, b)] *)
Definition substringFrom (a : nat) (s : jstring) : jstring := skipn a s.
Definition substringTo (b : nat) (s : jstring) : jstring := firstn b s.

(** [s.split(c)] for a one-unit separator: never empty. *)
Fixpoint split (c : char) (s : jstring) : list jstring :=
  match s with
  | [] => [[]]
  | x :: s' =>
      if N.eqb x c then [] :: split c s'
      else match split c s' with
           | seg :: segs => (x :: seg) :: segs
           | [] => [[x]]
           end
  end.

(** [segs.join(sep)] *)
Fixpoint join (sep : jstring) (segs : list jstring) : jstring :=
  match segs with
  | [] => []
  | [a] => a
  | a :: rest => a ++ sep ++ join sep rest
  end.

(** [s.split(c).pop()] *)
Definition lastSegment (c : char) (s : jstring) : jstring :=
  last (split c s) [].

(** WhiteSpace and LineTerminator code units, as [String.prototype.trim]
    strips them. *)
Definition isWhitespace (c : char) : bool :=
  existsb (N.eqb c)
    [9; 10; 11; 12; 13; 32; 160; 5760; 8232; 8233; 8239; 8287; 12288; 65279]%N
  || (N.leb 8192 c && N.leb c 8202).

Fixpoint trimStart (s : jstring) : jstring :=
  match s with
  | [] => []
  | c :: s' => if isWhitespace c then trimStart s' else s
  end.

Definition trimEnd (s : jstring) : jstring := rev (trimStart (rev s)).

Definition trim (s : jstring) : jstring := trimEnd (trimStart s).

(** [s.includes(c)] for a one-unit [c] *)
Definition has (c : char) (s : jstring) : bool := existsb (N.eqb c) s.

(** Truthiness of a string: non-empty. *)
Definition truthy (s : jstring) : bool :=
  match s with [] => false | _ => true end.

(** [a || b] on strings *)
Definition orElse (a b : jstring) : jstring := if truthy a then a else b.

Definition NL : char := 10%N.
Definition EQ : char := 61%N.
Definition DOT : char := 46%N.
Definition SLASH : char := 47%N.
Definition DOLLAR : char := 36%N.
Definition HASH : char := 35%N.

Definition isLineTerminator (c : char) : bool :=
  existsb (N.eqb c) [10; 13; 8232; 8233]%N.

(** [s.toLowerCase()], on the letters A-Z; other code units are kept. *)
Definition toLowerCase (s : jstring) : jstring :=
  map (fun c => if N.leb 65 c && N.leb c 90 then (c + 32)%N else c) s.

(** The match of [/\.[^...]+$/], the class excluding the units [stop]
    (the dot among them): the stem before the match and the match. *)
Fixpoint splitExtension (stop : char -> bool) (s : jstring)
  : option (jstring * jstring) :=
  match s with
  | [] => None
  | c :: r =>
      match splitExtension stop r with
      | Some (stem, ext) => Some (c :: stem, ext)
      | None =>
          if N.eqb c DOT && truthy r && forallb (fun x => negb (stop x)) r
          then Some ([], c :: r)
          else None
      end
  end.

Definition isDot (c : char) : bool := N.eqb c DOT.
Definition isSlashOrDot (c : char) : bool := N.eqb c SLASH || N.eqb c DOT.

(** [s.replace(/\.[^/.]+$/, "")] *)
Definition removeExtension (s : jstring) : jstring :=
  match splitExtension isSlashOrDot s with
  | Some (stem, _) => stem
  | None => s
  end.

(** The longest [g], free of line terminators, with [s = g ++ suffix ++ _]:
    what a greedy [.*] takes in front of a literal. *)
Fixpoint greedyBefore (suffix s : jstring) : option jstring :=
  let here := if startsWith suffix s then Some [] else None in
  match s with
  | [] => here
  | c :: r =>
      if isLineTerminator c then here
      else match greedyBefore suffix r with
           | Some g => Some (c :: g)
           | None => here
           end
  end.

(** The longest [g1] with [s = g1 ++ "." ++ g2], [g2] non-empty and running
    to the end, both free of line terminators: a greedy group, a literal
    dot, a second group and the end of the input. *)
Fixpoint greedySplitDot (s : jstring) : option (jstring * jstring) :=
  match s with
  | [] => None
  | c :: r =>
      let here :=
        if N.eqb c DOT && truthy r
           && forallb (fun x => negb (isLineTerminator x)) r
        then Some ([], r) else None in
      if isLineTerminator c then None
      else match greedySplitDot r with
           | Some (g1, g2) => Some (c :: g1, g2)
           | None => here
           end
  end.

(** The leftmost place where [pre] occurs and [f] accepts what follows. *)
Fixpoint matchAfter (A : Type) (pre : jstring) (f : jstring -> option A)
    (s : jstring) : option A :=
  let here := if startsWith pre s then f (skipn (length pre) s) else None in
  match here with
  | Some a => Some a
  | None => match s with
            | [] => None
            | _ :: s' => matchAfter pre f s'
            end
  end.

(** [s.replace(/^.*\//, "")] *)
Definition removeFolders (s : jstring) : jstring :=
  match greedyBefore [SLASH] s with
  | Some g => skipn (S (length g)) s
  | None => s
  end.

(** A non-negative number, printed in decimal. *)
Definition decimal (n : nat) : jstring :=
  str (NilZero.string_of_uint (Nat.to_uint n)).

Definition decimalZ (z : Z) : jstring :=
  str (NilZero.string_of_int (Z.to_int z)).

End JS.

Import JS.

(** Objects and [Map]s as entry lists. *)
Section Entries.
Variable V : Type.

Definition entries := list (jstring * V).

Fixpoint getKey (k : jstring) (m : entries) : option V :=
  match m with
  | [] => None
  | (k', v) :: m' => if jeqb k' k then Some v else getKey k m'
  end.

Definition hasKey (k : jstring) (m : entries) : bool :=
  match getKey k m with Some _ => true | None => false end.

(** [m[k] = v], [m.set(k, v)]: an existing key keeps its position. *)
Fixpoint setKey (k : jstring) (v : V) (m : entries) : entries :=
  match m with
  | [] => [(k, v)]
  | (k', v') :: m' =>
      if jeqb k' k then (k', v) :: m' else (k', v') :: setKey k v m'
  end.

Definition keys (m : entries) : list jstring := map fst m.

Fixpoint uniqueKeys (m : entries) : bool :=
  match m with
  | [] => true
  | (k, _) :: m' => negb (hasKey k m') && uniqueKeys m'
  end.
End Entries.

(** [if (!acc[k]) acc[k] = []; acc[k].push(v)] *)
Definition pushTo (A : Type) (k : jstring) (v : A) (acc : entries (list A))
  : entries (list A) :=
  match getKey k acc with
  | Some l => setKey k (l ++ [v]) acc
  | None => setKey k [v] acc
  end.

(** The [reduce] that groups the values [val x] under the keys [key x]. *)
Definition grouped (A B : Type) (key : A -> jstring) (val : A -> B)
    (l : list A) (acc : entries (list B)) : entries (list B) :=
  fold_left (fun acc x => pushTo (key x) (val x) acc) l acc.


(** ** Object literals used as maps *)

(** The names every object literal inherits from [Object.prototype].  What
    is read under them is a function, or under "__proto__" the prototype
    itself: a truthy value that is no array and has no [push]. *)
Definition PROTO : jstring := str "__proto__".

Definition inherited (k : jstring) : bool :=
  existsb (jeqb k)
    (map str
       [ "constructor"%string; "__proto__"%string; "hasOwnProperty"%string;
         "isPrototypeOf"%string; "propertyIsEnumerable"%string;
         "toString"%string; "toLocaleString"%string; "valueOf"%string;
         "__defineGetter__"%string; "__defineSetter__"%string;
         "__lookupGetter__"%string; "__lookupSetter__"%string ]).

(** The number a string of digits writes. *)
Definition digitsValue (k : jstring) : N :=
  fold_left (fun a d => (10 * a + (d - 48))%N) k 0%N.

Definition decimalN (n : N) : jstring :=
  str (NilZero.string_of_uint (N.to_uint n)).

(** An array index: the canonical decimal form of an integer from 0 to
    2^32 - 2.  An object lists the names that are array indices first, in
    ascending order, whenever they were added. *)
Definition arrayIndex (k : jstring) : option N :=
  let n := digitsValue k in
  if jeqb (decimalN n) k && N.ltb n 4294967295 then Some n else None.

(** [k] is listed before [k'] when [k'] is added after [k]. *)
Definition before (k k' : jstring) : bool :=
  match arrayIndex k, arrayIndex k' with
  | Some n, Some n' => N.ltb n n'
  | Some _, None => true
  | None, Some _ => false
  | None, None => true
  end.

Section Objects.
Variable V : Type.

(** Where a new name goes among the own entries. *)
Fixpoint place (k : jstring) (v : V) (m : entries V) : entries V :=
  match m with
  | [] => [(k, v)]
  | (k', v') :: m' =>
      if before k' k then (k', v') :: place k v m' else (k, v) :: m
  end.

(** [m[k] = v] on an object literal, [v] being no object or no value that
    is read from the prototype later: the name "__proto__" is a setter
    of [Object.prototype] and adds no entry; another name is written in
    place when the object has it and is added otherwise. *)
Definition assign (k : jstring) (v : V) (m : entries V) : entries V :=
  if jeqb k PROTO then m
  else if hasKey k m then setKey k v m
  else place k v m.

(** The entries are in the order an object lists them. *)
Fixpoint enumerated (m : entries V) : bool :=
  match m with
  | [] => true
  | (k, _) :: m' => forallb (fun e => before k (fst e)) m' && enumerated m'
  end.

End Objects.

(** [if (!acc[k]) acc[k] = []; acc[k].push(v)] on an object literal.
    [None] is the TypeError of calling [push] on what the object inherits
    under [k]. *)
Definition pushUnder (A : Type) (k : jstring) (v : A)
    (acc : entries (list A)) : option (entries (list A)) :=
  match getKey k acc with
  | Some l => Some (setKey k (l ++ [v]) acc)
  | None => if inherited k then None else Some (assign k [v] acc)
  end.

(** The [reduce] that groups the values [val x] under the names [key x]
    in an object literal. *)
Fixpoint groupedUnder (A B : Type) (key : A -> jstring) (val : A -> B)
    (l : list A) (acc : entries (list B)) : option (entries (list B)) :=
  match l with
  | [] => Some acc
  | x :: rest =>
      match pushUnder (key x) (val x) acc with
      | Some acc' => groupedUnder key val rest acc'
      | None => None
      end
  end.

(* ================================================================== *)
(** ** Language tables ([converters.ts], [bedrock-import.ts]) *)

Module Lang.

(** [convertLangToBedrock] *)
Definition convertLangToBedrock (content : entries jstring) : jstring :=
  join [NL] (map (fun kv => fst kv ++ [EQ] ++ snd kv) content).

(** One turn of the loop of [convertBedrockLangToInternal]; [content] is
    an object literal. *)
Definition decodeLine (content : entries jstring) (line : jstring)
  : entries jstring :=
  let trimmed := trim line in
  if negb (truthy trimmed)
     || startsWith (str "#") trimmed
     || startsWith (str "//") trimmed
  then content
  else
    match indexOf EQ trimmed with
    | Some (S i) =>
        let key := trim (substringTo (S i) trimmed) in
        let value := trim (substringFrom (S i + 1) trimmed) in
        assign key value content
    | _ => content
    end.

(** [convertBedrockLangToInternal]: the [content] field of its result. *)
Definition convertBedrockLangToInternal (langContent : jstring)
  : entries jstring :=
  fold_left decodeLine (split NL langContent) [].

(** A string that does not begin with whitespace. *)
Definition headOk (s : jstring) : bool :=
  match s with [] => true | c :: _ => negb (isWhitespace c) end.

(** The entries the round trip is stated for. *)
Definition noOuterWhitespace (s : jstring) : bool :=
  match s with
  | [] => true
  | c :: _ => negb (isWhitespace c) && negb (isWhitespace (last s c))
  end.

Definition plainEntry (kv : jstring * jstring) : bool :=
  let (k, v) := kv in
  truthy k
  && negb (has EQ k) && negb (has NL k)
  && negb (startsWith (str "#") k) && negb (startsWith (str "//") k)
  && noOuterWhitespace k
  && noOuterWhitespace v && negb (has NL v).

(** What the table is at every turn: an object, as it lists its entries,
    each of them an entry the encoder writes back unchanged. *)
Definition readable (content : entries jstring) : Prop :=
  uniqueKeys content = true /\
  enumerated content = true /\
  forallb plainEntry content = true /\
  forallb (fun kv => negb (jeqb (fst kv) PROTO)) content = true.

End Lang.

(* ================================================================== *)
(** ** Data model ([types.ts], as the code reads and writes it) *)

(** A [File] or [Blob]: a name and the bytes. *)
Record File := { fileName : jstring; fileData : list N }.

Definition fileSize (f : File) : Z := Z.of_nat (length (fileData f)).

(** A parsed JSON value. *)
Inductive json :=
| JNull
| JBool (b : bool)
| JNum (n : Z)
| JStr (s : jstring)
| JArr (items : list json)
| JObj (fields : list (jstring * json)).

(** [j.k]: [None] is [undefined]. *)
Definition prop (k : string) (j : json) : option json :=
  match j with
  | JObj fields => getKey (str k) fields
  | _ => None
  end.

(** Truthiness of a value. *)
Definition truthyJson (j : json) : bool :=
  match j with
  | JNull | JBool false | JNum 0 => false
  | JStr s => truthy s
  | _ => true
  end.

(** [x || d] on numbers that may be missing. *)
Definition numOr (x : option Z) (d : Z) : Z :=
  match x with
  | Some 0%Z | None => d
  | Some z => z
  end.

Definition vec := list Z.

(** [v?.[i] || 0] *)
Definition comp (i : nat) (v : option vec) : Z :=
  match v with
  | Some l => nth i l 0%Z
  | None => 0%Z
  end.

(** Platform B geometry, as [convertToBedrock] builds it. *)
Record FaceUV := {
  uv : Z * Z;
  uv_size : Z * Z;
  uv_texture : option (option Z)
}.

Record Cube := {
  cube_origin : vec;
  cube_size : vec;
  cube_uv : entries FaceUV;
  cube_rotation : option vec;
  cube_pivot : option vec;
  cube_inflate : option Z
}.

Record Bone := {
  bone_name : jstring;
  bone_pivot : vec;
  bone_cubes : list Cube;
  bone_parent : option jstring;
  bone_rotation : option vec
}.

Record Geometry := {
  identifier : jstring;
  texture_width : Z;
  texture_height : Z;
  bones : list Bone
}.

(** The geometry cache of a model: converted here, or kept as imported. *)
Inductive BedrockGeometry :=
| Converted (g : Geometry)
| Imported (doc : json).

Record ModelData := {
  model_id : jstring;
  model_name : jstring;
  customModelData : Z;
  model_parent : jstring;
  model_textures : entries jstring;
  targetItem : jstring;
  model_elements : option json;
  model_display : option json;
  customModelDataFloats : list json;
  customModelDataFlags : list json;
  customModelDataStrings : list json;
  customModelDataColors : list json;
  bedrockGeometry : option BedrockGeometry
}.

Record Animation := {
  anim_enabled : bool;
  frametime : option Z;
  interpolate : option bool;
  frames : option (list json)
}.

Record TextureData := {
  tex_id : jstring;
  tex_name : jstring;
  tex_file : File;
  tex_path : jstring;
  tex_size : Z;
  dimensions : Z * Z;
  isOptimized : bool;
  tex_width : option Z;
  tex_height : option Z;
  tex_enabled : option bool;
  animation : option Animation
}.

(** [provider.type]: the four the exporter knows, or any other name. *)
Inductive ProviderType :=
| Bitmap | Ttf | Space | Unihex
| OtherProvider (typeName : jstring).

Record FontProvider := {
  prov_id : jstring;
  prov_type : ProviderType;
  prov_file : option jstring;
  fileHandle : option File;
  ascent : option Z;
  height : option Z;
  chars : option (list jstring);
  prov_size : option Z;
  oversample : option Z;
  shift : option json;
  skip : option json;
  advances : option (entries Z)
}.

Record CustomFont := {
  font_id : jstring;
  font_name : jstring;
  font_file : option File;
  providers : list FontProvider
}.

Record CustomSound := {
  sound_id : jstring;
  sound_name : jstring;
  category : jstring;
  sounds : list jstring;
  subtitle : option jstring;
  sound_replace : option bool;
  sound_file : option File
}.

Record LanguageFile := {
  lang_code : jstring;
  lang_name : jstring;
  lang_content : entries jstring
}.

Record CustomParticle := {
  particle_id : jstring;
  particle_name : jstring;
  particle_textures : list jstring;
  particle_file : option File
}.

Inductive ShaderType := Vertex | Fragment | Program.

Record ShaderFile := {
  shader_id : jstring;
  shader_name : jstring;
  shader_type : ShaderType;
  shader_file : option File;
  shader_content : option jstring
}.

Record ResourcePack := {
  name : jstring;
  description : jstring;
  version : jstring;
  format : Z;
  models : list ModelData;
  textures : list TextureData;
  fonts : list CustomFont;
  languages : list LanguageFile;
  pack_sounds : list CustomSound;
  particles : list CustomParticle;
  shaders : list ShaderFile;
  packIcon : option File;
  author : jstring;
  website : jstring;
  license : jstring
}.

(** [{ ...pack, textures: ts }] *)
Definition withTextures (ts : list TextureData) (p : ResourcePack)
  : ResourcePack :=
  {| name := name p; description := description p; version := version p;
     format := format p; models := models p; textures := ts;
     fonts := fonts p; languages := languages p;
     pack_sounds := pack_sounds p; particles := particles p;
     shaders := shaders p; packIcon := packIcon p; author := author p;
     website := website p; license := license p |}.

(** [{ ...pack, fonts: fs }] *)
Definition withFonts (fs : list CustomFont) (p : ResourcePack)
  : ResourcePack :=
  {| name := name p; description := description p; version := version p;
     format := format p; models := models p; textures := textures p;
     fonts := fs; languages := languages p;
     pack_sounds := pack_sounds p; particles := particles p;
     shaders := shaders p; packIcon := packIcon p; author := author p;
     website := website p; license := license p |}.

(* ================================================================== *)
(** ** Validation ([validateModel], [validateResourcePack], [validatePack]) *)

Module Validation.

(** The messages, one constructor per message text. *)
Inductive ValidationError :=
| ModelNameRequired          (* "Model name is required" *)
| ValidCustomModelDataRequired (* "Valid custom model data is required" *)
| TargetItemRequired         (* "Target item is required" *)
| TextureRequired            (* "At least one texture is required" *)
| PackNameRequired           (* "Pack name is required" *)
| PackDescriptionRequired    (* "Pack description is required" *)
| ModelRequired              (* "At least one model is required" *)
| DuplicateCustomModelData (item : jstring) (values : list Z)
    (* "Duplicate custom model data for <item>: <values>" *)
| InModel (modelName : jstring) (e : ValidationError).
    (* "<model name>: <message>" *)

Record Result := { isValid : bool; errors : list ValidationError }.

Definition result (es : list ValidationError) : Result :=
  {| isValid := match es with [] => true | _ => false end; errors := es |}.

Definition errorIf (c : bool) (e : ValidationError) : list ValidationError :=
  if c then [e] else [].

(** [validateModel] *)
Definition validateModel (model : ModelData) : Result :=
  result
    (errorIf (negb (truthy (trim (model_name model)))) ModelNameRequired
     ++ errorIf (Z.eqb (customModelData model) 0
                 || Z.ltb (customModelData model) 1)
          ValidCustomModelDataRequired
     ++ errorIf (negb (truthy (trim (targetItem model)))) TargetItemRequired
     ++ errorIf (Nat.eqb (length (keys (model_textures model))) 0)
          TextureRequired).

(** [values.filter((v, i) => values.indexOf(v) !== i)] *)
Fixpoint duplicatesFrom (seen values : list Z) : list Z :=
  match values with
  | [] => []
  | v :: rest =>
      if existsb (Z.eqb v) seen then v :: duplicatesFrom seen rest
      else duplicatesFrom (seen ++ [v]) rest
  end.

Definition duplicates (values : list Z) : list Z := duplicatesFrom [] values.

(** The [reduce] over all the models of the pack, into an object literal.
    [None]: a model targets a name the object inherits, "constructor" for
    one, and [push] is called on what is inherited, a TypeError. *)
Definition targetItemGroups (ms : list ModelData)
  : option (entries (list Z)) :=
  groupedUnder targetItem customModelData ms [].

(** [validateResourcePack]; [None] when it throws. *)
Definition validateResourcePack (pack : ResourcePack) : option Result :=
  match targetItemGroups (models pack) with
  | Some groups =>
      Some
        (result
           (errorIf (negb (truthy (trim (name pack)))) PackNameRequired
            ++ errorIf (negb (truthy (trim (description pack))))
                 PackDescriptionRequired
            ++ errorIf (Nat.eqb (length (models pack)) 0) ModelRequired
            ++ flat_map
                 (fun g =>
                    match duplicates (snd g) with
                    | [] => []
                    | ds => [DuplicateCustomModelData (fst g) ds]
                    end)
                 groups))
  | None => None
  end.

(** [validatePack]: the result it stores with [setValidationResults];
    [None] when [validateResourcePack] throws and nothing is stored. *)
Definition validatePack (pack : ResourcePack) : option Result :=
  match validateResourcePack pack with
  | Some packValidation =>
      Some
        (result
           (errors packValidation
            ++ flat_map
                 (fun model =>
                    map (InModel (model_name model))
                      (errors (validateModel model)))
                 (models pack)))
  | None => None
  end.

End Validation.

(* ================================================================== *)
(** ** Geometry conversion ([convertToBedrock]) *)

Module Bbmodel.

Record Face := {
  face_uv : option (Z * Z * Z * Z);
  face_texture : option (option Z)
}.

Record Element := {
  uuid : jstring;
  el_from : option vec;
  el_to : option vec;
  el_rotation : option vec;
  el_origin : option vec;
  el_inflate : option Z;
  faces : entries Face
}.

(** An entry of the outliner: the uuid of an element, or a group node
    whose children are again entries of this kind. *)
Inductive OutlinerItem :=
| ElementRef (ref : jstring)
| Group (groupName : jstring) (origin : option vec) (rotation : option vec)
        (children : list OutlinerItem).

Record BbmodelData := {
  resolution : option (Z * Z);
  elements : list Element;
  outliner : option (list OutlinerItem)
}.

Section Convert.
(** [Date.now()], printed. *)
Variable now : jstring.

Definition zero3 : vec := [0; 0; 0]%Z.

Definition orVec (a : option vec) (d : vec) : vec :=
  match a with Some v => v | None => d end.

(** The face loop: one [uv] entry per face that has a [uv] rectangle;
    [cube.uv] is an object literal. *)
Definition convertFaces (fs : entries Face) : entries FaceUV :=
  fold_left
    (fun acc f =>
       match face_uv (snd f) with
       | Some (x0, y0, x1, y1) =>
           assign (fst f)
             {| uv := (x0, y0);
                uv_size := ((x1 - x0)%Z, (y1 - y0)%Z);
                uv_texture := face_texture (snd f) |}
             acc
       | None => acc
       end)
    fs [].

Definition convertElement (element : Element) : Cube :=
  {| cube_origin := orVec (el_from element) zero3;
     cube_size :=
       [ (comp 0 (el_to element) - comp 0 (el_from element))%Z;
         (comp 1 (el_to element) - comp 1 (el_from element))%Z;
         (comp 2 (el_to element) - comp 2 (el_from element))%Z ];
     cube_uv := convertFaces (faces element);
     cube_rotation := el_rotation element;
     cube_pivot :=
       match el_rotation element with
       | Some _ =>
           Some (orVec (el_origin element) (orVec (el_from element) zero3))
       | None => None
       end;
     cube_inflate :=
       match el_inflate element with
       | Some 0%Z | None => None
       | Some i => Some i
       end |}.

(** [bbmodelData.elements?.find((e) => e.uuid === child)]: a child that is
    itself a group is equal to no uuid. *)
Definition findElement (els : list Element) (child : OutlinerItem)
  : option Element :=
  match child with
  | ElementRef childUuid => find (fun e => jeqb (uuid e) childUuid) els
  | Group _ _ _ _ => None
  end.

Definition cubesOf (els : list Element) (children : list OutlinerItem)
  : list Cube :=
  flat_map
    (fun child =>
       match findElement els child with
       | Some element => [convertElement element]
       | None => []
       end)
    children.

(** [processBone(item, parentName)]; [None] is its [null]. *)
Definition processBone (els : list Element) (item : OutlinerItem)
    (parentName : option jstring) : option Bone :=
  let parentLink :=
    match parentName with
    | Some p => if truthy p then Some p else None
    | None => None
    end in
  match item with
  | ElementRef ref =>
      if truthy ref then
        Some {| bone_name := str "bone_" ++ now;
                bone_pivot := zero3;
                bone_cubes := [];
                bone_parent := parentLink;
                bone_rotation := None |}
      else None
  | Group groupName origin rotation children =>
      Some {| bone_name := orElse groupName (str "bone_" ++ now);
              bone_pivot := orVec origin zero3;
              bone_cubes := cubesOf els children;
              bone_parent := parentLink;
              bone_rotation := rotation |}
  end.

(** [convertToBedrock]: the outliner loop calls [processBone(item)] on the
    entries of the top level. *)
Definition convertToBedrock (bbmodelData : BbmodelData) (modelName : jstring)
  : option Geometry :=
  Some
    {| identifier := str "geometry." ++ modelName;
       texture_width := numOr (option_map fst (resolution bbmodelData)) 16;
       texture_height := numOr (option_map snd (resolution bbmodelData)) 16;
       bones :=
         match outliner bbmodelData with
         | Some items =>
             flat_map
               (fun item =>
                  match processBone (elements bbmodelData) item None with
                  | Some bone => [bone]
                  | None => []
                  end)
               items
         | None => []
         end |}.

End Convert.

(** The nodes of a tree, nested ones included. *)
Fixpoint nodes (item : OutlinerItem) : list OutlinerItem :=
  match item with
  | ElementRef _ => []
  | Group _ _ _ children =>
      item :: (fix go (l : list OutlinerItem) : list OutlinerItem :=
                 match l with
                 | [] => []
                 | c :: l' => nodes c ++ go l'
                 end) children
  end.

End Bbmodel.

(* ================================================================== *)
(** ** Pack import ([importExistingPack], Platform A) *)

Module Importer.

(** *** Texture references *)

(** [.replace(/^item\//, '').replace(/^block\//, '').replace(/^entity\//, '')] *)
Definition stripTypeFolder (s : jstring) : jstring :=
  stripPrefix (str "entity/")
    (stripPrefix (str "block/") (stripPrefix (str "item/") s)).

(** What the loop keeps of one reference: the name it records for the
    layer, and whether a texture was found for it ([textureFound]). *)
Record Resolved := {
  finalTextureName : jstring;
  textureFound : bool
}.

(** [textureMap], an object literal with texture paths for keys and
    files for values: its own entries, and the names at which it finds a
    value that counts as true through its prototype. *)
Record TextureMap := {
  ownTextures : entries File;
  throughPrototype : jstring -> bool
}.

(** A texture map with the prototype every object literal starts with. *)
Definition ordinary (own : entries File) : TextureMap :=
  {| ownTextures := own; throughPrototype := inherited |}.

(** [textureMap[name]] read as a condition: a file of the map counts as
    true, and so does what the map inherits. *)
Definition linked (name : jstring) (textureMap : TextureMap) : bool :=
  hasKey name (ownTextures textureMap) || throughPrototype textureMap name.

(** The predicate of strategy 3 on a key of the texture map. *)
Definition nameMatches (textureName key : jstring) : bool :=
  endsWith (SLASH :: textureName) key
  || jeqb key textureName
  || jeqb key (str "item/" ++ textureName).

(** The body of the loop over a model document's texture layers, for one
    string-valued reference.  The tests are [if (textureMap[name])]: they
    also succeed on a name that the map inherits.  [Object.keys] lists
    the own keys. *)
Definition resolveTexture (textureMap : TextureMap) (texturePath : jstring)
  : Resolved :=
  let pathWithoutMinecraft := stripPrefix (str "minecraft:") texturePath in
  let notFound :=
    {| finalTextureName := stripTypeFolder pathWithoutMinecraft;
       textureFound := false |} in
  if linked pathWithoutMinecraft textureMap then
    {| finalTextureName := stripTypeFolder pathWithoutMinecraft;
       textureFound := true |}
  else
    let withoutPrefix := stripTypeFolder pathWithoutMinecraft in
    if linked (str "item/" ++ withoutPrefix) textureMap then
      {| finalTextureName := withoutPrefix; textureFound := true |}
    else if linked withoutPrefix textureMap then
      {| finalTextureName := withoutPrefix; textureFound := true |}
    else
      let textureName :=
        orElse (lastSegment SLASH withoutPrefix) withoutPrefix in
      match find (nameMatches textureName) (keys (ownTextures textureMap))
      with
      | Some matchingKey =>
          if truthy matchingKey then
            {| finalTextureName := stripTypeFolder matchingKey;
               textureFound := true |}
          else notFound
      | None => notFound
      end.

(** The loop itself: [newModel.textures[layer] = finalTextureName] for each
    layer whose value is a string; other values are passed over.
    [newModel.textures] is an object literal. *)
Definition resolveLayers (textureMap : TextureMap)
    (layers : list (jstring * json)) : entries jstring :=
  fold_left
    (fun acc layer =>
       match snd layer with
       | JStr texturePath =>
           assign (fst layer)
             (finalTextureName (resolveTexture textureMap texturePath)) acc
       | _ => acc
       end)
    layers [].

(** *** Identifiers *)

(** [ToInt32] *)
Definition toInt32 (z : Z) : Z :=
  ((z + 2147483648) mod 4294967296 - 2147483648)%Z.

(** [((a << 5) - a + b.charCodeAt(0)) | 0] *)
Definition hashStep (a : Z) (b : char) : Z :=
  toInt32 (toInt32 (Z.shiftl (toInt32 a) 5) - a + Z.of_N b)%Z.

(** [dataStr.split("").reduce(..., 0)] *)
Definition hashString (dataStr : jstring) : Z := fold_left hashStep dataStr 0%Z.

(** [(Math.abs(hash) % 10000) + 1] *)
Definition syntheticId (dataStr : jstring) : Z :=
  (Z.abs (hashString dataStr) mod 10000 + 1)%Z.

Definition hexDigit (d : N) : char :=
  if N.ltb d 10 then (48 + d)%N else (87 + d)%N.

Fixpoint hexDigits (fuel : nat) (n : N) (acc : jstring) : jstring :=
  match fuel with
  | O => acc
  | S fuel' =>
      let acc' := hexDigit (N.modulo n 16) :: acc in
      if N.eqb (N.div n 16) 0 then acc' else hexDigits fuel' (N.div n 16) acc'
  end.

(** [c.toString(16)] on an integer *)
Definition toString16 (c : Z) : jstring :=
  let n := Z.abs_N c in
  let digits := hexDigits (S (N.to_nat (N.log2 n))) n [] in
  if Z.ltb c 0 then 45%N :: digits else digits.

(** [s.padStart(2, "0")] *)
Definition padStart2 (s : jstring) : jstring :=
  repeat 48%N (2 - length s) ++ s.

(** [String(v)] for a value inside an array that is printed: [null] prints
    as nothing, an array as its elements joined by commas, an object (taken
    to have no property named toString or valueOf) as "[object Object]". *)
Fixpoint printed (v : json) : jstring :=
  match v with
  | JNull => []
  | JBool true => str "true"
  | JBool false => str "false"
  | JNum n => decimalZ n
  | JStr s => s
  | JArr items => join (str ",") (map printed items)
  | JObj _ => str "[object Object]"
  end.

(** [c.toString(16)] for a channel [c]: hexadecimal for a number, the
    value's own [toString] for another value, a TypeError ([None]) for
    [null]. *)
Definition channelString (c : json) : option jstring :=
  match c with
  | JNum n => Some (toString16 n)
  | JNull => None
  | other => Some (printed other)
  end.

(** [rgb.map((c) => c.toString(16).padStart(2, "0")).join("")] *)
Fixpoint hexOfChannels (rgb : list json) : option jstring :=
  match rgb with
  | [] => Some []
  | c :: rest =>
      match channelString c, hexOfChannels rest with
      | Some s, Some t => Some (padStart2 s ++ t)
      | _, _ => None
      end
  end.

(** The callback of [cmd.colors.map]: only an array has a [map]. *)
Definition colorString (rgb : json) : option json :=
  match rgb with
  | JArr channels =>
      match hexOfChannels channels with
      | Some s => Some (JStr (HASH :: s))
      | None => None
      end
  | _ => None
  end.

Fixpoint mapColors (colors : list json) : option (list json) :=
  match colors with
  | [] => Some []
  | rgb :: rest =>
      match colorString rgb, mapColors rest with
      | Some c, Some cs => Some (c :: cs)
      | _, _ => None
      end
  end.

(** [Array.isArray(cmd.k) ? cmd.k : old] *)
Definition arrayOr (k : string) (cmd : json) (old : list json) : list json :=
  match prop k cmd with
  | Some (JArr a) => a
  | _ => old
  end.

(** [JSON.stringify(value)] without indentation, on the values of the
    model.  An integer is printed in decimal digits; from 10^21 on
    [JSON.stringify] prints an exponent, and such a number is not printed
    here ([None]). *)
Definition hex4 (c : N) : jstring :=
  [ hexDigit (N.modulo (N.div c 4096) 16); hexDigit (N.modulo (N.div c 256) 16);
    hexDigit (N.modulo (N.div c 16) 16); hexDigit (N.modulo c 16) ].

Definition unicodeEscape (c : char) : jstring := [92; 117]%N ++ hex4 c.

Definition isHighSurrogate (c : char) : bool := N.leb 55296 c && N.leb c 56319.
Definition isLowSurrogate (c : char) : bool := N.leb 56320 c && N.leb c 57343.

Fixpoint quoteUnits (s : jstring) : jstring :=
  match s with
  | [] => []
  | c :: r =>
      if N.eqb c 8 then [92; 98]%N ++ quoteUnits r
      else if N.eqb c 9 then [92; 116]%N ++ quoteUnits r
      else if N.eqb c 10 then [92; 110]%N ++ quoteUnits r
      else if N.eqb c 12 then [92; 102]%N ++ quoteUnits r
      else if N.eqb c 13 then [92; 114]%N ++ quoteUnits r
      else if N.eqb c 34 then [92; 34]%N ++ quoteUnits r
      else if N.eqb c 92 then [92; 92]%N ++ quoteUnits r
      else if N.ltb c 32 then unicodeEscape c ++ quoteUnits r
      else if isHighSurrogate c then
        match r with
        | d :: r' =>
            if isLowSurrogate d then c :: d :: quoteUnits r'
            else unicodeEscape c ++ quoteUnits r
        | [] => unicodeEscape c
        end
      else if isLowSurrogate c then unicodeEscape c ++ quoteUnits r
      else c :: quoteUnits r
  end.

Definition quoteJSONString (s : jstring) : jstring :=
  [34%N] ++ quoteUnits s ++ [34%N].

Fixpoint allSome (A : Type) (l : list (option A)) : option (list A) :=
  match l with
  | [] => Some []
  | Some a :: rest =>
      match allSome rest with
      | Some others => Some (a :: others)
      | None => None
      end
  | None :: _ => None
  end.

Fixpoint JSON_stringify (value : json) : option jstring :=
  match value with
  | JNull => Some (str "null")
  | JBool true => Some (str "true")
  | JBool false => Some (str "false")
  | JNum n =>
      if (Z.abs n <? 10 ^ 21)%Z then Some (decimalZ n) else None
  | JStr s => Some (quoteJSONString s)
  | JArr items =>
      match allSome (map JSON_stringify items) with
      | Some texts => Some (str "[" ++ join (str ",") texts ++ str "]")
      | None => None
      end
  | JObj fields =>
      match allSome
              (map (fun kv =>
                      match kv with
                      | (k, v) =>
                          match JSON_stringify v with
                          | Some text =>
                              Some (quoteJSONString k ++ str ":" ++ text)
                          | None => None
                          end
                      end)
                 fields)
      with
      | Some texts => Some (str "{" ++ join (str ",") texts ++ str "}")
      | None => None
      end
  end.



Section Decode.
(** [JSON.stringify] *)
Variable stringify : json -> jstring.

Definition withIdentifier (model : ModelData) (cmdValue : Z)
    (floats flags strings colors : list json) : ModelData :=
  {| model_id := model_id model;
     model_name := model_name model;
     customModelData := cmdValue;
     model_parent := model_parent model;
     model_textures := model_textures model;
     targetItem := targetItem model;
     model_elements := model_elements model;
     model_display := model_display model;
     customModelDataFloats := floats;
     customModelDataFlags := flags;
     customModelDataStrings := strings;
     customModelDataColors := colors;
     bedrockGeometry := bedrockGeometry model |}.

(** The decoding of [override.predicate.custom_model_data] into the new
    model.  [None] is a TypeError, which the caller catches: the model
    document is then passed over. *)
Definition decodeCustomModelData (newModel : ModelData) (cmd : json)
  : option ModelData :=
  match cmd with
  | JNum n =>
      Some (withIdentifier newModel n
              (customModelDataFloats newModel) (customModelDataFlags newModel)
              (customModelDataStrings newModel)
              (customModelDataColors newModel))
  | JObj _ | JArr _ =>
      let colors :=
        match prop "colors" cmd with
        | Some (JArr a) => mapColors a
        | _ => Some (customModelDataColors newModel)
        end in
      match colors with
      | Some cs =>
          Some (withIdentifier newModel (syntheticId (stringify cmd))
                  (arrayOr "floats" cmd (customModelDataFloats newModel))
                  (arrayOr "flags" cmd (customModelDataFlags newModel))
                  (arrayOr "strings" cmd (customModelDataStrings newModel))
                  cs)
      | None => None
      end
  | JNull => None
  | JBool _ | JStr _ => Some newModel
  end.

End Decode.

(** The polynomial the hash computes before it wraps: the code units as
    digits in base 31. *)
Definition polynomial31 (dataStr : jstring) : Z :=
  fold_left (fun h c => (31 * h + Z.of_N c)%Z) dataStr 0%Z.

End Importer.

(* ================================================================== *)
(** ** Platform A and Platform B export ([generateZip]) *)

Module Exporter.

(** What [zip.file(path, data)] is given: a document before
    [JSON.stringify], a text, or a file. *)
Inductive ZipData :=
| ZJson (doc : json)
| ZText (text : jstring)
| ZBlob (f : File).

Definition ZipWrite : Type := jstring * ZipData.

Definition obj (fields : list (jstring * json)) : json := JObj fields.

Definition fld (k : string) (v : json) : jstring * json := (str k, v).

Definition jstr (s : string) : json := JStr (str s).

(** [fields] that are set only under a condition *)
Definition optField (k : string) (v : option json)
  : list (jstring * json) :=
  match v with Some j => [fld k j] | None => [] end.

(** [resourcePack.models.filter((m) => m.customModelData && m.targetItem)] *)
Definition isValidModel (m : ModelData) : bool :=
  negb (Z.eqb (customModelData m) 0) && truthy (targetItem m).

Definition validModels (pack : ResourcePack) : list ModelData :=
  filter isValidModel (models pack).

(** The [reduce] that groups the models by target item.  The export comes
    here after validation has passed, which it does for no target item
    named like an inherited property. *)
Definition itemGroups (ms : list ModelData) : entries (list ModelData) :=
  fold_left (fun acc model => pushTo (targetItem model) model acc) ms [].

(** [[...l].sort(compare)]: the sort is stable, so with a comparator that
    orders by a key its result is the one of a stable insertion sort. *)
Section Sort.
Variable A : Type.
Variable compare : A -> A -> Z.

Fixpoint insertSorted (x : A) (l : list A) : list A :=
  match l with
  | [] => [x]
  | y :: l' =>
      if (compare x y <=? 0)%Z then x :: l else y :: insertSorted x l'
  end.

Definition sortBy (l : list A) : list A := fold_right insertSorted [] l.
End Sort.

(** [(a, b) => a.customModelData - b.customModelData] *)
Definition byCustomModelData (a b : ModelData) : Z :=
  (customModelData a - customModelData b)%Z.

Definition modelRef (n : jstring) : json := JStr (str "minecraft:item/" ++ n).

(** The dispatch document (format from 48 on). *)
Definition dispatchEntry (model : ModelData) : json :=
  obj [ fld "threshold" (JNum (customModelData model));
        fld "model" (obj [ fld "type" (jstr "minecraft:model");
                           fld "model" (modelRef (model_name model)) ]) ].

Definition itemDef (itemName : jstring) (sortedModels : list ModelData)
  : json :=
  obj [ fld "model"
          (obj [ fld "type" (jstr "minecraft:range_dispatch");
                 fld "property" (jstr "minecraft:custom_model_data");
                 fld "index" (JNum 0);
                 fld "fallback" (obj [ fld "type" (jstr "minecraft:model");
                                       fld "model" (modelRef itemName) ]);
                 fld "entries" (JArr (map dispatchEntry sortedModels)) ]) ].

(** The legacy override list (formats below 48). *)
Definition overrideEntry (model : ModelData) : json :=
  obj [ fld "predicate"
          (obj [ fld "custom_model_data" (JNum (customModelData model)) ]);
        fld "model" (modelRef (model_name model)) ].

Definition itemModel (itemName : jstring) (sortedModels : list ModelData)
  : json :=
  obj [ fld "parent" (jstr "item/generated");
        fld "textures" (obj [ fld "layer0" (modelRef itemName) ]);
        fld "overrides" (JArr (map overrideEntry sortedModels)) ].

(** One turn of the loop over [Object.entries(itemGroups)]. *)
Definition itemDefinition (fmt : Z) (group : jstring * list ModelData)
  : ZipWrite :=
  let itemName := fst group in
  let sortedModels := sortBy byCustomModelData (snd group) in
  if (48 <=? fmt)%Z then
    (str "assets/minecraft/items/" ++ itemName ++ str ".json",
     ZJson (itemDef itemName sortedModels))
  else
    (str "assets/minecraft/models/item/" ++ itemName ++ str ".json",
     ZJson (itemModel itemName sortedModels)).

Definition itemDefinitions (pack : ResourcePack) : list ZipWrite :=
  map (itemDefinition (format pack)) (itemGroups (validModels pack)).

(** Reading a selection document back: the thresholds of a dispatch
    document and the identifiers of an override list, in their order. *)
Definition thresholds (doc : json) : list Z :=
  match prop "model" doc with
  | Some m =>
      match prop "entries" m with
      | Some (JArr es) =>
          flat_map (fun e => match prop "threshold" e with
                             | Some (JNum n) => [n]
                             | _ => []
                             end) es
      | _ => []
      end
  | None => []
  end.

Definition overrideIdentifiers (doc : json) : list Z :=
  match prop "overrides" doc with
  | Some (JArr os) =>
      flat_map (fun o => match prop "predicate" o with
                         | Some p => match prop "custom_model_data" p with
                                     | Some (JNum n) => [n]
                                     | _ => []
                                     end
                         | None => []
                         end) os
  | _ => []
  end.

(** No two models of one target item share a primary identifier. *)
Fixpoint distinctIdentifiers (ms : list ModelData) : bool :=
  match ms with
  | [] => true
  | m :: rest =>
      forallb (fun m' => negb (jeqb (targetItem m) (targetItem m')
                               && Z.eqb (customModelData m)
                                        (customModelData m')))
              rest
      && distinctIdentifiers rest
  end.

(** The order the sort leaves the models in. *)
Definition cmdLe (a b : ModelData) : Prop :=
  (customModelData a <= customModelData b)%Z.

(** The models of a pack that target [item]. *)
Definition targeting (item : jstring) (ms : list ModelData) : list ModelData :=
  filter (fun m => jeqb (targetItem m) item) ms.

(** One model document. *)
Definition modelJson (model : ModelData) : json :=
  obj ([ fld "parent" (JStr (orElse (model_parent model) (str "item/generated")));
         fld "textures" (
          JObj (fold_left
                  (fun acc lt => assign (fst lt) (modelRef (snd lt)) acc)
                  (model_textures model) [])) ]
       ++ optField "elements" (model_elements model)
       ++ optField "display" (model_display model)).

Definition modelFile (model : ModelData) : ZipWrite :=
  (str "assets/minecraft/models/item/" ++ model_name model ++ str ".json",
   ZJson (modelJson model)).

(** The path the selection document of an item is written to. *)
Definition selectionPath (fmt : Z) (itemName : jstring) : jstring :=
  (if (48 <=? fmt)%Z then str "assets/minecraft/items/"
   else str "assets/minecraft/models/item/") ++ itemName ++ str ".json".

(** The identifiers a stored document lists when it is read as a
    selection document. *)
Definition listedIdentifiers (fmt : Z) (stored : option ZipData) : list Z :=
  match stored with
  | Some (ZJson doc) =>
      if (48 <=? fmt)%Z then thresholds doc else overrideIdentifiers doc
  | _ => []
  end.

(** Below format 48 the model documents are written after the selection
    documents and into the same folder: whether one of the models [ms] is
    written where the selection document of [itemName] is. *)
Definition overwritten (fmt : Z) (ms : list ModelData) (itemName : jstring)
  : bool :=
  negb (48 <=? fmt)%Z && existsb (fun m => jeqb (model_name m) itemName) ms.

(** A texture and, when its animation is enabled, the sidecar. *)
Definition mcmeta (a : Animation) : json :=
  obj [ fld "animation" (
         obj (optField "frametime" (option_map JNum (frametime a))
              ++ optField "interpolate" (option_map JBool (interpolate a))
              ++ match frames a with
                 | Some (f :: fs) => [fld "frames" (JArr (f :: fs))]
                 | _ => []
                 end)) ].

Definition textureFiles (texture : TextureData) : list ZipWrite :=
  let textureName := removeExtension (tex_name texture) in
  let base := str "assets/minecraft/textures/item/" ++ textureName in
  (base ++ str ".png", ZBlob (tex_file texture))
  :: match animation texture with
     | Some a =>
         if anim_enabled a
         then [(base ++ str ".png.mcmeta", ZJson (mcmeta a))]
         else []
     | None => []
     end.

(** *** Fonts *)

Definition typeName (t : ProviderType) : jstring :=
  match t with
  | Bitmap => str "bitmap"
  | Ttf => str "ttf"
  | Space => str "space"
  | Unihex => str "unihex"
  | OtherProvider n => n
  end.

(** [provider.file.match(/minecraft:font\/(.+)\.png/)], its group *)
Definition matchFontPng (file : jstring) : option jstring :=
  matchAfter (str "minecraft:font/")
    (fun rest =>
       match greedyBefore (str ".png") rest with
       | Some (c :: g) => Some (c :: g)
       | _ => None
       end)
    file.

(** [provider.file.match(/minecraft:font\/(.+)\.(.+)$/)], its two groups *)
Definition matchFontFile (file : jstring) : option (jstring * jstring) :=
  matchAfter (str "minecraft:font/")
    (fun rest =>
       match greedySplitDot rest with
       | Some (c :: g, ext) => Some (c :: g, ext)
       | _ => None
       end)
    file.

Definition someTruthy (s : option jstring) : option jstring :=
  match s with
  | Some x => if truthy x then Some x else None
  | None => None
  end.

(** A value that is set and truthy. *)
Definition someTruthyJson (v : option json) : option json :=
  match v with
  | Some j => if truthyJson j then Some j else None
  | None => None
  end.

(** [name.split(".").pop()?.toLowerCase()] when it is "ttf" or "otf" *)
Definition fontExtension (f : File) : option jstring :=
  let ext := toLowerCase (lastSegment DOT (fileName f)) in
  if jeqb ext (str "ttf") || jeqb ext (str "otf") then Some ext else None.

(** The bitmap branch: the provider's document and the files it saves. *)
Definition bitmapProvider (font : CustomFont) (provider : FontProvider)
  : json * list ZipWrite :=
  let filename :=
    match fileHandle provider with
    | Some fh => removeExtension (fileName fh)
    | None =>
        match someTruthy (prov_file provider) with
        | Some file =>
            match matchFontPng file with
            | Some g => g
            | None => font_name font
            end
        | None => font_name font
        end
    end in
  (obj ([ fld "type" (JStr (typeName (prov_type provider)));
          fld "file" (JStr (str "minecraft:font/" ++ filename ++ str ".png"));
          fld "ascent" (JNum (numOr (ascent provider) 8));
          fld "height" (JNum (numOr (height provider) 8)) ]
        ++ optField "chars"
             (option_map (fun cs => JArr (map JStr cs)) (chars provider))),
   match fileHandle provider with
   | Some fh =>
       [(str "assets/minecraft/textures/font/" ++ fileName fh, ZBlob fh)]
   | None =>
       match font_file font with
       | Some ff =>
           if endsWith (str ".png") (toLowerCase (fileName ff))
           then [(str "assets/minecraft/textures/font/" ++ filename
                    ++ str ".png", ZBlob ff)]
           else []
       | None => []
       end
   end).

(** The ttf branch. *)
Definition ttfProvider (font : CustomFont) (provider : FontProvider)
  : json * list ZipWrite :=
  let named :=
    match fileHandle provider with
    | Some fh =>
        (removeExtension (fileName fh),
         orElse (toLowerCase (lastSegment DOT (fileName fh))) (str "ttf"))
    | None =>
        match someTruthy (prov_file provider) with
        | Some file =>
            match matchFontFile file with
            | Some ge => ge
            | None => (font_name font, str "ttf")
            end
        | None =>
            match font_file font with
            | Some ff =>
                match fontExtension ff with
                | Some ext => (font_name font, ext)
                | None => (font_name font, str "ttf")
                end
            | None => (font_name font, str "ttf")
            end
        end
    end in
  let filename := fst named in
  let extension := snd named in
  (obj ([ fld "type" (JStr (typeName (prov_type provider)));
          fld "file" (JStr (str "minecraft:font/" ++ filename ++ [DOT]
                           ++ extension));
          fld "size" (JNum (numOr (prov_size provider) 11));
          fld "oversample" (JNum (numOr (oversample provider) 1)) ]
        ++ optField "shift" (someTruthyJson (shift provider))
        ++ optField "skip" (someTruthyJson (skip provider))),
   match fileHandle provider with
   | Some fh => [(str "assets/minecraft/font/" ++ fileName fh, ZBlob fh)]
   | None =>
       match font_file font with
       | Some ff =>
           match fontExtension ff with
           | Some _ =>
               [(str "assets/minecraft/font/" ++ filename ++ [DOT]
                   ++ extension, ZBlob ff)]
           | None => []
           end
       | None => []
       end
   end).

(** The callback of [font.providers.map]. *)
Definition providerJson (font : CustomFont) (provider : FontProvider)
  : json * list ZipWrite :=
  match prov_type provider with
  | Bitmap => bitmapProvider font provider
  | Ttf => ttfProvider font provider
  | Space =>
      (obj [ fld "type" (JStr (typeName (prov_type provider)));
             fld "advances" (
              JObj (match advances provider with
                    | Some a => map (fun kv => (fst kv, JNum (snd kv))) a
                    | None => []
                    end)) ],
       [])
  | Unihex =>
      (obj [ fld "type" (JStr (typeName (prov_type provider)));
             fld "hex_file" (
              JStr (match someTruthy (prov_file provider) with
                    | Some f => f
                    | None => str "minecraft:font/unifont.hex"
                    end));
             fld "size_overrides" (JArr []) ],
       [])
  | OtherProvider _ =>
      (obj [ fld "type" (JStr (typeName (prov_type provider))) ], [])
  end.

Definition fontJson (font : CustomFont) : json :=
  obj [ fld "providers" (
         JArr (map (fun p => fst (providerJson font p)) (providers font))) ].

(** The files of one font: what its providers save, then its document. *)
Definition fontFiles (font : CustomFont) : list ZipWrite :=
  flat_map (fun p => snd (providerJson font p)) (providers font)
  ++ [(str "assets/minecraft/font/" ++ font_name font ++ str ".json",
       ZJson (fontJson font))].


(** *** Sounds, languages, particles, shaders *)

(** [convertSoundsToJava] ([converters.ts]); [javaSounds] is an object
    literal, and a definition assigned to "__proto__" becomes its
    prototype, which [JSON.stringify] does not print. *)
Definition convertSoundsToJava (ss : list CustomSound) : json :=
  JObj (fold_left
          (fun javaSounds sound =>
             assign (sound_name sound)
               (obj ([ fld "category" (JStr (category sound));
                       fld "sounds"
                         (JArr (map (fun s => obj [ fld "name" (JStr s);
                                                    fld "type" (jstr "sound") ])
                                    (sounds sound))) ]
                     ++ optField "subtitle"
                          (option_map JStr (someTruthy (subtitle sound)))
                     ++ optField "replace"
                          (option_map JBool (sound_replace sound))))
               javaSounds)
          ss []).

Definition soundFiles (ss : list CustomSound) : list ZipWrite :=
  match ss with
  | [] => []
  | _ =>
      (str "assets/minecraft/sounds.json", ZJson (convertSoundsToJava ss))
      :: flat_map
           (fun sound =>
              match sound_file sound with
              | Some f =>
                  [(str "assets/minecraft/sounds/" ++ sound_name sound
                      ++ [DOT] ++ lastSegment DOT (fileName f), ZBlob f)]
              | None => []
              end)
           ss
  end.

(** The definition [convertSoundsToBedrock] writes for one sound. *)
Definition soundDefinition (sound : CustomSound) : json :=
  obj ([ fld "category" (JStr (category sound));
         fld "sounds"
           (JArr (map (fun s =>
                         obj [ fld "name" (JStr (str "sounds/" ++ s));
                               fld "volume" (JNum 1);
                               fld "pitch" (JNum 1);
                               fld "load_on_low_memory" (JBool true) ])
                    (sounds sound))) ]
       ++ optField "__subtitle"
            (option_map JStr (someTruthy (subtitle sound)))).

(** [convertSoundsToBedrock] ([converters.ts]); [sound_definitions] is an
    object literal. *)
Definition convertSoundsToBedrock (ss : list CustomSound) : json :=
  obj [ fld "format_version" (jstr "1.14.0");
        fld "sound_definitions"
          (JObj (fold_left
                   (fun definitions sound =>
                      assign (sound_name sound) (soundDefinition sound)
                        definitions)
                   ss [])) ].

(** The sounds as that object keeps them: of the sounds of one name the
    last, and the names in the order the object lists them. *)
Definition keptSounds (ss : list CustomSound) : list CustomSound :=
  map snd
    (fold_left (fun kept sound => assign (sound_name sound) sound kept)
       ss []).

(** [convertLangToJava] is the identity on the table. *)
Definition languageFile (lang : LanguageFile) : ZipWrite :=
  (str "assets/minecraft/lang/" ++ lang_code lang ++ str ".json",
   ZJson (JObj (map (fun kv => (fst kv, JStr (snd kv))) (lang_content lang)))).

Definition particleFiles (particle : CustomParticle) : list ZipWrite :=
  (str "assets/minecraft/particles/" ++ particle_name particle ++ str ".json",
   ZJson (obj [ fld "textures"
                  (JArr (map (fun t => JStr (str "minecraft:particle/" ++ t))
                             (particle_textures particle))) ]))
  :: match particle_file particle with
     | Some f =>
         [(str "assets/minecraft/textures/particle/"
             ++ particle_name particle ++ str ".png", ZBlob f)]
     | None => []
     end.

Definition shaderFiles (shader : ShaderFile) : list ZipWrite :=
  let extension :=
    match shader_type shader with
    | Program => str ".json"
    | Vertex => str ".vsh"
    | Fragment => str ".fsh"
    end in
  let folder :=
    match shader_type shader with
    | Program => str "program"
    | _ => str "core"
    end in
  let path :=
    str "assets/minecraft/shaders/" ++ folder ++ [SLASH]
      ++ shader_name shader ++ extension in
  match shader_file shader with
  | Some f => [(path, ZBlob f)]
  | None =>
      match someTruthy (shader_content shader) with
      | Some c => [(path, ZText c)]
      | None => []
      end
  end.

(** *** The companion-runtime mapping ([generateGeyserMapping]) *)

Definition geyserIcon (model : ModelData) : jstring :=
  match model_textures model with
  | (_, first) :: _ =>
      orElse (removeExtension (removeFolders first)) (model_name model)
  | [] => model_name model
  end.

Definition geyserItem (model : ModelData) : json :=
  obj [ fld "custom_model_data" (JNum (customModelData model));
        fld "display_name" (JStr (model_name model));
        fld "icon" (JStr (geyserIcon model));
        fld "allow_offhand" (JBool true);
        fld "texture_size" (JNum 16);
        fld "creative_category" (JNum 1);
        fld "creative_group" (jstr "custom_items");
        fld "tags" (JArr [jstr "custom_item"]) ].

Definition generateGeyserMapping (pack : ResourcePack) : json :=
  obj [ fld "format_version" (JNum 1);
        fld "items"
          (JObj (map (fun g => (fst g, JArr (snd g)))
                   (fold_left
                      (fun items model =>
                         pushTo (str "minecraft:" ++ targetItem model)
                           (geyserItem model) items)
                      (validModels pack) []))) ].

(** *** The two archives *)

Section Archive.
(** The texts of the two README templates, which print the date. *)
Variable javaReadme : ResourcePack -> list ModelData -> jstring.
Variable bedrockReadme : ResourcePack -> list ModelData -> jstring.
(** The identifiers [uuidv4()] returns, in the order of the calls. *)
Variable uuidv4 : nat -> jstring.
(** How a converted geometry is written out as a document. *)
Variable geometryDoc : BedrockGeometry -> json.

Definition whenSome (A : Type) (o : option A) (f : A -> ZipWrite)
  : list ZipWrite :=
  match o with Some a => [f a] | None => [] end.

(** The calls of [zip.file] in the Java branch, in order. *)
Definition javaWrites (pack : ResourcePack) : list ZipWrite :=
  [(str "pack.mcmeta",
    ZJson (obj [ fld "pack"
                   (obj [ fld "pack_format" (JNum (format pack));
                          fld "description"
                            (JStr (orElse (description pack)
                                     (str "Generated Resource Pack"))) ]) ]))]
  ++ whenSome (packIcon pack) (fun icon => (str "pack.png", ZBlob icon))
  ++ [(str "README.md", ZText (javaReadme pack (validModels pack)))]
  ++ itemDefinitions pack
  ++ map modelFile (validModels pack)
  ++ flat_map textureFiles (textures pack)
  ++ flat_map fontFiles (fonts pack)
  ++ soundFiles (pack_sounds pack)
  ++ map languageFile (languages pack)
  ++ flat_map particleFiles (particles pack)
  ++ flat_map shaderFiles (shaders pack)
  ++ [(str "geyser_mappings.json", ZJson (generateGeyserMapping pack))].

Definition attachable (model : ModelData) : json :=
  obj [ fld "format_version" (jstr "1.10.0");
        fld "minecraft:attachable"
          (obj [ fld "description"
                   (obj [ fld "identifier"
                            (JStr (str "custom:" ++ model_name model));
                          fld "materials"
                            (obj [ fld "default" (jstr "entity_alphatest") ]);
                          fld "textures"
                            (obj [ fld "default"
                                     (JStr (str "textures/entity/"
                                              ++ model_name model)) ]);
                          fld "geometry"
                            (obj [ fld "default"
                                     (JStr (str "geometry."
                                              ++ model_name model)) ]);
                          fld "render_controllers"
                            (JArr [jstr "controller.render.default"]);
                          fld "scripts"
                            (obj [ fld "parent_setup"
                                     (jstr "variable.item_slot = 0;") ]) ]) ])
      ].

Definition manifest (pack : ResourcePack) : json :=
  let v100 := JArr [JNum 1; JNum 0; JNum 0] in
  obj [ fld "format_version" (JNum 2);
        fld "header"
          (obj [ fld "name" (JStr (name pack));
                 fld "description" (JStr (description pack));
                 fld "uuid" (JStr (uuidv4 0));
                 fld "version" v100;
                 fld "min_engine_version" (JArr [JNum 1; JNum 21; JNum 0]) ]);
        fld "modules"
          (JArr [ obj [ fld "type" (jstr "resources");
                        fld "uuid" (JStr (uuidv4 1));
                        fld "version" v100 ] ]) ].

(** The calls of [zip.file] in the Bedrock branch, in order. *)
Definition bedrockWrites (pack : ResourcePack) : list ZipWrite :=
  [(str "manifest.json", ZJson (manifest pack))]
  ++ whenSome (packIcon pack) (fun icon => (str "pack_icon.png", ZBlob icon))
  ++ flat_map
       (fun model =>
          match bedrockGeometry model with
          | Some g =>
              [ (str "models/entity/" ++ model_name model ++ str ".geo.json",
                 ZJson (geometryDoc g));
                (model_name model ++ str ".attachable.json",
                 ZJson (attachable model)) ]
          | None => []
          end)
       (validModels pack)
  ++ map (fun texture =>
            (str "textures/entity/" ++ removeExtension (tex_name texture)
               ++ str ".png", ZBlob (tex_file texture)))
         (textures pack)
  ++ [(str "README.txt", ZText (bedrockReadme pack (validModels pack)));
      (str "geyser_mappings.json", ZJson (generateGeyserMapping pack))].

(** The archive: a later write to a path replaces the earlier one. *)
Definition archive (writes : list ZipWrite) : entries ZipData :=
  fold_left (fun zip w => setKey (fst w) (snd w) zip) writes [].

End Archive.

End Exporter.

(* ================================================================== *)
(** ** Merging packs ([analyzeMergeConflicts], [executeMerge]) *)

Module Merge.

(** An entry of [zip.files]. *)
Record ZipObject := { dir : bool; data : list N }.

(** An uploaded pack with the entries [JSZip.loadAsync] finds in it, in
    the order of [Object.entries(zip.files)]; [None] when it cannot be
    loaded. *)
Record MergePack := {
  pack_name : jstring;
  pack_files : option (entries ZipObject)
}.

Inductive Resolution := Overwrite | Skip | Rename.

Record MergeConflict := {
  conflict_path : jstring;
  conflict_packs : list (jstring * File);
  resolution : Resolution
}.

(** [new File([blob], path.split("/").pop() || "texture.png")] *)
Definition fileAt (path : jstring) (entry : ZipObject) : File :=
  {| fileName := orElse (lastSegment SLASH path) (str "texture.png");
     fileData := data entry |}.

Definition isDigit (c : char) : bool := N.leb 48 c && N.leb c 57.

(** The expansion of a replacement text ([GetSubstitution]) for a regular
    expression with one capture group and no named group. *)
Fixpoint getSubstitution (matched before after capture template : jstring)
  : jstring :=
  match template with
  | [] => []
  | c :: t =>
      if negb (N.eqb c DOLLAR) then
        c :: getSubstitution matched before after capture t
      else
        match t with
        | [] => [c]
        | d :: t' =>
            let rest := getSubstitution matched before after capture t' in
            if N.eqb d DOLLAR then DOLLAR :: rest
            else if N.eqb d 38 then matched ++ rest
            else if N.eqb d 96 then before ++ rest
            else if N.eqb d 39 then after ++ rest
            else if isDigit d then
              match t' with
              | e :: t'' =>
                  let rest2 :=
                    getSubstitution matched before after capture t'' in
                  if isDigit e && N.eqb d 48 && N.eqb e 49 then
                    capture ++ rest2
                  else if isDigit e && N.eqb d 48 && N.eqb e 48 then
                    DOLLAR :: d :: e :: rest2
                  else if N.eqb d 49 then capture ++ rest
                  else DOLLAR :: d :: rest
              | [] =>
                  if N.eqb d 49 then capture ++ rest
                  else DOLLAR :: d :: rest
              end
            else DOLLAR :: getSubstitution matched before after capture t
        end
  end.

(** [path.replace(/(\.[^.]+)$/, `_${packName}$1`)] *)
Definition renamed (path packName : jstring) : jstring :=
  match splitExtension isDot path with
  | Some (stem, ext) =>
      stem ++ getSubstitution ext stem [] ext
                ([95%N] ++ packName ++ str "$1")
  | None => path
  end.

Definition findConflict (conflicts : list MergeConflict) (path : jstring)
  : option MergeConflict :=
  find (fun c => jeqb (conflict_path c) path) conflicts.

Definition isTexturePath (path : jstring) : bool :=
  includes (str "textures/") path.

Definition isModelPath (path : jstring) : bool :=
  includes (str "models/") path.

Section Execute.
(** [JSON.parse] on the text of an entry; [None] when it throws. *)
Variable parseJSON : list N -> option json.
Variable conflicts : list MergeConflict.

Record Merged := {
  mergedTextures : entries File;
  mergedModels : entries json
}.

Definition setTexture (path : jstring) (f : File) (m : Merged) : Merged :=
  {| mergedTextures := setKey path f (mergedTextures m);
     mergedModels := mergedModels m |}.

(** One turn of the loop over the entries of a pack. *)
Definition mergeEntry (packName : jstring) (m : Merged)
    (e : jstring * ZipObject) : Merged :=
  let path := fst e in
  let zipEntry := snd e in
  if dir zipEntry then m
  else if isTexturePath path then
    match findConflict conflicts path with
    | Some conflict =>
        match resolution conflict with
        | Skip =>
            if hasKey path (mergedTextures m) then m
            else setTexture path (fileAt path zipEntry) m
        | Rename =>
            let newPath := renamed path packName in
            setTexture newPath (fileAt newPath zipEntry) m
        | Overwrite => setTexture path (fileAt path zipEntry) m
        end
    | None => setTexture path (fileAt path zipEntry) m
    end
  else if isModelPath path then
    match parseJSON (data zipEntry) with
    | Some modelData =>
        {| mergedTextures := mergedTextures m;
           mergedModels := setKey path modelData (mergedModels m) |}
    | None => m
    end
  else m.

(** The loop over the packs; [None] when a pack cannot be loaded. *)
Fixpoint mergePacksFrom (m : Merged) (packs : list MergePack)
  : option Merged :=
  match packs with
  | [] => Some m
  | pack :: rest =>
      match pack_files pack with
      | Some files =>
          mergePacksFrom (fold_left (mergeEntry (pack_name pack)) files m)
            rest
      | None => None
      end
  end.

Definition mergeAll (packs : list MergePack) : option Merged :=
  mergePacksFrom {| mergedTextures := []; mergedModels := [] |} packs.

End Execute.

(** [analyzeMergeConflicts]: the conflicts it stores; [None] when a pack
    cannot be loaded. *)
Fixpoint analyzeFrom (textureMap : entries (list (jstring * File)))
    (packs : list MergePack) : option (entries (list (jstring * File))) :=
  match packs with
  | [] => Some textureMap
  | pack :: rest =>
      match pack_files pack with
      | Some files =>
          analyzeFrom
            (fold_left
               (fun acc e =>
                  if negb (dir (snd e)) && isTexturePath (fst e)
                  then pushTo (fst e)
                         (pack_name pack, fileAt (fst e) (snd e)) acc
                  else acc)
               files textureMap)
            rest
      | None => None
      end
  end.

Definition analyzeMergeConflicts (packs : list MergePack)
  : option (list MergeConflict) :=
  match analyzeFrom [] packs with
  | Some textureMap =>
      Some (flat_map
              (fun e =>
                 if Nat.ltb 1 (length (snd e))
                 then [{| conflict_path := fst e;
                          conflict_packs := snd e;
                          resolution := Overwrite |}]
                 else [])
              textureMap)
  | None => None
  end.

(** A pack that [JSZip.loadAsync] can load. *)
Definition loads (pack : MergePack) : bool :=
  match pack_files pack with Some _ => true | None => false end.

(** *** The scan, entry by entry *)

(** Packs that load, each with its name and its entries. *)
Definition LoadedPack : Type := jstring * entries ZipObject.

Definition loaded (packs : list LoadedPack) : list MergePack :=
  map (fun p => {| pack_name := fst p; pack_files := Some (snd p) |}) packs.

(** A scanned entry: the name of its pack, its path and the entry. *)
Definition Scanned : Type := jstring * (jstring * ZipObject).

Definition packNameOf (x : Scanned) : jstring := fst x.
Definition pathOf (x : Scanned) : jstring := fst (snd x).
Definition entryOf (x : Scanned) : ZipObject := snd (snd x).

(** The scan order: every entry with the name of its pack. *)
Definition scanned (packs : list LoadedPack) : list Scanned :=
  flat_map (fun p => map (fun e => (fst p, e)) (snd p)) packs.

(** The contributors of a path: the scanned files at that path. *)
Definition contributes (path : jstring) (x : Scanned) : bool :=
  jeqb (pathOf x) path && negb (dir (entryOf x)).

Definition contributors (path : jstring) (scan : list Scanned)
  : list Scanned :=
  filter (contributes path) scan.

Definition lastOf (A : Type) (l : list A) : option A := hd_error (rev l).

(** Where a texture at [path] from the pack [packName] is written. *)
Definition writeTarget (conflicts : list MergeConflict)
    (packName path : jstring) : jstring :=
  match findConflict conflicts path with
  | Some c =>
      match resolution c with
      | Rename => renamed path packName
      | _ => path
      end
  | None => path
  end.

(** A scanned entry that may be written at [target]. *)
Definition writesTo (conflicts : list MergeConflict) (target : jstring)
    (x : Scanned) : bool :=
  negb (dir (entryOf x)) && isTexturePath (pathOf x)
  && jeqb (writeTarget conflicts (packNameOf x) (pathOf x)) target.

(** No entry of another path is written where a contributor of [path]
    is. *)
Definition undisturbed (conflicts : list MergeConflict) (path : jstring)
    (scan : list Scanned) : bool :=
  let targets :=
    map (fun x => writeTarget conflicts (packNameOf x) path)
        (contributors path scan) in
  forallb
    (fun x =>
       jeqb (pathOf x) path
       || forallb (fun t => negb (writesTo conflicts t x)) targets)
    scan.

(** The entries of [l] of another path than [path] are written at none of
    [targets]. *)
Definition keptAway (conflicts : list MergeConflict) (path : jstring)
    (targets : list jstring) (l : list Scanned) : Prop :=
  forall x, In x l ->
    jeqb (pathOf x) path
    || forallb (fun t => negb (writesTo conflicts t x)) targets = true.

(** One turn of the scan, and the maps it starts from. *)
Definition step (parseJSON : list N -> option json)
    (conflicts : list MergeConflict) (m : Merged) (x : Scanned) : Merged :=
  mergeEntry parseJSON conflicts (packNameOf x) m (snd x).

Definition start : Merged := {| mergedTextures := []; mergedModels := [] |}.

(** Packs with distinct names, free of '$', whose entries have distinct
    paths. *)
Definition plainlyNamed (packs : list LoadedPack) : bool :=
  uniqueKeys packs
  && forallb (fun p => negb (has DOLLAR (fst p)) && uniqueKeys (snd p)) packs.

End Merge.

(* ================================================================== *)
(** ** The component's state and the operations on it *)

Module App.

Import Validation Exporter Merge.

Inductive Edition := Java | Bedrock.

(** A progress value: a number, or [base + (i / n) * span]. *)
Inductive Percent :=
| Exactly (p : Z)
| Within (base : Z) (i n : nat) (span : Z).

Inductive Alert :=
| ValidationFailed (errors : list ValidationError)
| PackGenerated
| MergeDone (packs textures : nat)
| MergeFailed.

Record AppState := {
  resourcePack : ResourcePack;
  packEdition : Edition;
  isProcessing : bool;
  processingStep : jstring;
  progress : Percent;
  mergePacks : list MergePack;
  mergeConflicts : list MergeConflict;
  alerts : list Alert;
  downloads : list (jstring * entries ZipData)
}.

(** What an operation does to the state and the page, call by call. *)
Inductive Effect :=
| SetIsProcessing (b : bool)
| UpdateProgress (step : jstring) (percent : Percent)
| SetProgress (percent : Percent)
| SetResourcePack (update : ResourcePack -> ResourcePack)
| SetMergePacks (packs : list MergePack)
| SetMergeConflicts (conflicts : list MergeConflict)
| ShowAlert (a : Alert)
| Download (fileName : jstring) (zip : entries ZipData).

Definition apply (st : AppState) (e : Effect) : AppState :=
  let mk rp ip ps pr mp mc al dl :=
    {| resourcePack := rp; packEdition := packEdition st;
       isProcessing := ip; processingStep := ps; progress := pr;
       mergePacks := mp; mergeConflicts := mc; alerts := al;
       downloads := dl |} in
  let rp := resourcePack st in
  let ip := isProcessing st in
  let ps := processingStep st in
  let pr := progress st in
  let mp := mergePacks st in
  let mc := mergeConflicts st in
  let al := alerts st in
  let dl := downloads st in
  match e with
  | SetIsProcessing b => mk rp b ps pr mp mc al dl
  | UpdateProgress step percent => mk rp ip step percent mp mc al dl
  | SetProgress percent => mk rp ip ps percent mp mc al dl
  | SetResourcePack update => mk (update rp) ip ps pr mp mc al dl
  | SetMergePacks packs => mk rp ip ps pr packs mc al dl
  | SetMergeConflicts conflicts => mk rp ip ps pr mp conflicts al dl
  | ShowAlert a => mk rp ip ps pr mp mc (al ++ [a]) dl
  | Download f zip => mk rp ip ps pr mp mc al (dl ++ [(f, zip)])
  end.

Definition run (effects : list Effect) (st : AppState) : AppState :=
  fold_left apply effects st.

(** The states the component goes through, the first one included. *)
Fixpoint trace (effects : list Effect) (st : AppState) : list AppState :=
  st :: match effects with
        | [] => []
        | e :: rest => trace rest (apply st e)
        end.

Section Operations.
Variable javaReadme : ResourcePack -> list ModelData -> jstring.
Variable bedrockReadme : ResourcePack -> list ModelData -> jstring.
Variable uuidv4 : nat -> jstring.
Variable geometryDoc : BedrockGeometry -> json.
Variable parseJSON : list N -> option json.
(** [getImageDimensions(file)]: the size its promise resolves with once
    the browser has loaded [file] as an image.  The promise is settled in
    [img.onload] alone, no [onerror] is set: for a file the browser cannot
    load as an image, [None], it stays pending, and what awaits it is
    never resumed. *)
Variable getImageDimensions : File -> option (Z * Z).

(** [`Processing model ${i + 1}/${n}: ${model.name}`], once per model *)
Definition modelSteps (base span : Z) (ms : list ModelData) : list Effect :=
  map (fun im =>
         UpdateProgress
           (str "Processing model " ++ decimal (S (fst im)) ++ [SLASH]
              ++ decimal (length ms) ++ str ": " ++ model_name (snd im))
           (Within base (fst im) (length ms) span))
      (combine (seq 0 (length ms)) ms).

Definition stepIf (c : bool) (step : string) (p : Z) : list Effect :=
  if c then [UpdateProgress (str step) (Exactly p)] else [].

Definition nonEmpty (A : Type) (l : list A) : bool :=
  match l with [] => false | _ => true end.

(** [generateZip], read in the state [st].  It builds the archive from
    new objects and arrays (the sort is on a copy, [[...models]]) and
    assigns no property of the pack or of what the pack holds; the only
    setters it calls are the ones of its list.  When
    [validateResourcePack] throws, nothing catches the exception: the
    promise of [generateZip] is rejected and no further setter is
    called. *)
Definition generateZip (st : AppState) : list Effect :=
  let pack := resourcePack st in
  [SetIsProcessing true; UpdateProgress (str "Initializing...") (Exactly 5)]
  ++ match validateResourcePack pack with
     | None => []
     | Some validation =>
          if negb (isValid validation) then
            [ShowAlert (ValidationFailed (errors validation));
             SetIsProcessing false]
          else
            match packEdition st with
            | Bedrock =>
                [UpdateProgress (str "Creating Bedrock manifest...") (Exactly 15);
                 UpdateProgress (str "Creating Bedrock models and attachables...")
                   (Exactly 40)]
                ++ modelSteps 40 30 (validModels pack)
                ++ [UpdateProgress (str "Adding Bedrock textures...") (Exactly 75);
                    UpdateProgress (str "Generating Geyser mapping...")
                      (Exactly 85)]
            | Java =>
                [UpdateProgress (str "Creating item definitions...") (Exactly 40);
                 UpdateProgress (str "Creating model files...") (Exactly 60)]
                ++ modelSteps 60 15 (validModels pack)
                ++ [UpdateProgress (str "Adding textures...") (Exactly 80)]
                ++ stepIf (nonEmpty (fonts pack)) "Adding custom fonts..." 85
                ++ stepIf (nonEmpty (pack_sounds pack)) "Adding sounds..." 90
                ++ stepIf (nonEmpty (languages pack)) "Adding languages..." 92
                ++ stepIf (nonEmpty (particles pack)) "Adding particles..." 93
                ++ stepIf (nonEmpty (shaders pack)) "Adding shaders..." 94
                ++ [UpdateProgress (str "Generating Geyser mapping...")
                      (Exactly 85)]
            end
            ++ [UpdateProgress (str "Generating ZIP file...") (Exactly 97);
                UpdateProgress (str "Complete!") (Exactly 100);
                Download
                  (orElse (name pack) (str "resource-pack")
                     ++ match packEdition st with
                        | Bedrock => str "-bedrock"
                        | Java => []
                        end
                     ++ str ".zip")
                  (archive
                     match packEdition st with
                     | Bedrock => bedrockWrites bedrockReadme uuidv4 geometryDoc pack
                     | Java => javaWrites javaReadme pack
                     end);
                SetIsProcessing false;
                SetProgress (Exactly 0);
                ShowAlert PackGenerated]
     end.

(** [addTexture(file)], the [n]-th identifier being drawn: the texture it
    builds from the size it has awaited, and the update it hands to
    [setResourcePack]; [None] when the size never comes. *)
Definition newTexture (n : nat) (file : File) (dims : Z * Z) : TextureData :=
  let fileName := removeExtension (fileName file) in
  {| tex_id := str "texture_" ++ uuidv4 n;
     tex_name := fileName;
     tex_file := file;
     tex_path := str "textures/item/" ++ fileName ++ str ".png";
     tex_size := fileSize file;
     dimensions := dims;
     isOptimized := false;
     tex_width := Some (fst dims);
     tex_height := Some (snd dims);
     tex_enabled := Some true;
     animation := Some {| anim_enabled := false; frametime := Some 1%Z;
                          interpolate := Some false; frames := Some [] |} |}.

Definition addTexture (n : nat) (file : File) : option Effect :=
  match getImageDimensions file with
  | Some dimensions =>
      Some (SetResourcePack
              (fun prev =>
                 withTextures
                   (textures prev ++ [newTexture n file dimensions]) prev))
  | None => None
  end.

(** The packs the loop reaches: all of them, or those up to the first one
    that cannot be loaded. *)
Fixpoint attempted (packs : list MergePack) : list MergePack :=
  match packs with
  | [] => []
  | pack :: rest =>
      match pack_files pack with
      | Some _ => pack :: attempted rest
      | None => [pack]
      end
  end.

Definition mergeSteps (total : nat) (packs : list MergePack) : list Effect :=
  map (fun ip =>
         UpdateProgress (str "Merging " ++ pack_name (snd ip) ++ str "...")
           (Within 10 (fst ip) total 80))
      (combine (seq 0 (length packs)) packs).

(** [for (const [path, file] of mergedTextures.entries())
      await addTexture(file)], [n] identifiers having been drawn: the
    updates made, and whether the loop came to its end.  It waits for each
    call in turn, so it stops at the first one that never returns. *)
Fixpoint addTextures (n : nat) (merged : entries File)
  : list Effect * bool :=
  match merged with
  | [] => ([], true)
  | (_, file) :: rest =>
      match addTexture n file with
      | Some update =>
          let (later, finished) := addTextures (S n) rest in
          (update :: later, finished)
      | None => ([], false)
      end
  end.

(** The files of [files] that load as images, each with its size, up to
    the first one that does not. *)
Fixpoint loadedImages (files : list File) : list (File * (Z * Z)) :=
  match files with
  | [] => []
  | file :: rest =>
      match getImageDimensions file with
      | Some dimensions => (file, dimensions) :: loadedImages rest
      | None => []
      end
  end.

Definition isImage (file : File) : bool :=
  match getImageDimensions file with
  | Some _ => true
  | None => false
  end.

(** [executeMerge], read in the state [st].  The [try] block catches what
    is thrown; a call of [addTexture] that never returns throws nothing,
    and the statements after the loop are not reached. *)
Definition executeMerge (st : AppState) : list Effect :=
  let packs := mergePacks st in
  [SetIsProcessing true; UpdateProgress (str "Merging packs...") (Exactly 10)]
  ++ mergeSteps (length packs) (attempted packs)
  ++ match mergeAll parseJSON (mergeConflicts st) packs with
     | Some merged =>
         let (added, finished) := addTextures 0 (mergedTextures merged) in
         added
         ++ if finished then
              [UpdateProgress (str "Merge complete!") (Exactly 100);
               SetIsProcessing false;
               SetProgress (Exactly 0);
               SetMergePacks [];
               SetMergeConflicts [];
               ShowAlert (MergeDone (length packs)
                            (length (mergedTextures merged)))]
            else []
     | None =>
         [SetIsProcessing false; SetProgress (Exactly 0);
          ShowAlert MergeFailed]
     end.

(** The effects that leave the pack alone. *)
Definition leavesPack (e : Effect) : bool :=
  match e with
  | SetResourcePack _ => false
  | _ => true
  end.

End Operations.

(** *** Editing the models ([addModel], [deleteModel],
    [updateModelTexture], [removeModelTexture]) *)

(** [{ ...pack, models: ms }] *)
Definition withModels (ms : list ModelData) (p : ResourcePack)
  : ResourcePack :=
  {| name := name p; description := description p; version := version p;
     format := format p; models := ms; textures := textures p;
     fonts := fonts p; languages := languages p;
     pack_sounds := pack_sounds p; particles := particles p;
     shaders := shaders p; packIcon := packIcon p; author := author p;
     website := website p; license := license p |}.

(** [{ ...model, textures: layers }] *)
Definition withLayers (layers : entries jstring) (model : ModelData)
  : ModelData :=
  {| model_id := model_id model;
     model_name := model_name model;
     customModelData := customModelData model;
     model_parent := model_parent model;
     model_textures := layers;
     targetItem := targetItem model;
     model_elements := model_elements model;
     model_display := model_display model;
     customModelDataFloats := customModelDataFloats model;
     customModelDataFlags := customModelDataFlags model;
     customModelDataStrings := customModelDataStrings model;
     customModelDataColors := customModelDataColors model;
     bedrockGeometry := bedrockGeometry model |}.

(** [delete m[k]] *)
Definition deleteKey (V : Type) (k : jstring) (m : entries V) : entries V :=
  filter (fun kv => negb (jeqb (fst kv) k)) m.

(** The [while] loop of [addModel], started at [n]: it goes up by one as
    long as [existing] includes the number.  [None]: the loop is still
    running after [turns] turns. *)
Fixpoint firstFree (turns : nat) (existing : list Z) (n : Z) : option Z :=
  match turns with
  | O => None
  | S turns' =>
      if existsb (fun v => Z.eqb v n) existing
      then firstFree turns' existing (n + 1)
      else Some n
  end.

(** The model [addModel] builds, [count] models being there. *)
Definition newModel (uuid : jstring) (count : nat) (newCustomModelData : Z)
  : ModelData :=
  {| model_id := str "model_" ++ uuid;
     model_name := str "New Model " ++ decimal (count + 1);
     customModelData := newCustomModelData;
     model_parent := str "item/generated";
     model_textures := [];
     targetItem := str "stick";
     model_elements := None;
     model_display := None;
     customModelDataFloats := [];
     customModelDataFlags := [];
     customModelDataStrings := [];
     customModelDataColors := [];
     bedrockGeometry := None |}.

(** [addModel], read in the state [st], [uuid] being drawn. *)
Definition addModel (turns : nat) (uuid : jstring) (st : AppState)
  : option (list Effect) :=
  let ms := models (resourcePack st) in
  match firstFree turns (map customModelData ms) 1 with
  | Some n =>
      Some [SetResourcePack
              (fun prev =>
                 withModels (models prev ++ [newModel uuid (length ms) n])
                   prev)]
  | None => None
  end.

Definition deleteModel (modelId : jstring) : list Effect :=
  [SetResourcePack
     (fun prev =>
        withModels
          (filter (fun model => negb (jeqb (model_id model) modelId))
             (models prev))
          prev)].

Definition updateModelTexture (modelId layer textureName : jstring)
  : list Effect :=
  [SetResourcePack
     (fun prev =>
        withModels
          (map (fun model =>
                  if jeqb (model_id model) modelId
                  then withLayers
                         (setKey layer textureName (model_textures model))
                         model
                  else model)
             (models prev))
          prev)].

Definition removeModelTexture (modelId layer : jstring) : list Effect :=
  [SetResourcePack
     (fun prev =>
        withModels
          (map (fun model =>
                  if jeqb (model_id model) modelId
                  then withLayers (deleteKey layer (model_textures model))
                         model
                  else model)
             (models prev))
          prev)].

End App.

(* ================================================================== *)
(** ** Platform B import ([bedrock-import.ts]) *)

Module BedrockImport.

Import Exporter Merge App.

(** [s.replace(p, "")] for a string [p]: the first occurrence goes. *)
Fixpoint removeFirst (p s : jstring) : jstring :=
  if startsWith p s then skipn (length p) s
  else match s with
       | [] => []
       | c :: s' => c :: removeFirst p s'
       end.

(** [Object.entries(j)] of a parsed value. *)
Definition entriesOf (j : json) : list (jstring * json) :=
  match j with
  | JObj fields => fields
  | JArr items => combine (map decimal (seq 0 (length items))) items
  | JStr s =>
      combine (map decimal (seq 0 (length s))) (map (fun c => JStr [c]) s)
  | _ => []
  end.

(** [zip.file(name)]: the entry at [name] when it is a file. *)
Definition fileNamed (name : jstring) (zip : entries ZipObject)
  : option ZipObject :=
  match getKey name zip with
  | Some e => if dir e then None else Some e
  | None => None
  end.

(** The files [JSZip.loadAsync] finds in a downloaded archive,
    [stringify] being [JSON.stringify(doc, null, 2)].  The entries JSZip
    adds for the folders of the paths are left out: the readers look
    files up by name, filter the names on an extension or pass over
    folders, and the name of a folder ends with a slash. *)
Definition stored (stringify : json -> list N) (d : ZipData) : ZipObject :=
  {| dir := false;
     data := match d with
             | ZJson doc => stringify doc
             | ZText text => text
             | ZBlob f => fileData f
             end |}.

Definition reloaded (stringify : json -> list N) (archive : entries ZipData)
  : entries ZipObject :=
  map (fun w => (fst w, stored stringify (snd w))) archive.

(** [detectPackEdition] *)
Definition detectPackEdition (zip : entries ZipObject) : Edition :=
  match fileNamed (str "manifest.json") zip with
  | Some _ => Bedrock
  | None =>
      match fileNamed (str "pack.mcmeta") zip with
      | Some _ => Java
      | None => Java
      end
  end.

(** What reading a document comes to: a value; a [TypeError] or a
    [SyntaxError]; or a value the data model has no place for, such as a
    category that is a number. *)
Inductive Outcome (A : Type) :=
| Ok (a : A)
| Throws
| IllTyped.

Arguments Throws {A}.
Arguments IllTyped {A}.

(** Two evaluations in a row: an exception of either one is the result,
    whatever the other one gives. *)
Definition both (A B C : Type) (f : A -> B -> C)
    (x : Outcome A) (y : Outcome B) : Outcome C :=
  match x, y with
  | Ok a, Ok b => Ok (f a b)
  | Throws, _ => Throws
  | _, Throws => Throws
  | _, _ => IllTyped
  end.

Definition allOf (A : Type) (l : list (Outcome A)) : Outcome (list A) :=
  fold_right (both (@cons A)) (Ok []) l.

(** [typeof s === 'string' ? s : s.name?.replace('sounds/', '') || ''] *)
Definition soundFileName (s : json) : Outcome jstring :=
  match s with
  | JStr file => Ok file
  | JNull => Throws
  | JObj _ =>
      match prop "name" s with
      | None | Some JNull => Ok []
      | Some (JStr file) => Ok (removeFirst (str "sounds/") file)
      | Some _ => Throws
      end
  | _ => Ok []
  end.

(** [soundConfig.category || "master"] *)
Definition categoryOf (soundConfig : json) : Outcome jstring :=
  match soundConfig with
  | JNull => Throws
  | _ =>
      match prop "category" soundConfig with
      | Some (JStr c) => Ok (orElse c (str "master"))
      | Some j => if truthyJson j then IllTyped else Ok (str "master")
      | None => Ok (str "master")
      end
  end.

Definition soundsOf (soundConfig : json) : Outcome (list jstring) :=
  match prop "sounds" soundConfig with
  | Some (JArr items) => allOf (map soundFileName items)
  | _ => Ok []
  end.

(** [soundConfig.__subtitle] *)
Definition subtitleOf (soundConfig : json) : Outcome (option jstring) :=
  match prop "__subtitle" soundConfig with
  | None => Ok None
  | Some (JStr s) => Ok (Some s)
  | Some _ => IllTyped
  end.

(** One turn of the loop of [convertBedrockSoundsToInternal]. *)
Definition newSound (uuid soundName : jstring) (soundConfig : json)
  : Outcome CustomSound :=
  both (fun c rest =>
          {| sound_id := str "sound_" ++ uuid;
             sound_name := soundName;
             category := c;
             sounds := fst rest;
             subtitle := snd rest;
             sound_replace := None;
             sound_file := None |})
       (categoryOf soundConfig)
       (both (@pair _ _) (soundsOf soundConfig) (subtitleOf soundConfig)).

(** [convertBedrockSoundsToInternal], [uuidv4 i] being the identifier
    drawn in turn [i]. *)
Definition convertBedrockSoundsToInternal (uuidv4 : nat -> jstring)
    (soundDefinitions : json) : Outcome (list CustomSound) :=
  let definitions :=
    if truthyJson soundDefinitions
    then prop "sound_definitions" soundDefinitions
    else None in
  match definitions with
  | Some defs =>
      if truthyJson defs then
        allOf (map (fun ie => newSound (uuidv4 (fst ie))
                                (fst (snd ie)) (snd (snd ie)))
                 (combine (seq 0 (length (entriesOf defs))) (entriesOf defs)))
      else Ok []
  | None => Ok []
  end.

(** [s.replace(/\.(png|jpg|jpeg)$/, "")] *)
Definition stripImageExtension (s : jstring) : jstring :=
  let without (ext : jstring) := firstn (length s - length ext) s in
  if endsWith (str ".png") s then without (str ".png")
  else if endsWith (str ".jpg") s then without (str ".jpg")
  else if endsWith (str ".jpeg") s then without (str ".jpeg")
  else s.

(** An element of an array as [join] prints it. *)
Fixpoint itemText (j : json) : jstring :=
  match j with
  | JNull => []
  | JBool true => str "true"
  | JBool false => str "false"
  | JNum n => decimalZ n
  | JStr s => s
  | JArr items => join (str ",") (map itemText items)
  | JObj _ => str "[object Object]"
  end.

(** [j || d] where a string is expected. *)
Definition stringOr (j : option json) (d : jstring) : Outcome jstring :=
  match j with
  | Some (JStr s) => Ok (orElse s d)
  | Some v => if truthyJson v then IllTyped else Ok d
  | None => Ok d
  end.

Section Reading.
(** [JSON.parse] on the text of an entry; [None] when it throws. *)
Variable parseJSON : list N -> option json.
(** The parameter [getImageDimensions]: the size its promise resolves
    with. *)
Variable getImageDimensions : File -> Z * Z.
(** [String.prototype.toLowerCase] *)
Variable lowerCase : jstring -> jstring.
(** The identifiers drawn.  Textures and geometries are read
    concurrently, so theirs are named by the path they are drawn for. *)
Variable textureUuid modelUuid particleUuid : jstring -> jstring.
Variable soundUuid : nat -> jstring.

Definition parsed (e : ZipObject) : Outcome json :=
  match parseJSON (data e) with
  | Some j => Ok j
  | None => Throws
  end.

(** The paths of the files among [Object.keys(zip.files).filter(test)]. *)
Definition filesWhere (test : jstring -> bool) (zip : entries ZipObject)
  : list (jstring * ZipObject) :=
  flat_map (fun path =>
              match fileNamed path zip with
              | Some e => [(path, e)]
              | None => []
              end)
           (filter test (keys zip)).

(** Name, description and version, from [manifest.json]. *)
Definition header (zip : entries ZipObject) (fileName : jstring)
  : Outcome (jstring * (jstring * jstring)) :=
  let name0 := removeFirst (str ".zip") fileName in
  match fileNamed (str "manifest.json") zip with
  | None => Ok (name0, ([], str "1.21.0"))
  | Some manifestFile =>
      match parsed manifestFile with
      | Ok JNull => Throws
      | Ok manifest =>
          let head :=
            match prop "header" manifest with
            | Some (JObj fields) => JObj fields
            | _ => JObj []
            end in
          both (@pair _ _) (stringOr (prop "name" head) name0)
            (both (@pair _ _) (stringOr (prop "description" head) [])
               (Ok match prop "version" head with
                   | Some (JArr items) => join (str ".") (map itemText items)
                   | _ => str "1.21.0"
                   end))
      | Throws => Throws
      | IllTyped => IllTyped
      end
  end.

Definition isImage (path : jstring) : bool :=
  endsWith (str ".png") path || endsWith (str ".jpg") path
  || endsWith (str ".jpeg") path.

Definition importedTexture (pe : jstring * ZipObject) : TextureData :=
  let (texturePath, textureFile) := pe in
  let textureName := lastSegment SLASH texturePath in
  let textureFileObj :=
    {| fileName := textureName; fileData := data textureFile |} in
  {| tex_id := str "texture_" ++ textureUuid texturePath;
     tex_name := stripImageExtension textureName;
     tex_file := textureFileObj;
     tex_path := stripImageExtension texturePath;
     tex_size := fileSize textureFileObj;
     dimensions := getImageDimensions textureFileObj;
     isOptimized := false;
     tex_width := None;
     tex_height := None;
     tex_enabled := None;
     animation := Some {| anim_enabled := false; frametime := Some 1%Z;
                          interpolate := Some false; frames := Some [] |} |}.

Definition importedModel (pe : jstring * ZipObject) : Outcome ModelData :=
  let (modelPath, modelFile) := pe in
  match parsed modelFile with
  | Ok modelData =>
      Ok {| model_id := str "model_" ++ modelUuid modelPath;
            model_name :=
              removeFirst (str ".geo.json") (lastSegment SLASH modelPath);
            customModelData := 1;
            model_parent := str "item/generated";
            model_textures := [];
            targetItem := str "stick";
            model_elements := None;
            model_display := None;
            customModelDataFloats := [];
            customModelDataFlags := [];
            customModelDataStrings := [];
            customModelDataColors := [];
            bedrockGeometry := Some (Imported modelData) |}
  | Throws => Throws
  | IllTyped => IllTyped
  end.

Definition importedSounds (zip : entries ZipObject)
  : Outcome (list CustomSound) :=
  match fileNamed (str "sounds/sound_definitions.json") zip with
  | Some soundDefsFile =>
      match parsed soundDefsFile with
      | Ok soundDefs => convertBedrockSoundsToInternal soundUuid soundDefs
      | Throws => Throws
      | IllTyped => IllTyped
      end
  | None => Ok []
  end.

Definition importedLanguage (pe : jstring * ZipObject) : LanguageFile :=
  let (langPath, langFile) := pe in
  let langCode := removeFirst (str ".lang") (lastSegment SLASH langPath) in
  {| lang_code := lowerCase langCode;
     lang_name := langCode;
     lang_content := Lang.convertBedrockLangToInternal (data langFile) |}.

Definition importedParticle (pe : jstring * ZipObject)
  : Outcome CustomParticle :=
  let (particlePath, particleFile) := pe in
  match parsed particleFile with
  | Ok _ =>
      Ok {| particle_id := str "particle_" ++ particleUuid particlePath;
            particle_name :=
              removeFirst (str ".json") (lastSegment SLASH particlePath);
            particle_textures := [];
            particle_file := None |}
  | Throws => Throws
  | IllTyped => IllTyped
  end.

Definition geometryFiles (zip : entries ZipObject)
  : list (jstring * ZipObject) :=
  filesWhere (fun path => startsWith (str "models/") path
                          && endsWith (str ".geo.json") path) zip.

(** [importBedrockPack] *)
Definition importBedrockPack (zip : entries ZipObject) (fileName : jstring)
  : Outcome ResourcePack :=
  let icon :=
    option_map (fun e => {| fileName := str "pack_icon.png";
                            fileData := data e |})
      (fileNamed (str "pack_icon.png") zip) in
  let importedTextures :=
    map importedTexture
      (filesWhere (fun path => startsWith (str "textures/") path
                               && isImage path) zip) in
  let importedLanguages :=
    map importedLanguage
      (filesWhere (fun path => startsWith (str "texts/") path
                               && endsWith (str ".lang") path) zip) in
  both (fun h rest =>
          {| name := fst h;
             description := fst (snd h);
             version := snd (snd h);
             format := 63;
             models := fst rest;
             textures := importedTextures;
             fonts := [];
             languages := importedLanguages;
             pack_sounds := fst (snd rest);
             particles := snd (snd rest);
             shaders := [];
             packIcon := icon;
             author := [];
             website := [];
             license := str "All Rights Reserved" |})
       (header zip fileName)
       (both (@pair _ _) (allOf (map importedModel (geometryFiles zip)))
          (both (@pair _ _) (importedSounds zip)
             (allOf
                (map importedParticle
                   (filesWhere
                      (fun path => startsWith (str "particles/") path
                                   && endsWith (str ".json") path) zip))))).

End Reading.

End BedrockImport.

(* ================================================================== *)
(** ** The models of a Platform A import ([importExistingPack]) *)

Module JavaImport.

Import Exporter Merge BedrockImport Importer.

Definition MINECRAFT_ITEMS : list jstring :=
  map str
    [ "stick"%string;
      "diamond_sword"%string;
      "iron_sword"%string;
      "golden_sword"%string;
      "stone_sword"%string;
      "wooden_sword"%string;
      "netherite_sword"%string;
      "diamond_pickaxe"%string;
      "iron_pickaxe"%string;
      "golden_pickaxe"%string;
      "stone_pickaxe"%string;
      "wooden_pickaxe"%string;
      "netherite_pickaxe"%string;
      "diamond_axe"%string;
      "iron_axe"%string;
      "golden_axe"%string;
      "stone_axe"%string;
      "wooden_axe"%string;
      "netherite_axe"%string;
      "diamond_shovel"%string;
      "iron_shovel"%string;
      "golden_shovel"%string;
      "stone_shovel"%string;
      "wooden_shovel"%string;
      "netherite_shovel"%string;
      "diamond_hoe"%string;
      "iron_hoe"%string;
      "golden_hoe"%string;
      "stone_hoe"%string;
      "wooden_hoe"%string;
      "netherite_hoe"%string;
      "bow"%string;
      "crossbow"%string;
      "trident"%string;
      "shield"%string;
      "fishing_rod"%string;
      "apple"%string;
      "bread"%string;
      "cooked_beef"%string;
      "cooked_porkchop"%string;
      "cooked_chicken"%string;
      "diamond"%string;
      "emerald"%string;
      "gold_ingot"%string;
      "iron_ingot"%string;
      "coal"%string;
      "stone"%string;
      "cobblestone"%string;
      "dirt"%string;
      "grass_block"%string;
      "oak_log"%string;
      "enchanted_book"%string;
      "book"%string;
      "paper"%string;
      "map"%string;
      "compass"%string;
      "clock"%string;
      "carrot_on_a_stick"%string;
      "warped_fungus_on_a_stick"%string;
      "flint_and_steel"%string;
      "shears"%string;
      "spyglass"%string;
      "brush"%string;
      "goat_horn"%string ].

Definition isItemFile (path : jstring) : bool :=
  startsWith (str "assets/minecraft/items/") path
  && endsWith (str ".json") path.

Definition has1214Structure (zip : entries ZipObject) : bool :=
  existsb isItemFile (keys zip).

(** The object built for a case of a select document.  A field whose
    value is [undefined] is left out: it reads the same. *)
Definition caseOverride (model : option jstring) (when : option json) : json :=
  JObj (match model with
        | Some m => [(str "model", JStr m)]
        | None => []
        end
        ++ [(str "predicate",
             JObj match when with
                  | Some w => [(str "custom_model_data", w)]
                  | None => []
                  end)]).

(** The callback of [cases.map]. *)
Definition selectCase (caseItem : json) : Outcome json :=
  match caseItem with
  | JNull => Throws
  | _ =>
      let model :=
        match prop "model" caseItem with
        | Some v => prop "model" v
        | None => None
        end in
      match model with
      | None | Some JNull => Ok (caseOverride None (prop "when" caseItem))
      | Some (JStr s) =>
          Ok (caseOverride (Some (removeFirst (str "minecraft:") s))
                (prop "when" caseItem))
      | Some _ => Throws
      end
  end.

(** What a document under [items/] adds to the table: [None] when it is
    no select document, or when reading it throws, which is caught. *)
Definition selectOverrides (itemData : json) : option (list json) :=
  match itemData with
  | JNull => None
  | _ =>
      match prop "model" itemData with
      | Some model =>
          match prop "type" model with
          | Some (JStr t) =>
              if jeqb t (str "minecraft:select") then
                match prop "cases" model with
                | Some (JArr cases) =>
                    match allOf (map selectCase cases) with
                    | Ok overrides => Some overrides
                    | _ => None
                    end
                | _ => None
                end
              else None
          | _ => None
          end
      | None => None
      end
  end.

(** What the document of a base item adds in the legacy scan. *)
Definition legacyOverrides (itemData : json) : option (list json) :=
  match itemData with
  | JNull => None
  | _ =>
      match prop "overrides" itemData with
      | Some (JArr (o :: os)) => Some (o :: os)
      | _ => None
      end
  end.

(** [`assets/minecraft/models/item/${name}.json`] *)
Definition modelPathOf (name : jstring) : jstring :=
  str "assets/minecraft/models/item/" ++ name ++ str ".json".

(** What the loop over the overrides keeps of one override: the predicate
    and the model reference, or nothing when it passes the override
    over.  An exception here is not caught by the loop. *)
Definition candidate (override : json) : Outcome (option (json * jstring)) :=
  match override with
  | JNull => Throws
  | _ =>
      let cmd :=
        match prop "predicate" override with
        | Some predicate => prop "custom_model_data" predicate
        | None => None
        end in
      match cmd with
      | Some c =>
          if truthyJson c then
            match prop "model" override with
            | None | Some JNull => Ok None
            | Some (JStr s) =>
                let modelRefFull :=
                  removeFirst (str "item/")
                    (removeFirst (str "minecraft:") s) in
                if truthy modelRefFull then Ok (Some (c, modelRefFull))
                else Ok None
            | Some _ => Throws
            end
          else Ok None
      | None => Ok None
      end
  end.

(** A model document queued for reading. *)
Record Task := {
  task_item : jstring;
  task_cmd : json;
  task_ref : jstring;
  task_file : ZipObject
}.

Section Models.
(** [JSON.parse] on the text of an entry; [None] when it throws. *)
Variable parseJSON : list N -> option json.
(** [JSON.stringify] of a predicate, for the hash. *)
Variable stringify : json -> jstring.
(** The identifier drawn for the model document at a path. *)
Variable modelUuid : jstring -> jstring.

(** [file[name]] read as a condition: whether a file holds at [name], as
    a property of its own or of what a [File] inherits, a value that
    counts as true. *)
Variable fileHolds : File -> jstring -> bool.

(** [textureMap[key] = file].  A file stored under "__proto__" adds no
    entry: it becomes the prototype of the map. *)
Definition storeTexture (textureMap : TextureMap) (key : jstring)
    (file : File) : TextureMap :=
  if jeqb key PROTO then
    {| ownTextures := ownTextures textureMap;
       throughPrototype := fileHolds file |}
  else
    {| ownTextures := assign key file (ownTextures textureMap);
       throughPrototype := throughPrototype textureMap |}.

(** [textureMap], keyed by the path under [textures/] without its
    extension. *)
Definition textureMapOf (zip : entries ZipObject) : TextureMap :=
  fold_left
    (fun textureMap pe =>
       storeTexture textureMap
         (stripImageExtension
            (removeFirst (str "assets/minecraft/textures/") (fst pe)))
         {| fileName := lastSegment SLASH (fst pe);
            fileData := data (snd pe) |})
    (filesWhere (fun path => startsWith (str "assets/minecraft/textures/") path
                             && isImage path) zip)
    (ordinary []).

(** [baseItemOverrides], an object literal that is only enumerated. *)
Definition baseItemOverrides (zip : entries ZipObject) : entries (list json) :=
  if has1214Structure zip then
    fold_left
      (fun table pe =>
         match parseJSON (data (snd pe)) with
         | Some itemData =>
             match selectOverrides itemData with
             | Some overrides =>
                 assign (removeFirst (str ".json") (lastSegment SLASH (fst pe)))
                   overrides table
             | None => table
             end
         | None => table
         end)
      (filesWhere isItemFile zip) []
  else
    fold_left
      (fun table itemName =>
         match fileNamed (modelPathOf itemName) zip with
         | Some itemFile =>
             match parseJSON (data itemFile) with
             | Some itemData =>
                 match legacyOverrides itemData with
                 | Some overrides => assign itemName overrides table
                 | None => table
                 end
             | None => table
             end
         | None => table
         end)
      MINECRAFT_ITEMS [].

(** One turn of the inner loop: the references seen so far and the tasks
    queued so far. *)
Definition visit (zip : entries ZipObject)
    (state : Outcome (list jstring * list Task))
    (turn : jstring * json) : Outcome (list jstring * list Task) :=
  match state with
  | Ok (processedModels, tasks) =>
      match candidate (snd turn) with
      | Ok (Some (cmd, modelRefFull)) =>
          if existsb (jeqb modelRefFull) processedModels
          then Ok (processedModels, tasks)
          else
            Ok (processedModels ++ [modelRefFull],
                match fileNamed (modelPathOf modelRefFull) zip with
                | Some modelFile =>
                    tasks ++ [{| task_item := fst turn;
                                 task_cmd := cmd;
                                 task_ref := modelRefFull;
                                 task_file := modelFile |}]
                | None => tasks
                end)
      | Ok None => Ok (processedModels, tasks)
      | Throws => Throws
      | IllTyped => IllTyped
      end
  | Throws => Throws
  | IllTyped => IllTyped
  end.

(** The turns of the two loops, in order. *)
Definition turns (table : entries (list json)) : list (jstring * json) :=
  flat_map (fun g => map (fun override => (fst g, override)) (snd g)) table.

Definition queued (zip : entries ZipObject) : Outcome (list Task) :=
  match fold_left (visit zip) (turns (baseItemOverrides zip)) (Ok ([], []))
  with
  | Ok (_, tasks) => Ok tasks
  | Throws => Throws
  | IllTyped => IllTyped
  end.

(** [newModel] before the predicate is decoded. *)
Definition firstModel (textureMap : TextureMap) (t : Task)
    (modelData : json) (parent : jstring) : ModelData :=
  {| model_id := str "model_" ++ modelUuid (modelPathOf (task_ref t));
     model_name := orElse (lastSegment SLASH (task_ref t)) (task_ref t);
     customModelData := 1;
     model_parent := parent;
     model_textures :=
       match prop "textures" modelData with
       | Some (JObj fields) => resolveLayers textureMap fields
       | Some (JArr items) => resolveLayers textureMap (entriesOf (JArr items))
       | _ => []
       end;
     targetItem := task_item t;
     model_elements :=
       Some match prop "elements" modelData with
            | Some v => if truthyJson v then v else JArr []
            | None => JArr []
            end;
     model_display := None;
     customModelDataFloats := [];
     customModelDataFlags := [];
     customModelDataStrings := [];
     customModelDataColors := [];
     bedrockGeometry := None |}.

(** [{ ...m, display: d }] when [d] is set. *)
Definition withDisplay (d : option json) (m : ModelData) : ModelData :=
  {| model_id := model_id m;
     model_name := model_name m;
     customModelData := customModelData m;
     model_parent := model_parent m;
     model_textures := model_textures m;
     targetItem := targetItem m;
     model_elements := model_elements m;
     model_display := match d with Some v => Some v | None => model_display m end;
     customModelDataFloats := customModelDataFloats m;
     customModelDataFlags := customModelDataFlags m;
     customModelDataStrings := customModelDataStrings m;
     customModelDataColors := customModelDataColors m;
     bedrockGeometry := bedrockGeometry m |}.

(** The task of one model document: [Ok None] is the [null] it returns
    when an exception is caught. *)
Definition readModel (textureMap : TextureMap) (t : Task)
  : Outcome (option ModelData) :=
  match parseJSON (data (task_file t)) with
  | None | Some JNull => Ok None
  | Some modelData =>
      let parent := stringOr (prop "parent" modelData) (str "item/generated") in
      let newModel :=
        firstModel textureMap t modelData
          match parent with Ok p => p | _ => [] end in
      match decodeCustomModelData stringify newModel (task_cmd t) with
      | Some decoded =>
          match parent with
          | Ok _ =>
              Ok (Some (withDisplay
                          match prop "display" modelData with
                          | Some v => if truthyJson v then Some v else None
                          | None => None
                          end
                          decoded))
          | _ => IllTyped
          end
      | None => Ok None
      end
  end.

(** [importedPack.models] *)
Definition importedModels (zip : entries ZipObject)
  : Outcome (list ModelData) :=
  match queued zip with
  | Ok tasks =>
      match allOf (map (readModel (textureMapOf zip)) tasks) with
      | Ok results =>
          Ok (flat_map (fun r => match r with Some m => [m] | None => [] end)
                results)
      | Throws => Throws
      | IllTyped => IllTyped
      end
  | Throws => Throws
  | IllTyped => IllTyped
  end.

End Models.

End JavaImport.

(* ================================================================== *)
(** ** One archive per version ([generateMultiVersionPacks]) *)

Module MultiVersion.

Import Validation Exporter App.

Record VersionConfig := {
  config_version : jstring;
  config_format : Z;
  config_enabled : bool
}.

(** The two messages of the operation. *)
Inductive Notice :=
| NoVersionEnabled            (* "Please enable at least one version." *)
| VersionsGenerated (n : nat). (* "Generated <n> version(s) successfully!" *)

(** [{ ...pack, format: f }] *)
Definition withFormat (f : Z) (p : ResourcePack) : ResourcePack :=
  {| name := name p; description := description p; version := version p;
     format := f; models := models p; textures := textures p;
     fonts := fonts p; languages := languages p;
     pack_sounds := pack_sounds p; particles := particles p;
     shaders := shaders p; packIcon := packIcon p; author := author p;
     website := website p; license := license p |}.

Section Generate.
(** What the [i]-th call of [generateZip] draws from outside. *)
Variable javaReadmeAt : nat -> ResourcePack -> list ModelData -> jstring.
Variable bedrockReadmeAt : nat -> ResourcePack -> list ModelData -> jstring.
Variable uuidAt : nat -> nat -> jstring.
Variable geometryDoc : BedrockGeometry -> json.

(** The [i]-th call of [generateZip].  The function called is the one of
    the render in which the operation was started: it reads the pack and
    the edition of the state [st] of that render, whatever has been set
    since. *)
Definition zipCalls (i : nat) (st : AppState) : list Effect :=
  generateZip (javaReadmeAt i) (bedrockReadmeAt i) (uuidAt i) geometryDoc st.

(** Its calls before its promise resolves, and the three its timer makes
    a second later, after an export that went through. *)
Definition beforeResolve (i : nat) (st : AppState) : list Effect :=
  match validateResourcePack (resourcePack st) with
  | Some validation =>
      if isValid validation
      then firstn (length (zipCalls i st) - 3) (zipCalls i st)
      else zipCalls i st
  | None => zipCalls i st
  end.

Definition onTimer (i : nat) (st : AppState) : list Effect :=
  match validateResourcePack (resourcePack st) with
  | Some validation =>
      if isValid validation
      then skipn (length (zipCalls i st) - 3) (zipCalls i st)
      else []
  | None => []
  end.

(** The loop over the enabled versions, from the turn [i] on: its calls,
    and whether it comes to its end.  [await generateZip()] throws when
    the promise is rejected, and nothing catches that: the loop and the
    operation stop there, before the format is restored. *)
Fixpoint versionTurns (st : AppState) (n : nat)
    (turns : list (nat * VersionConfig)) : list Effect * bool :=
  match turns with
  | [] => ([], true)
  | (i, versionConfig) :: rest =>
      let entered :=
        [UpdateProgress
           (str "Generating pack for " ++ config_version versionConfig
              ++ str "...")
           (Within 0 i n 100);
         SetResourcePack (withFormat (config_format versionConfig))] in
      match validateResourcePack (resourcePack st) with
      | None => (entered ++ zipCalls i st, false)
      | Some _ =>
          let (later, finished) := versionTurns st n rest in
          (entered
           ++ beforeResolve i st
           ++ [SetResourcePack (withFormat (format (resourcePack st)))]
           ++ onTimer i st
           ++ later,
           finished)
      end
  end.

(** [generateMultiVersionPacks], read in the state [st]: the calls of the
    state setters and the message shown, if one is. *)
Definition generateMultiVersionPacks (versionConfigs : list VersionConfig)
    (st : AppState) : list Effect * option Notice :=
  let enabledVersions := filter config_enabled versionConfigs in
  match enabledVersions with
  | [] => ([], Some NoVersionEnabled)
  | _ =>
      let (turns, finished) :=
        versionTurns st (length enabledVersions)
          (combine (seq 0 (length enabledVersions)) enabledVersions) in
      if finished then
        ([SetIsProcessing true] ++ turns
         ++ [SetIsProcessing false; SetProgress (Exactly 0)],
         Some (VersionsGenerated (length enabledVersions)))
      else ([SetIsProcessing true] ++ turns, None)
  end.

End Generate.

End MultiVersion.


(* ================================================================== *)
(** ** Sample data *)

Module Samples.

Import Merge.

(** An image file. *)
Definition icon : File := {| fileName := str "ruby.png"; fileData := [137%N] |}.


(** A model as the editor holds it. *)
Definition model (modelName item : string) (cmd : Z) : ModelData :=
  {| model_id := str "model_" ++ str modelName;
     model_name := str modelName;
     customModelData := cmd;
     model_parent := str "item/generated";
     model_textures := [(str "layer0", str modelName)];
     targetItem := str item;
     model_elements := None;
     model_display := None;
     customModelDataFloats := [];
     customModelDataFlags := [];
     customModelDataStrings := [];
     customModelDataColors := [];
     bedrockGeometry := None |}.



Definition gemTable : entries jstring :=
  [ (str "item.gem.name", str "Ruby = red");
    (str "item.gem.lore", []) ].

(** A pack holding the given models and fonts. *)
Definition packOf (fmt : Z) (ms : list ModelData) (fs : list CustomFont)
  : ResourcePack :=
  {| name := str "gems"; description := str "Gem models";
     version := str "1.21.6"; format := fmt; models := ms; textures := [];
     fonts := fs; languages := []; pack_sounds := []; particles := [];
     shaders := []; packIcon := None; author := [];
     website := []; license := str "All Rights Reserved" |}.

Definition gems : list ModelData :=
  [ model "ruby" "stick" 9; model "jade" "stick" 1;
    model "onyx" "bow" 4; model "opal" "stick" 5 ].

Definition pack : ResourcePack := packOf 63 gems [].
Definition legacyPack : ResourcePack := packOf 34 gems [].

(** The dispatch document and the override list for "stick". *)
Definition stickModels : list ModelData :=
  [ model "jade" "stick" 1; model "opal" "stick" 5; model "ruby" "stick" 9 ].

(** A model whose primary identifier is zero, alone in a pack. *)
Definition baseOverride : ModelData := model "plain_stick" "stick" 0.
Definition zeroPack : ResourcePack := packOf 63 [baseOverride] [].

(** A bitmap provider whose ascent, 10, is not less than its height, 8. *)
Definition tallProvider : FontProvider :=
  {| prov_id := str "provider_0"; prov_type := Bitmap;
     prov_file := Some (str "minecraft:font/icons.png"); fileHandle := None;
     ascent := Some 10%Z; height := Some 8%Z;
     chars := Some [[57344%N]]; prov_size := None; oversample := None;
     shift := None; skip := None; advances := None |}.

Definition iconFont : CustomFont :=
  {| font_id := str "font_0"; font_name := str "icons"; font_file := None;
     providers := [tallProvider] |}.

Definition fontPack : ResourcePack := packOf 63 [model "ruby" "stick" 9] [iconFont].

(** An outliner with a group nested in a group:
    [[{ name: "body", origin: [0, 8, 0],
        children: [{ name: "arm", origin: [4, 8, 0], children: [] }] }]] *)
Definition arm : Bbmodel.OutlinerItem :=
  Bbmodel.Group (str "arm") (Some [4; 8; 0]%Z) None [].

Definition body : Bbmodel.OutlinerItem :=
  Bbmodel.Group (str "body") (Some [0; 8; 0]%Z) None [arm].

Definition nestedModel : Bbmodel.BbmodelData :=
  {| Bbmodel.resolution := None; Bbmodel.elements := [];
     Bbmodel.outliner := Some [body] |}.

(** Two packs, "a" and "b", each with one file at the same path. *)
Definition gemPath : jstring := str "assets/minecraft/textures/item/gem.png".
Definition barePath : jstring := str "assets/minecraft/textures/item/gem".

Definition fileOfA : ZipObject := {| dir := false; data := [1%N] |}.
Definition fileOfB : ZipObject := {| dir := false; data := [2%N] |}.

Definition packsAt (path : jstring) : list LoadedPack :=
  [ (str "a", [(path, fileOfA)]); (str "b", [(path, fileOfB)]) ].

(** The conflicts the analysis finds, all set to one resolution. *)
Definition conflictsAt (mode : Resolution) (path : jstring)
  : list MergeConflict :=
  match analyzeMergeConflicts (loaded (packsAt path)) with
  | Some cs =>
      map (fun c => {| conflict_path := conflict_path c;
                       conflict_packs := conflict_packs c;
                       resolution := mode |}) cs
  | None => []
  end.

Definition gemConflict : MergeConflict :=
  {| conflict_path := gemPath;
     conflict_packs :=
       [ (str "a", fileAt gemPath fileOfA); (str "b", fileAt gemPath fileOfB) ];
     resolution := Rename |}.

Definition noJSON : list N -> option json := fun _ => None.

(** A pack with an animated texture: the image and, beside it, the
    document of its animation. *)
Definition rubyPath : jstring := str "assets/minecraft/textures/item/ruby.png".
Definition rubyMeta : jstring :=
  str "assets/minecraft/textures/item/ruby.png.mcmeta".

Definition animatedPack : MergePack :=
  {| pack_name := str "gems";
     pack_files := Some [(rubyPath, fileOfA); (rubyMeta, fileOfB)] |}.

(** What a file holds, as far as its name goes: what every object
    inherits and, at "name", its name. *)
Definition fileHolds (file : File) (name : jstring) : bool :=
  inherited name || (jeqb name (str "name") && truthy (fileName file)).

(** A browser that loads the files named [*.png] as images of 16 by 16,
    and no other file. *)
Definition imageSize (file : File) : option (Z * Z) :=
  if endsWith (str ".png") (fileName file) then Some (16, 16)%Z else None.

(** The editor at rest with a pack loaded. *)
Definition idle (pack : ResourcePack) : App.AppState :=
  {| App.resourcePack := pack;
     App.packEdition := App.Java;
     App.isProcessing := false;
     App.processingStep := [];
     App.progress := App.Exactly 0;
     App.mergePacks := [];
     App.mergeConflicts := [];
     App.alerts := [];
     App.downloads := [] |}.

(** The editor with the packs [packs] uploaded for a merge and no
    conflict among them. *)
Definition merging (packs : list MergePack) : App.AppState :=
  {| App.resourcePack := pack;
     App.packEdition := App.Java;
     App.isProcessing := false;
     App.processingStep := [];
     App.progress := App.Exactly 0;
     App.mergePacks := packs;
     App.mergeConflicts := [];
     App.alerts := [];
     App.downloads := [] |}.

(** Two sounds: one with a subtitle and a replace flag, one without a
    category. *)
Definition chime : CustomSound :=
  {| sound_id := str "sound_0"; sound_name := str "gem.chime";
     category := str "block"; sounds := [str "gem/chime1"; str "gem/chime2"];
     subtitle := Some (str "Gem chimes"); sound_replace := Some true;
     sound_file := None |}.

Definition hum : CustomSound :=
  {| sound_id := str "sound_1"; sound_name := str "gem.hum";
     category := []; sounds := [str "gem/hum"];
     subtitle := Some []; sound_replace := None; sound_file := None |}.

(** A Platform B archive with two geometry files. *)
Definition twoGeometries : entries ZipObject :=
  [ (str "manifest.json", {| dir := false; data := [1%N] |});
    (str "models/entity/gem.geo.json", {| dir := false; data := [2%N] |});
    (str "models/entity/orb.geo.json", {| dir := false; data := [3%N] |}) ].

(** A stand-in for [JSON.parse] that reads every text as an empty
    object. *)
Definition emptyJSON : list N -> option json := fun _ => Some (JObj []).

(** [JSON.stringify] on the sample documents, whose numbers are small. *)
Definition stringify (doc : json) : jstring :=
  match Importer.JSON_stringify doc with
  | Some text => text
  | None => []
  end.

(** A stand-in for [JSON.parse] that knows the documents [docs]: it reads
    a text as the first of them that is printed so. *)
Definition parseAmong (docs : list json) (text : list N) : option json :=
  find (fun doc => jeqb (stringify doc) text) docs.

Definition documents (writes : list Exporter.ZipWrite) : list json :=
  flat_map (fun w => match snd w with
                     | Exporter.ZJson doc => [doc]
                     | _ => []
                     end) writes.

End Samples.

(* ================================================================== *)
(** * Properties *)

(** A conjunction of tests that holds, taken apart into its tests. *)
Ltac conditions H :=
  repeat (apply andb_true_iff in H as [H ?]);
  repeat match goal with
         | X : negb _ = true |- _ => apply negb_true_iff in X
         end.

(** ** Strings and entry lists *)

Lemma jeqb_refl (a : jstring) : jeqb a a = true.
Proof.
  induction a as [|x a IH]; simpl; [reflexivity|].
  now rewrite N.eqb_refl, IH.
Qed.

Lemma jeqb_eq (a b : jstring) : jeqb a b = true <-> a = b.
Proof.
  split.
  - revert b; induction a as [|x a IH]; intros [|y b] H; simpl in H;
      try discriminate; [reflexivity|].
    apply andb_true_iff in H as [Hxy Hab].
    apply N.eqb_eq in Hxy. apply IH in Hab. now subst.
  - intros ->. apply jeqb_refl.
Qed.

Lemma jeqb_neq (a b : jstring) : jeqb a b = false <-> a <> b.
Proof.
  split.
  - intros H E. apply jeqb_eq in E. congruence.
  - intros H. destruct (jeqb a b) eqn:E; [|reflexivity].
    apply jeqb_eq in E. contradiction.
Qed.

Lemma jeqb_sym (a b : jstring) : jeqb a b = jeqb b a.
Proof.
  destruct (jeqb a b) eqn:E.
  - apply jeqb_eq in E. subst. symmetry. apply jeqb_refl.
  - symmetry. apply jeqb_neq. apply jeqb_neq in E. congruence.
Qed.

Section EntryFacts.
Variable V : Type.
Implicit Types (m : entries V) (k : jstring) (v : V).

Lemma getKey_app k m1 m2 :
  getKey k (m1 ++ m2) =
  match getKey k m1 with Some v => Some v | None => getKey k m2 end.
Proof.
  induction m1 as [|[k' v'] m1 IH]; simpl; [reflexivity|].
  destruct (jeqb k' k); [reflexivity|apply IH].
Qed.


Lemma setKey_fresh k v m :
  hasKey k m = false -> setKey k v m = m ++ [(k, v)].
Proof.
  unfold hasKey.
  induction m as [|[k' v'] m IH]; simpl; [reflexivity|].
  destruct (jeqb k' k); [discriminate|].
  intros H. now rewrite IH.
Qed.

Lemma getKey_setKey_same k v m : getKey k (setKey k v m) = Some v.
Proof.
  induction m as [|[k' v'] m IH]; simpl.
  - now rewrite jeqb_refl.
  - destruct (jeqb k' k) eqn:E; simpl; rewrite E; [reflexivity|apply IH].
Qed.

Lemma getKey_setKey_other k k' v m :
  k' <> k -> getKey k (setKey k' v m) = getKey k m.
Proof.
  intros Hne.
  induction m as [|[k0 v0] m IH]; simpl.
  - apply jeqb_neq in Hne. now rewrite Hne.
  - destruct (jeqb k0 k') eqn:E; simpl.
    + apply jeqb_eq in E. subst k0.
      apply jeqb_neq in Hne. now rewrite Hne.
    + destruct (jeqb k0 k); [reflexivity|apply IH].
Qed.

Lemma hasKey_setKey_other k k' v m :
  k' <> k -> hasKey k (setKey k' v m) = hasKey k m.
Proof.
  intros H. unfold hasKey. now rewrite getKey_setKey_other.
Qed.

Lemma uniqueKeys_app_cons m k v m' :
  uniqueKeys (m ++ (k, v) :: m') = true ->
  hasKey k m = false /\ uniqueKeys ((m ++ [(k, v)]) ++ m') = true.
Proof.
  intros H. split.
  - induction m as [|[k0 v0] m IH]; simpl in *; [reflexivity|].
    apply andb_true_iff in H as [Hk0 Hu].
    unfold hasKey in *. simpl.
    destruct (jeqb k0 k) eqn:E.
    + apply jeqb_eq in E. subst k0.
      rewrite getKey_app in Hk0. simpl in Hk0. rewrite jeqb_refl in Hk0.
      destruct (getKey k m); discriminate.
    + now apply IH.
  - now rewrite <- app_assoc.
Qed.

(** Writing the entries of a table one after the other rebuilds it. *)
Lemma fold_setKey_unique (l acc : entries V) :
  uniqueKeys (acc ++ l) = true ->
  fold_left (fun a kv => setKey (fst kv) (snd kv) a) l acc = acc ++ l.
Proof.
  revert acc. induction l as [|[k v] l IH]; intros acc H; simpl.
  - now rewrite app_nil_r.
  - apply uniqueKeys_app_cons in H as [Hk Hu].
    rewrite setKey_fresh by exact Hk.
    rewrite IH by exact Hu.
    now rewrite <- app_assoc.
Qed.

End EntryFacts.

Lemma uniqueKeys_setKey (V : Type) (k : jstring) (v : V) (m : entries V) :
  uniqueKeys m = true -> uniqueKeys (setKey k v m) = true.
Proof.
  induction m as [|[k' v'] m IH]; simpl; [reflexivity|].
  intros H. apply andb_true_iff in H as [Hk Hu].
  destruct (jeqb k' k) eqn:E; simpl.
  - now rewrite Hk, Hu.
  - rewrite hasKey_setKey_other, Hk, IH; auto.
    intros ->. now rewrite jeqb_refl in E.
Qed.

Lemma In_hasKey (V : Type) (k : jstring) (v : V) (m : entries V) :
  In (k, v) m -> hasKey k m = true.
Proof.
  unfold hasKey. induction m as [|[k' v'] m IH]; simpl; [contradiction|].
  intros [E|H].
  - injection E as -> ->. now rewrite jeqb_refl.
  - destruct (jeqb k' k); [reflexivity|now apply IH].
Qed.

Lemma In_getKey (V : Type) (k : jstring) (v : V) (m : entries V) :
  uniqueKeys m = true -> In (k, v) m -> getKey k m = Some v.
Proof.
  induction m as [|[k' v'] m IH]; simpl; [contradiction|].
  intros Hu [E|H]; apply andb_true_iff in Hu as [Hk Hu].
  - injection E as -> ->. now rewrite jeqb_refl.
  - destruct (jeqb k' k) eqn:E; [|now apply IH].
    apply jeqb_eq in E. subst k'.
    rewrite (In_hasKey _ _ _ H) in Hk. discriminate.
Qed.

Lemma getKey_In (V : Type) (k : jstring) (v : V) (m : entries V) :
  getKey k m = Some v -> exists k', k' = k /\ In (k', v) m.
Proof.
  induction m as [|[k0 v0] m IH]; simpl; [discriminate|].
  destruct (jeqb k0 k) eqn:E.
  - intros H. injection H as <-. apply jeqb_eq in E.
    exists k0. split; [exact E|now left].
  - intros H. destruct (IH H) as [k' [Hk Hin]].
    exists k'. split; [exact Hk|now right].
Qed.

(** ** Object literals *)

Section ObjectFacts.
Variable V : Type.
Implicit Types (m : entries V) (k : jstring) (v : V).

Lemma arrayIndex_inj k k' n :
  arrayIndex k = Some n -> arrayIndex k' = Some n -> k = k'.
Proof.
  unfold arrayIndex. intros H H'.
  destruct (jeqb (decimalN (digitsValue k)) k) eqn:E; [|discriminate].
  destruct (jeqb (decimalN (digitsValue k')) k') eqn:E'; [|discriminate].
  destruct (N.ltb (digitsValue k) 4294967295); [|discriminate].
  destruct (N.ltb (digitsValue k') 4294967295); [|discriminate].
  simpl in H, H'. injection H as H. injection H' as H'.
  apply jeqb_eq in E, E'. rewrite <- E, <- E'. congruence.
Qed.

Lemma before_trans k1 k2 k3 :
  before k1 k2 = true -> before k2 k3 = true -> before k1 k3 = true.
Proof.
  unfold before.
  destruct (arrayIndex k1), (arrayIndex k2), (arrayIndex k3);
    try discriminate; try reflexivity.
  rewrite !N.ltb_lt. lia.
Qed.

(** Where [place] stops, the new name comes before what follows. *)
Lemma before_stop k k' k'' :
  k <> k' -> before k' k = false -> before k' k'' = true ->
  before k k' = true /\ before k k'' = true.
Proof.
  unfold before. intros Hne.
  destruct (arrayIndex k) as [n|] eqn:A, (arrayIndex k') as [n'|] eqn:A',
    (arrayIndex k'') as [n''|]; intros H1 H2;
    try discriminate; try (now split).
  - apply N.ltb_ge in H1. apply N.ltb_lt in H2.
    assert (n <> n').
    { intros ->. apply Hne. exact (@arrayIndex_inj _ _ _ A A'). }
    split; apply N.ltb_lt; lia.
  - apply N.ltb_ge in H1.
    assert (n <> n').
    { intros ->. apply Hne. exact (@arrayIndex_inj _ _ _ A A'). }
    split; [apply N.ltb_lt; lia|reflexivity].
Qed.

Lemma before_stop_last k k' :
  k <> k' -> before k' k = false -> before k k' = true.
Proof.
  unfold before. intros Hne.
  destruct (arrayIndex k) as [n|] eqn:A, (arrayIndex k') as [n'|] eqn:A';
    try discriminate; try reflexivity.
  rewrite N.ltb_ge, !N.ltb_lt. intros H1.
  assert (n <> n').
  { intros ->. apply Hne. exact (@arrayIndex_inj _ _ _ A A'). }
  lia.
Qed.

Lemma getKey_place k k' v m :
  hasKey k m = false ->
  getKey k' (place k v m) = if jeqb k k' then Some v else getKey k' m.
Proof.
  unfold hasKey.
  induction m as [|[k0 v0] m IH]; simpl; [reflexivity|].
  destruct (jeqb k0 k) eqn:E0; [discriminate|]. intros H.
  destruct (before k0 k); simpl.
  - rewrite IH by exact H.
    destruct (jeqb k k') eqn:E; [|reflexivity].
    apply jeqb_eq in E. subst k'. now rewrite E0.
  - reflexivity.
Qed.

Lemma getKey_assign_same k v m :
  k <> PROTO -> getKey k (assign k v m) = Some v.
Proof.
  intros H. unfold assign. apply jeqb_neq in H. rewrite H.
  destruct (hasKey k m) eqn:E.
  - apply getKey_setKey_same.
  - rewrite getKey_place by exact E. now rewrite jeqb_refl.
Qed.

Lemma getKey_assign_other k k' v m :
  k' <> k -> getKey k (assign k' v m) = getKey k m.
Proof.
  intros H. unfold assign.
  destruct (jeqb k' PROTO); [reflexivity|].
  destruct (hasKey k' m) eqn:E.
  - now apply getKey_setKey_other.
  - rewrite getKey_place by exact E. apply jeqb_neq in H. now rewrite H.
Qed.

Lemma hasKey_assign_other k k' v m :
  k' <> k -> hasKey k (assign k' v m) = hasKey k m.
Proof. intros H. unfold hasKey. now rewrite getKey_assign_other. Qed.

Lemma assign_proto v m : assign PROTO v m = m.
Proof. reflexivity. Qed.

Lemma In_place k v m e : In e (place k v m) <-> e = (k, v) \/ In e m.
Proof.
  induction m as [|[k0 v0] m IH]; simpl; [intuition|].
  destruct (before k0 k); simpl; [rewrite IH|]; intuition.
Qed.

Lemma In_setKey k v m e : In e (setKey k v m) -> e = (k, v) \/ In e m.
Proof.
  induction m as [|[k0 v0] m IH]; simpl; [intuition|].
  destruct (jeqb k0 k) eqn:E; simpl.
  - apply jeqb_eq in E. subst k0. intuition.
  - intuition.
Qed.

Lemma In_assign k v m e : In e (assign k v m) -> e = (k, v) \/ In e m.
Proof.
  unfold assign. destruct (jeqb k PROTO); [now right|].
  destruct (hasKey k m); [apply In_setKey|apply In_place].
Qed.

Lemma forallb_assign (P : jstring * V -> bool) k v m :
  P (k, v) = true -> forallb P m = true -> forallb P (assign k v m) = true.
Proof.
  intros Hk Hm. apply forallb_forall. intros e He.
  apply In_assign in He as [->|He]; [exact Hk|].
  rewrite forallb_forall in Hm. now apply Hm.
Qed.

Lemma keys_setKey_present k v m :
  hasKey k m = true -> keys (setKey k v m) = keys m.
Proof.
  unfold hasKey, keys.
  induction m as [|[k0 v0] m IH]; simpl; [discriminate|].
  destruct (jeqb k0 k) eqn:E; simpl; [reflexivity|].
  intros H. now rewrite IH.
Qed.

Lemma hasKey_keys k m : hasKey k m = existsb (jeqb k) (keys m).
Proof.
  unfold hasKey, keys.
  induction m as [|[k0 v0] m IH]; simpl; [reflexivity|].
  rewrite (jeqb_sym k k0). destruct (jeqb k0 k); [reflexivity|exact IH].
Qed.

Lemma uniqueKeys_keys m m' :
  keys m = keys m' -> uniqueKeys m = uniqueKeys m'.
Proof.
  revert m'. induction m as [|[k v] m IH]; intros [|[k' v'] m'] H;
    try discriminate; [reflexivity|].
  unfold keys in H. simpl in H. injection H as -> H.
  simpl. rewrite (IH m' H), !hasKey_keys. unfold keys. now rewrite H.
Qed.

Lemma forallb_keys (P : jstring -> bool) m :
  forallb (fun e => P (fst e)) m = forallb P (keys m).
Proof.
  induction m as [|[k v] m IH]; simpl; [reflexivity|]. now rewrite IH.
Qed.

Lemma enumerated_keys m m' :
  keys m = keys m' -> enumerated m = enumerated m'.
Proof.
  revert m'. induction m as [|[k v] m IH]; intros [|[k' v'] m'] H;
    try discriminate; [reflexivity|].
  unfold keys in H. simpl in H. injection H as -> H.
  simpl. rewrite (IH m' H). f_equal.
  rewrite (forallb_keys (before k') m), (forallb_keys (before k') m').
  unfold keys. now rewrite H.
Qed.

Lemma hasKey_place k k' v m :
  hasKey k m = false ->
  hasKey k' (place k v m) = jeqb k k' || hasKey k' m.
Proof.
  intros H. unfold hasKey at 1. rewrite getKey_place by exact H.
  unfold hasKey. now destruct (jeqb k k').
Qed.

Lemma uniqueKeys_place k v m :
  hasKey k m = false -> uniqueKeys m = true -> uniqueKeys (place k v m) = true.
Proof.
  induction m as [|[k0 v0] m IH]; intros Hk Hu; simpl; [reflexivity|].
  simpl in Hu. apply andb_true_iff in Hu as [H0 Hu].
  assert (Hk' : hasKey k m = false /\ jeqb k0 k = false).
  { unfold hasKey in *. simpl in Hk. destruct (jeqb k0 k); [discriminate|].
    now split. }
  destruct Hk' as [Hkm Hne].
  destruct (before k0 k); simpl.
  - rewrite hasKey_place by exact Hkm. rewrite jeqb_sym, Hne. simpl.
    rewrite H0. simpl. now apply IH.
  - rewrite Hk. simpl. now rewrite H0, Hu.
Qed.

Lemma uniqueKeys_assign k v m :
  uniqueKeys m = true -> uniqueKeys (assign k v m) = true.
Proof.
  intros H. unfold assign. destruct (jeqb k PROTO); [exact H|].
  destruct (hasKey k m) eqn:E.
  - now apply uniqueKeys_setKey.
  - now apply uniqueKeys_place.
Qed.

Lemma enumerated_place k v m :
  hasKey k m = false -> enumerated m = true -> enumerated (place k v m) = true.
Proof.
  induction m as [|[k0 v0] m IH]; intros Hk He; simpl; [reflexivity|].
  simpl in He. apply andb_true_iff in He as [H0 He].
  assert (Hk' : hasKey k m = false /\ k <> k0).
  { unfold hasKey in *. simpl in Hk. destruct (jeqb k0 k) eqn:E;
      [discriminate|].
    split; [exact Hk|]. apply jeqb_neq in E. congruence. }
  destruct Hk' as [Hkm Hne].
  destruct (before k0 k) eqn:B; simpl.
  - rewrite IH by assumption. rewrite andb_true_r.
    apply forallb_forall. intros e Hin.
    apply In_place in Hin as [->|Hin]; [exact B|].
    rewrite forallb_forall in H0. now apply H0.
  - rewrite H0, He, (@before_stop_last _ _ Hne B). simpl. rewrite !andb_true_r.
    apply forallb_forall. intros e Hin.
    rewrite forallb_forall in H0.
    exact (proj2 (@before_stop _ _ _ Hne B (H0 e Hin))).
Qed.

(** An object stays in the order it lists its names when a name is
    assigned. *)
Lemma enumerated_assign k v m :
  enumerated m = true -> enumerated (assign k v m) = true.
Proof.
  intros H. unfold assign. destruct (jeqb k PROTO); [exact H|].
  destruct (hasKey k m) eqn:E.
  - rewrite (enumerated_keys (setKey k v m) m); [exact H|].
    now apply keys_setKey_present.
  - now apply enumerated_place.
Qed.

Lemma place_last k v m :
  forallb (fun e => before (fst e) k) m = true -> place k v m = m ++ [(k, v)].
Proof.
  induction m as [|[k0 v0] m IH]; simpl; [reflexivity|].
  intros H. apply andb_true_iff in H as [H0 H]. rewrite H0.
  now rewrite IH.
Qed.

Lemma enumerated_app_last m k v :
  enumerated (m ++ [(k, v)]) = true ->
  forallb (fun e => before (fst e) k) m = true.
Proof.
  induction m as [|[k0 v0] m IH]; simpl; [reflexivity|].
  intros H. apply andb_true_iff in H as [H0 H].
  rewrite forallb_app in H0. apply andb_true_iff in H0 as [_ H0].
  simpl in H0. rewrite andb_true_r in H0. rewrite H0. now apply IH.
Qed.

(** Assigning the entries of an object one after the other, in the order
    the object lists them, rebuilds it, but for an own "__proto__". *)
Lemma fold_assign_enumerated (l acc : entries V) :
  uniqueKeys (acc ++ l) = true ->
  enumerated (acc ++ l) = true ->
  forallb (fun e => negb (jeqb (fst e) PROTO)) l = true ->
  fold_left (fun a kv => assign (fst kv) (snd kv) a) l acc = acc ++ l.
Proof.
  revert acc. induction l as [|[k v] l IH]; intros acc Hu He Hp; simpl.
  - now rewrite app_nil_r.
  - simpl in Hp. apply andb_true_iff in Hp as [Hk Hp].
    apply negb_true_iff in Hk.
    apply uniqueKeys_app_cons in Hu as [Hfresh Hu].
    replace (acc ++ (k, v) :: l) with ((acc ++ [(k, v)]) ++ l) in He
      by (now rewrite <- app_assoc).
    assert (Hhere : enumerated (acc ++ [(k, v)]) = true).
    { clear - He. induction (acc ++ [(k, v)]) as [|[k0 v0] m IH];
        [reflexivity|].
      simpl in *. apply andb_true_iff in He as [H0 He].
      rewrite forallb_app in H0. apply andb_true_iff in H0 as [H0 _].
      rewrite H0. now apply IH. }
    unfold assign. rewrite Hk, Hfresh.
    rewrite place_last by (now apply enumerated_app_last with (v := v)).
    rewrite IH by assumption.
    now rewrite <- app_assoc.
Qed.

End ObjectFacts.

Section GroupUnderFacts.
Variables (A B : Type) (key : A -> jstring) (val : A -> B).

Lemma inherited_proto : inherited PROTO = true.
Proof. reflexivity. Qed.

Lemma not_inherited_proto k : inherited k = false -> k <> PROTO.
Proof. intros H ->. discriminate. Qed.

Lemma uniqueKeys_groupedUnder l acc g :
  uniqueKeys acc = true -> groupedUnder key val l acc = Some g ->
  uniqueKeys g = true.
Proof.
  revert acc. induction l as [|x l IH]; intros acc Hu H; simpl in H.
  - now injection H as <-.
  - unfold pushUnder in H.
    destruct (getKey (key x) acc).
    + apply (IH _ (uniqueKeys_setKey _ _ _ Hu) H).
    + destruct (inherited (key x)); [discriminate|].
      apply (IH _ (uniqueKeys_assign _ _ _ Hu) H).
Qed.

Lemma getKey_groupedUnder k l acc g :
  groupedUnder key val l acc = Some g ->
  getKey k g =
  match getKey k acc, map val (filter (fun x => jeqb (key x) k) l) with
  | Some g0, g' => Some (g0 ++ g')
  | None, [] => None
  | None, g' => Some g'
  end.
Proof.
  revert acc. induction l as [|x l IH]; intros acc H; simpl in H.
  - injection H as <-. simpl.
    destruct (getKey k acc); [now rewrite app_nil_r|reflexivity].
  - unfold pushUnder in H. simpl.
    destruct (getKey (key x) acc) as [g0|] eqn:G.
    + rewrite (IH _ H).
      destruct (jeqb (key x) k) eqn:E.
      * apply jeqb_eq in E. subst k. simpl.
        rewrite getKey_setKey_same, G. now rewrite <- app_assoc.
      * rewrite getKey_setKey_other by (now apply jeqb_neq). reflexivity.
    + destruct (inherited (key x)) eqn:I; [discriminate|].
      rewrite (IH _ H).
      destruct (jeqb (key x) k) eqn:E.
      * apply jeqb_eq in E. subst k. simpl.
        rewrite getKey_assign_same by (now apply not_inherited_proto).
        now rewrite G.
      * rewrite getKey_assign_other by (now apply jeqb_neq). reflexivity.
Qed.

Lemma In_groupedUnder k g l groups :
  groupedUnder key val l [] = Some groups ->
  In (k, g) groups ->
  g = map val (filter (fun x => jeqb (key x) k) l).
Proof.
  intros H Hin.
  apply In_getKey in Hin; [|exact (uniqueKeys_groupedUnder l [] eq_refl H)].
  rewrite (getKey_groupedUnder k l [] H) in Hin. simpl in Hin.
  destruct (map val (filter (fun x => jeqb (key x) k) l));
    [discriminate|now injection Hin].
Qed.

(** The grouping throws exactly when a name is one the object inherits
    and has not as its own. *)
Lemma groupedUnder_throws l acc :
  forallb (fun e => negb (inherited (fst e))) acc = true ->
  groupedUnder key val l acc = None <->
  existsb (fun x => inherited (key x)) l = true.
Proof.
  revert acc. induction l as [|x l IH]; intros acc Hacc; simpl.
  - split; discriminate.
  - unfold pushUnder.
    destruct (getKey (key x) acc) as [g0|] eqn:G.
    + assert (I : inherited (key x) = false).
      { apply getKey_In in G as [k' [-> Hin]].
        rewrite forallb_forall in Hacc.
        apply negb_true_iff. exact (Hacc _ Hin). }
      rewrite I. simpl. apply IH.
      apply forallb_forall. intros e He.
      apply In_setKey in He as [->|He]; [simpl; now rewrite I|].
      rewrite forallb_forall in Hacc. now apply Hacc.
    + destruct (inherited (key x)) eqn:I; simpl; [now split|].
      apply IH. apply forallb_assign; [simpl; now rewrite I|exact Hacc].
Qed.

End GroupUnderFacts.

(** ** Language tables: the round trip *)

Section LangFacts.
Import Lang.

Lemma split_without c s : has c s = false -> split c s = [s].
Proof.
  unfold has.
  induction s as [|x s IH]; simpl; [reflexivity|].
  intros H. apply orb_false_iff in H as [Hx Hs].
  rewrite N.eqb_sym, Hx, IH by exact Hs. reflexivity.
Qed.

Lemma split_app c a b :
  has c a = false -> split c (a ++ c :: b) = a :: split c b.
Proof.
  unfold has.
  induction a as [|x a IH]; simpl.
  - now rewrite N.eqb_refl.
  - intros H. apply orb_false_iff in H as [Hx Ha].
    rewrite N.eqb_sym, Hx, IH by exact Ha. reflexivity.
Qed.

Lemma split_join c l :
  l <> [] -> forallb (fun s => negb (has c s)) l = true ->
  split c (join [c] l) = l.
Proof.
  induction l as [|a l IH]; [congruence|].
  intros _ H. simpl in H. apply andb_true_iff in H as [Ha Hl].
  apply negb_true_iff in Ha.
  destruct l as [|b l].
  - simpl. now apply split_without.
  - change (join [c] (a :: b :: l)) with (a ++ c :: join [c] (b :: l)).
    rewrite split_app by exact Ha.
    rewrite IH by (congruence || exact Hl). reflexivity.
Qed.

Lemma trimStart_headOk s : headOk s = true -> trimStart s = s.
Proof.
  destruct s as [|c s]; simpl; [reflexivity|].
  intros H. apply negb_true_iff in H. now rewrite H.
Qed.

Lemma trim_id s :
  headOk s = true -> headOk (rev s) = true -> trim s = s.
Proof.
  intros H1 H2. unfold trim, trimEnd.
  rewrite (trimStart_headOk _ H1), (trimStart_headOk _ H2).
  apply rev_involutive.
Qed.

Lemma hd_rev_last (c : char) (s : jstring) (d : char) :
  hd d (rev (c :: s)) = last (c :: s) c.
Proof.
  revert c. induction s as [|x s IH]; intros c; [reflexivity|].
  change (last (c :: x :: s) c) with (last (x :: s) c).
  assert (E : forall d', last (x :: s) d' = last (x :: s) x).
  { clear. revert x. induction s as [|y s IH]; intros x d'; [reflexivity|].
    change (last (x :: y :: s) d') with (last (y :: s) d').
    change (last (x :: y :: s) x) with (last (y :: s) x).
    now rewrite (IH y d'), (IH y x). }
  rewrite E, <- IH.
  simpl. destruct (rev s ++ [x]) eqn:R; [|reflexivity].
  destruct (rev s); discriminate.
Qed.

Lemma noOuterWhitespace_headOk s :
  noOuterWhitespace s = true -> headOk s = true /\ headOk (rev s) = true.
Proof.
  destruct s as [|c s]; [now split|].
  unfold noOuterWhitespace. intros H.
  apply andb_true_iff in H as [H1 H2]. split; [exact H1|].
  rewrite <- (hd_rev_last c s c) in H2.
  destruct (rev (c :: s)) eqn:R; [reflexivity|exact H2].
Qed.

Lemma headOk_app a b : a <> [] -> headOk (a ++ b) = headOk a.
Proof. destruct a; [congruence|reflexivity]. Qed.

Lemma indexOf_app c a b :
  has c a = false -> indexOf c (a ++ c :: b) = Some (length a).
Proof.
  unfold has.
  induction a as [|x a IH]; simpl.
  - now rewrite N.eqb_refl.
  - intros H. apply orb_false_iff in H as [Hx Ha].
    rewrite N.eqb_sym, Hx, IH by exact Ha. reflexivity.
Qed.

(** A line the encoder writes is read back as the entry it was written
    from. *)
Lemma decodeLine_encoded content k v :
  plainEntry (k, v) = true ->
  decodeLine content (k ++ [EQ] ++ v) = assign k v content.
Proof.
  unfold plainEntry. intros H.
  conditions H.
  destruct (noOuterWhitespace_headOk k) as [Hk1 Hk2]; [assumption|].
  destruct (noOuterWhitespace_headOk v) as [Hv1 Hv2]; [assumption|].
  destruct k as [|c k]; [discriminate|].
  set (key := c :: k) in *.
  assert (Hline : trim (key ++ [EQ] ++ v) = key ++ [EQ] ++ v).
  { apply trim_id.
    - rewrite headOk_app by (subst key; congruence). exact Hk1.
    - rewrite rev_app_distr, rev_app_distr. simpl rev at 2.
      destruct (rev v) as [|y rv] eqn:R; [reflexivity|exact Hv2]. }
  unfold decodeLine. rewrite Hline.
  assert (Hhash : startsWith (str "#") (key ++ [EQ] ++ v) = false).
  { subst key. simpl in *. assumption. }
  assert (Hsl : startsWith (str "//") (key ++ [EQ] ++ v) = false).
  { subst key. simpl in *. destruct k as [|c2 k]; simpl in *.
    - now rewrite andb_false_r.
    - assumption. }
  rewrite Hhash, Hsl.
  change (key ++ [EQ] ++ v) with (key ++ EQ :: v).
  rewrite indexOf_app by assumption.
  subst key. cbn [length truthy negb orb].
  unfold substringTo, substringFrom.
  replace (S (length k) + 1)%nat with (length ((c :: k) ++ [EQ]))
    by (rewrite length_app; simpl; lia).
  replace ((c :: k) ++ EQ :: v) with (((c :: k) ++ [EQ]) ++ v)
    by (now rewrite <- app_assoc).
  rewrite skipn_app, skipn_all, Nat.sub_diag. simpl skipn.
  rewrite <- app_assoc.
  change (S (length k)) with (length (c :: k)).
  rewrite firstn_app, firstn_all, Nat.sub_diag. simpl firstn.
  rewrite app_nil_r.
  rewrite (trim_id (c :: k)) by assumption.
  simpl app.
  rewrite (trim_id v) by assumption.
  reflexivity.
Qed.

Lemma decode_encoded_lines (l acc : entries jstring) :
  forallb plainEntry l = true ->
  fold_left decodeLine (map (fun kv => fst kv ++ [EQ] ++ snd kv) l) acc =
  fold_left (fun a kv => assign (fst kv) (snd kv) a) l acc.
Proof.
  revert acc. induction l as [|[k v] l IH]; intros acc H; [reflexivity|].
  simpl in H. apply andb_true_iff in H as [Hkv Hl].
  cbn [map fold_left fst snd].
  rewrite decodeLine_encoded by exact Hkv.
  now apply IH.
Qed.

Lemma encoded_line_one_line kv :
  plainEntry kv = true ->
  negb (has NL (fst kv ++ [EQ] ++ snd kv)) = true.
Proof.
  destruct kv as [k v]. unfold plainEntry. intros H.
  conditions H.
  apply negb_true_iff. unfold has in *. simpl fst; simpl snd.
  rewrite existsb_app. simpl.
  apply orb_false_iff. split; assumption.
Qed.

End LangFacts.

(** C10, as amended.  Language round trip: a table whose keys are
    non-empty, hold no '=' and no newline, do not begin with '#' or '//'
    and are not "__proto__", and whose keys and values neither begin nor
    end with whitespace nor hold a newline, is read back from its Bedrock
    .lang text exactly as it was.  The table is given as the object lists
    it: distinct keys, array indices first and ascending. *)
Theorem lang_round_trip (content : entries jstring) :
  uniqueKeys content = true ->
  enumerated content = true ->
  forallb Lang.plainEntry content = true ->
  forallb (fun kv => negb (jeqb (fst kv) PROTO)) content = true ->
  Lang.convertBedrockLangToInternal (Lang.convertLangToBedrock content)
  = content.
Proof.
  intros Hu He Hp Hproto.
  unfold Lang.convertBedrockLangToInternal, Lang.convertLangToBedrock.
  destruct content as [|kv content]; [reflexivity|].
  rewrite split_join.
  - rewrite decode_encoded_lines by exact Hp.
    now rewrite fold_assign_enumerated.
  - discriminate.
  - rewrite forallb_forall in Hp |- *.
    intros x Hx. apply in_map_iff in Hx as [e [<- He']].
    apply encoded_line_one_line. now apply Hp.
Qed.

(** C10, as stated, fails for a key "__proto__": the key meets every
    condition of the claim, its line is written and read, but the
    assignment [content["__proto__"] = value] adds no entry to the table
    that is returned; the other entries come back. *)
Lemma proto_key_is_lost :
  let content :=
    [ (str "item.gem", str "Gem"); (str "__proto__", str "x") ] in
  uniqueKeys content = true /\
  enumerated content = true /\
  forallb Lang.plainEntry content = true /\
  Lang.convertLangToBedrock content
  = (str "item.gem=Gem" ++ [NL] ++ str "__proto__=x") /\
  Lang.convertBedrockLangToInternal (Lang.convertLangToBedrock content)
  = [ (str "item.gem", str "Gem") ].
Proof. repeat split. Qed.

(** ** Import: identifiers *)

Section IdentifierFacts.
Import Importer.

Lemma toInt32_range z : (-2147483648 <= toInt32 z <= 2147483647)%Z.
Proof.
  unfold toInt32.
  pose proof (Z.mod_pos_bound (z + 2147483648) 4294967296 eq_refl). lia.
Qed.

Lemma hashString_range s : (-2147483648 <= hashString s <= 2147483647)%Z.
Proof.
  unfold hashString.
  assert (G : forall a, (-2147483648 <= a <= 2147483647)%Z ->
                        (-2147483648 <= fold_left hashStep s a
                         <= 2147483647)%Z).
  { induction s as [|b s IH]; intros a Ha; simpl; [exact Ha|].
    apply IH. unfold hashStep. apply toInt32_range. }
  apply G. lia.
Qed.



End IdentifierFacts.




Lemma lang_round_trip_witness :
  uniqueKeys Samples.gemTable = true /\
  enumerated Samples.gemTable = true /\
  forallb Lang.plainEntry Samples.gemTable = true /\
  forallb (fun kv => negb (jeqb (fst kv) PROTO)) Samples.gemTable = true /\
  Lang.convertBedrockLangToInternal
    (Lang.convertLangToBedrock Samples.gemTable) = Samples.gemTable.
Proof.
  split; [reflexivity|]. split; [reflexivity|]. split; [reflexivity|].
  split; [reflexivity|].
  apply lang_round_trip; reflexivity.
Defined.

(** ** Import: texture references *)

Section ResolverFacts.
Import Importer.




(** Nothing is recorded under "__proto__". *)
Lemma resolveLayers_proto textureMap layers acc :
  hasKey PROTO acc = false ->
  hasKey PROTO
    (fold_left
       (fun acc layer =>
          match snd layer with
          | JStr texturePath =>
              assign (fst layer)
                (finalTextureName (resolveTexture textureMap texturePath)) acc
          | _ => acc
          end)
       layers acc)
  = false.
Proof.
  revert acc. induction layers as [|[k j] layers IH]; intros acc H;
    [exact H|].
  simpl. apply IH. destruct j; try exact H.
  destruct (jeqb k PROTO) eqn:E.
  - apply jeqb_eq in E. subst k. now rewrite assign_proto.
  - rewrite hasKey_assign_other; [exact H|]. now apply jeqb_neq.
Qed.




End ResolverFacts.




(** ** Export: grouping and sorting *)

Section GroupFacts.
Variables (A B : Type) (key : A -> jstring) (val : A -> B).

Lemma uniqueKeys_grouped l acc :
  uniqueKeys acc = true -> uniqueKeys (grouped key val l acc) = true.
Proof.
  revert acc. induction l as [|x l IH]; intros acc H; [exact H|].
  simpl. apply IH. unfold pushTo.
  destruct (getKey (key x) acc); now apply uniqueKeys_setKey.
Qed.

Lemma getKey_grouped k l acc :
  getKey k (grouped key val l acc) =
  match getKey k acc, map val (filter (fun x => jeqb (key x) k) l) with
  | Some g, g' => Some (g ++ g')
  | None, [] => None
  | None, g' => Some g'
  end.
Proof.
  revert acc. induction l as [|x l IH]; intros acc.
  - simpl. destruct (getKey k acc); [now rewrite app_nil_r|reflexivity].
  - simpl. fold (grouped key val l (pushTo (key x) (val x) acc)). rewrite IH.
    unfold pushTo.
    destruct (jeqb (key x) k) eqn:E.
    + apply jeqb_eq in E. subst k. simpl.
      destruct (getKey (key x) acc) as [g|].
      * rewrite getKey_setKey_same. now rewrite <- app_assoc.
      * rewrite getKey_setKey_same. reflexivity.
    + assert (Hne : key x <> k) by (now apply jeqb_neq).
      destruct (getKey (key x) acc);
        rewrite getKey_setKey_other by exact Hne; reflexivity.
Qed.

Lemma In_grouped k g l :
  In (k, g) (grouped key val l []) ->
  g = map val (filter (fun x => jeqb (key x) k) l).
Proof.
  intros H.
  apply In_getKey in H; [|now apply uniqueKeys_grouped].
  rewrite getKey_grouped in H. simpl in H.
  destruct (map val (filter (fun x => jeqb (key x) k) l));
    [discriminate|now injection H].
Qed.

End GroupFacts.

Section SortFacts.
Import Exporter.

Lemma insertSorted_perm (x : ModelData) l :
  Permutation (insertSorted byCustomModelData x l) (x :: l).
Proof.
  induction l as [|y l IH]; simpl; [reflexivity|].
  destruct (byCustomModelData x y <=? 0)%Z; [reflexivity|].
  rewrite IH. apply perm_swap.
Qed.

Lemma sortBy_perm l : Permutation (sortBy byCustomModelData l) l.
Proof.
  induction l as [|x l IH]; simpl; [reflexivity|].
  rewrite insertSorted_perm. now constructor.
Qed.

Lemma insertSorted_sorted x l :
  Sorted cmdLe l -> Sorted cmdLe (insertSorted byCustomModelData x l).
Proof.
  induction l as [|y l IH]; intros Hs; simpl.
  - repeat constructor.
  - unfold byCustomModelData at 1.
    destruct (customModelData x - customModelData y <=? 0)%Z eqn:E.
    + constructor; [exact Hs|]. constructor. unfold cmdLe. lia.
    + inversion Hs as [|? ? Hs' Hhd]; subst.
      constructor; [now apply IH|].
      destruct l as [|z l]; simpl.
      * constructor. unfold cmdLe. lia.
      * unfold byCustomModelData at 1.
        destruct (customModelData x - customModelData z <=? 0)%Z.
        -- constructor. unfold cmdLe. lia.
        -- inversion Hhd; subst. now constructor.
Qed.

Lemma sortBy_sorted l : Sorted cmdLe (sortBy byCustomModelData l).
Proof.
  induction l as [|x l IH]; simpl; [constructor|].
  now apply insertSorted_sorted.
Qed.

Lemma sorted_distinct_ascending l :
  Sorted cmdLe l -> NoDup (map customModelData l) ->
  StronglySorted Z.lt (map customModelData l).
Proof.
  intros Hs Hn.
  apply Sorted_StronglySorted in Hs;
    [|intros a b c; unfold cmdLe; lia].
  induction Hs as [|a l Hs IH Hall]; simpl; [constructor|].
  inversion Hn as [|? ? Hnot Hn']; subst.
  constructor; [now apply IH|].
  rewrite Forall_forall in Hall |- *.
  intros z Hz. apply in_map_iff in Hz as [b [<- Hb]].
  specialize (Hall b Hb). unfold cmdLe in Hall.
  assert (customModelData a <> customModelData b).
  { intros E. apply Hnot. rewrite E. now apply in_map. }
  lia.
Qed.

Lemma NoDup_map_filter (f : ModelData -> Z) (P : ModelData -> bool) l :
  NoDup (map f l) -> NoDup (map f (filter P l)).
Proof.
  induction l as [|x l IH]; simpl; intros H; [constructor|].
  inversion H as [|? ? Hnot Hn]; subst.
  destruct (P x); simpl; [|now apply IH].
  constructor; [|now apply IH].
  intros Hin. apply Hnot.
  apply in_map_iff in Hin as [y [<- Hy]].
  apply filter_In in Hy as [Hy _]. now apply in_map.
Qed.

Lemma distinct_targeting item ms :
  distinctIdentifiers ms = true ->
  NoDup (map customModelData (targeting item ms)).
Proof.
  unfold targeting.
  induction ms as [|m ms IH]; simpl; intros H; [constructor|].
  apply andb_true_iff in H as [Hm Hms].
  destruct (jeqb (targetItem m) item) eqn:E; simpl; [|now apply IH].
  constructor; [|now apply IH].
  intros Hin. apply in_map_iff in Hin as [m' [Hc Hm']].
  apply filter_In in Hm' as [Hin' Ht].
  rewrite forallb_forall in Hm. specialize (Hm m' Hin').
  apply jeqb_eq in E. apply jeqb_eq in Ht.
  rewrite E, <- Ht, jeqb_refl, Hc, Z.eqb_refl in Hm. discriminate.
Qed.

Lemma thresholds_itemDef item l :
  thresholds (itemDef item l) = map customModelData l.
Proof.
  unfold thresholds, itemDef. cbn.
  induction l as [|m l IH]; [reflexivity|].
  cbn. now rewrite IH.
Qed.

Lemma overrideIdentifiers_itemModel item l :
  overrideIdentifiers (itemModel item l) = map customModelData l.
Proof.
  unfold overrideIdentifiers, itemModel. cbn.
  induction l as [|m l IH]; [reflexivity|].
  cbn. now rewrite IH.
Qed.

End SortFacts.

Lemma distinctIdentifiers_filter (P : ModelData -> bool) ms :
  Exporter.distinctIdentifiers ms = true ->
  Exporter.distinctIdentifiers (filter P ms) = true.
Proof.
  induction ms as [|m ms IH]; simpl; intros H; [reflexivity|].
  apply andb_true_iff in H as [Hm Hms].
  destruct (P m); simpl; [|now apply IH].
  rewrite IH by exact Hms. rewrite andb_true_r.
  rewrite forallb_forall in Hm |- *.
  intros x Hx. apply filter_In in Hx as [Hx _]. now apply Hm.
Qed.

(** C2. When no two models of one target item share a primary identifier,
    every selection document the Platform A exporter writes lists its
    entries in strictly ascending order of primary identifier: the
    thresholds of the dispatch document when the format is 48 or more,
    the predicates of the override list when it is less.  The entries are
    those of the exported models of the item. *)
Theorem selection_entries_ascending
    (pack : ResourcePack) (path : jstring) (doc : json) :
  Exporter.distinctIdentifiers (models pack) = true ->
  In (path, Exporter.ZJson doc) (Exporter.itemDefinitions pack) ->
  exists item,
    let ids := map customModelData
                 (Exporter.targeting item (Exporter.validModels pack)) in
    if (48 <=? format pack)%Z then
      path = str "assets/minecraft/items/" ++ item ++ str ".json" /\
      StronglySorted Z.lt (Exporter.thresholds doc) /\
      Permutation (Exporter.thresholds doc) ids
    else
      path = str "assets/minecraft/models/item/" ++ item ++ str ".json" /\
      StronglySorted Z.lt (Exporter.overrideIdentifiers doc) /\
      Permutation (Exporter.overrideIdentifiers doc) ids.
Proof.
  intros Hd Hin.
  unfold Exporter.itemDefinitions in Hin.
  apply in_map_iff in Hin as [[item group] [Hdef Hg]].
  exists item.
  assert (Hgroup : group = Exporter.targeting item (Exporter.validModels pack)).
  { apply (In_grouped targetItem (fun m : ModelData => m)) in Hg.
    now rewrite map_id in Hg. }
  set (sorted := Exporter.sortBy Exporter.byCustomModelData group).
  assert (Hperm : Permutation (map customModelData sorted)
                    (map customModelData group)).
  { apply Permutation_map, sortBy_perm. }
  assert (Hasc : StronglySorted Z.lt (map customModelData sorted)).
  { apply sorted_distinct_ascending; [apply sortBy_sorted|].
    apply (Permutation_NoDup (Permutation_sym Hperm)).
    rewrite Hgroup. apply distinct_targeting.
    now apply distinctIdentifiers_filter. }
  unfold Exporter.itemDefinition in Hdef. cbn [fst snd] in Hdef.
  fold sorted in Hdef. rewrite <- Hgroup. cbv zeta.
  destruct (48 <=? format pack)%Z; injection Hdef as <- <-.
  - rewrite thresholds_itemDef. now repeat split.
  - rewrite overrideIdentifiers_itemModel. now repeat split.
Qed.

Lemma selection_entries_ascending_witness :
  Exporter.distinctIdentifiers (models Samples.pack) = true /\
  In (str "assets/minecraft/items/stick.json",
      Exporter.ZJson (Exporter.itemDef (str "stick") Samples.stickModels))
     (Exporter.itemDefinitions Samples.pack) /\
  StronglySorted Z.lt
    (Exporter.thresholds (Exporter.itemDef (str "stick") Samples.stickModels)).
Proof.
  assert (Hd : Exporter.distinctIdentifiers (models Samples.pack) = true)
    by reflexivity.
  assert (Hin : In (str "assets/minecraft/items/stick.json",
                    Exporter.ZJson
                      (Exporter.itemDef (str "stick") Samples.stickModels))
                   (Exporter.itemDefinitions Samples.pack))
    by (left; reflexivity).
  split; [exact Hd|]. split; [exact Hin|].
  destruct (selection_entries_ascending Samples.pack _ _ Hd Hin) as [item H].
  exact (proj1 (proj2 H)).
Defined.

(** ** Validation and export of a zero identifier *)

(** C1 at its failing input.  The pack whose one model has the primary
    identifier 0: [validateModel] reports "Valid custom model data is
    required" for the model, and the Platform A export passes it over; it
    writes no selection document and no model document. *)
Theorem zero_identifier_is_rejected_and_dropped :
  Validation.errors (Validation.validateModel Samples.baseOverride)
  = [Validation.ValidCustomModelDataRequired] /\
  Validation.isValid (Validation.validateModel Samples.baseOverride) = false /\
  option_map Validation.isValid
    (Validation.validateResourcePack Samples.zeroPack) = Some true /\
  Exporter.validModels Samples.zeroPack = [] /\
  Exporter.itemDefinitions Samples.zeroPack = [] /\
  map Exporter.modelFile (Exporter.validModels Samples.zeroPack) = [].
Proof. repeat split. Qed.

(** The same for every model: a zero identifier is an error of
    [validateModel] and is filtered out of the export. *)
Lemma zero_identifier_never_valid (m : ModelData) (pack : ResourcePack) :
  customModelData m = 0%Z ->
  In Validation.ValidCustomModelDataRequired
     (Validation.errors (Validation.validateModel m)) /\
  ~ In m (Exporter.validModels pack).
Proof.
  intros H. split.
  - unfold Validation.validateModel. simpl. rewrite H. simpl.
    apply in_or_app. right. now left.
  - unfold Exporter.validModels. intros Hin.
    apply filter_In in Hin as [_ Hv].
    unfold Exporter.isValidModel in Hv. rewrite H in Hv. discriminate.
Qed.

(** ** Geometry conversion of nested groups *)

(** No bone of a converted geometry has a parent, and there are no more
    bones than entries at the top of the outliner. *)
Lemma convertToBedrock_flat (now : jstring) (data : Bbmodel.BbmodelData)
    (modelName : jstring) :
  exists g,
    Bbmodel.convertToBedrock now data modelName = Some g /\
    Forall (fun b => bone_parent b = None) (bones g) /\
    length (bones g)
    <= length (match Bbmodel.outliner data with
               | Some items => items
               | None => []
               end).
Proof.
  eexists. split; [reflexivity|]. simpl.
  destruct (Bbmodel.outliner data) as [items|]; [|split; [constructor|]; auto].
  split.
  - apply Forall_forall. intros b Hb.
    apply in_flat_map in Hb as [item [_ Hb]].
    destruct item as [ref|n o r c]; simpl in Hb.
    + destruct (truthy ref); simpl in Hb; [|contradiction].
      destruct Hb as [<-|[]]. reflexivity.
    + destruct Hb as [<-|[]]. reflexivity.
  - induction items as [|item items IH]; simpl; [auto|].
    rewrite length_app.
    destruct (Bbmodel.processBone now (Bbmodel.elements data) item None);
      simpl; lia.
Qed.

(** C3 at its failing input.  The outliner holds the group "body" and,
    nested in it, the group "arm": two nodes.  The converter makes one
    bone, "body"; "arm" becomes no bone and no bone has a parent. *)
Theorem nested_group_becomes_no_bone (now : jstring) :
  length (Bbmodel.nodes Samples.body) = 2 /\
  option_map (fun g => map (fun b => (bone_name b, bone_parent b)) (bones g))
    (Bbmodel.convertToBedrock now Samples.nestedModel (str "golem"))
  = Some [(str "body", None)].
Proof. split; reflexivity. Qed.

(** ** Validation and export of fonts *)

(** Neither validation reads the fonts of a pack. *)
Lemma validation_ignores_fonts (fs : list CustomFont) (pack : ResourcePack) :
  Validation.validateResourcePack (withFonts fs pack)
  = Validation.validateResourcePack pack /\
  Validation.validatePack (withFonts fs pack) = Validation.validatePack pack.
Proof. split; reflexivity. Qed.

(** C7 at its failing input.  A pack with a bitmap provider of ascent 10
    and height 8: both validations find it valid, with no error, and the
    export writes the font document with that ascent and height. *)
Theorem tall_bitmap_provider_passes_validation :
  Validation.validateResourcePack Samples.fontPack
  = Some {| Validation.isValid := true; Validation.errors := [] |} /\
  Validation.validatePack Samples.fontPack
  = Some {| Validation.isValid := true; Validation.errors := [] |} /\
  Exporter.fontFiles Samples.iconFont
  = [ (str "assets/minecraft/font/icons.json",
       Exporter.ZJson
         (Exporter.obj
            [ Exporter.fld "providers"
                (JArr [ Exporter.obj
                          [ Exporter.fld "type" (JStr (str "bitmap"));
                            Exporter.fld "file"
                              (JStr (str "minecraft:font/icons.png"));
                            Exporter.fld "ascent" (JNum 10);
                            Exporter.fld "height" (JNum 8);
                            Exporter.fld "chars" (JArr [JStr [57344%N]]) ] ])
            ])) ].
Proof. repeat split. Qed.

(** ** Effects on the pack *)

Section EffectFacts.
Import App.

Lemma run_app l1 l2 st : run (l1 ++ l2) st = run l2 (run l1 st).
Proof. unfold run. apply fold_left_app. Qed.

Lemma apply_leavesPack st e :
  leavesPack e = true -> resourcePack (apply st e) = resourcePack st.
Proof. destruct e; simpl; intros H; (discriminate || reflexivity). Qed.

Lemma run_leavesPack l st :
  forallb leavesPack l = true -> resourcePack (run l st) = resourcePack st.
Proof.
  revert st. induction l as [|e l IH]; intros st H; [reflexivity|].
  simpl in H. apply andb_true_iff in H as [He Hl].
  simpl. rewrite IH by exact Hl. now apply apply_leavesPack.
Qed.

Lemma trace_leavesPack l st :
  forallb leavesPack l = true ->
  Forall (fun s => resourcePack s = resourcePack st) (trace l st).
Proof.
  revert st. induction l as [|e l IH]; intros st H; simpl.
  - repeat constructor.
  - simpl in H. apply andb_true_iff in H as [He Hl].
    constructor; [reflexivity|].
    specialize (IH (apply st e) Hl).
    rewrite (apply_leavesPack st e He) in IH. exact IH.
Qed.

Lemma leavesPack_map (A : Type) (f : A -> Effect) (l : list A) :
  (forall a, leavesPack (f a) = true) -> forallb leavesPack (map f l) = true.
Proof.
  intros H. induction l as [|a l IH]; simpl; [reflexivity|].
  now rewrite H, IH.
Qed.

Lemma leavesPack_stepIf c step p : forallb leavesPack (stepIf c step p) = true.
Proof. now destruct c. Qed.

Lemma generateZip_leavesPack readmeA readmeB uuid geometryDoc st :
  forallb leavesPack (generateZip readmeA readmeB uuid geometryDoc st) = true.
Proof.
  unfold generateZip.
  destruct (Validation.validateResourcePack (resourcePack st)) as [validation|];
    [|reflexivity].
  cbv zeta. destruct (negb _); [reflexivity|].
  destruct (packEdition st);
    repeat (rewrite forallb_app || simpl);
    unfold modelSteps;
    repeat rewrite leavesPack_map by reflexivity;
    repeat rewrite leavesPack_stepIf;
    reflexivity.
Qed.

End EffectFacts.

(** C8. The export reads the pack and never writes it: in every state the
    component goes through while [generateZip] runs, the last one
    included, the pack is the one it started from, field by field. *)
Theorem export_leaves_pack_unchanged
    (javaReadme bedrockReadme : ResourcePack -> list ModelData -> jstring)
    (uuidv4 : nat -> jstring) (geometryDoc : BedrockGeometry -> json)
    (st : App.AppState) :
  let effects :=
    App.generateZip javaReadme bedrockReadme uuidv4 geometryDoc st in
  Forall (fun s => App.resourcePack s = App.resourcePack st)
         (App.trace effects st) /\
  App.resourcePack (App.run effects st) = App.resourcePack st.
Proof.
  intros effects. split.
  - apply trace_leavesPack, generateZip_leavesPack.
  - apply run_leavesPack, generateZip_leavesPack.
Qed.

(** ** Merge: what reaches the pack *)

Section MergeEffectFacts.
Import Merge App.

(** The merged textures do not depend on what the model documents parse
    to. *)
Lemma mergeEntry_textures parse1 parse2 conflicts packName m1 m2 e :
  mergedTextures m1 = mergedTextures m2 ->
  mergedTextures (mergeEntry parse1 conflicts packName m1 e)
  = mergedTextures (mergeEntry parse2 conflicts packName m2 e).
Proof.
  intros H. unfold mergeEntry.
  destruct (dir (snd e)); [exact H|].
  destruct (isTexturePath (fst e)).
  - destruct (findConflict conflicts (fst e)) as [c|]; simpl;
      [destruct (resolution c)|]; simpl; rewrite ?H; try reflexivity.
    destruct (hasKey (fst e) (mergedTextures m2)); simpl; now rewrite ?H.
  - destruct (isModelPath (fst e)); [|exact H].
    destruct (parse1 (data (snd e))); destruct (parse2 (data (snd e)));
      exact H.
Qed.

Lemma fold_mergeEntry_textures parse1 parse2 conflicts packName files m1 m2 :
  mergedTextures m1 = mergedTextures m2 ->
  mergedTextures (fold_left (mergeEntry parse1 conflicts packName) files m1)
  = mergedTextures (fold_left (mergeEntry parse2 conflicts packName) files m2).
Proof.
  revert m1 m2. induction files as [|e files IH]; intros m1 m2 H; [exact H|].
  simpl. apply IH. now apply mergeEntry_textures.
Qed.

Lemma mergePacksFrom_textures parse1 parse2 conflicts packs m1 m2 :
  mergedTextures m1 = mergedTextures m2 ->
  option_map (@mergedTextures) (mergePacksFrom parse1 conflicts m1 packs)
  = option_map (@mergedTextures) (mergePacksFrom parse2 conflicts m2 packs).
Proof.
  revert m1 m2. induction packs as [|pack packs IH]; intros m1 m2 H; simpl.
  - now rewrite H.
  - destruct (pack_files pack) as [files|]; [|reflexivity].
    apply IH. now apply fold_mergeEntry_textures.
Qed.

Lemma withTextures_same (rp : ResourcePack) : withTextures (textures rp) rp = rp.
Proof. now destruct rp. Qed.

End MergeEffectFacts.

(** C9 at its failing input.  One uploaded pack holds an animated texture:
    the image [ruby.png] and, beside it, the document of its animation,
    [ruby.png.mcmeta], which no browser loads as an image.  Both are under
    [textures/], so both are merged as texture files.  The merge appends
    the texture of the image and then waits for the size of the document
    for ever: the second file is never appended, the editor stays busy,
    neither the message of success nor the message of failure is shown,
    and the uploaded packs are still listed. *)
Theorem merge_waits_on_animation_document :
  let st := Samples.merging [Samples.animatedPack] in
  let st' :=
    App.run (App.executeMerge decimal Samples.noJSON Samples.imageSize st)
      st in
  option_map (fun m => keys (Merge.mergedTextures m))
    (Merge.mergeAll Samples.noJSON (App.mergeConflicts st)
       (App.mergePacks st))
  = Some [Samples.rubyPath; Samples.rubyMeta] /\
  map tex_name (textures (App.resourcePack st'))
  = map tex_name (textures (App.resourcePack st)) ++ [str "ruby"] /\
  App.isProcessing st' = true /\
  App.alerts st' = [] /\
  App.mergePacks st' = App.mergePacks st.
Proof. vm_compute. repeat split. Qed.

(** ** Merge: which contributor survives *)

Section MergeFacts.
Import Merge.

Variable parseJSON : list N -> option json.
Variable conflicts : list MergeConflict.

Lemma fold_step_pack packName files m :
  fold_left (step parseJSON conflicts) (map (fun e => (packName, e)) files) m
  = fold_left (mergeEntry parseJSON conflicts packName) files m.
Proof.
  revert m. induction files as [|e files IH]; intros m; [reflexivity|].
  simpl. apply IH.
Qed.

(** Loaded packs are merged entry by entry in scan order. *)
Lemma mergePacksFrom_loaded packs m :
  mergePacksFrom parseJSON conflicts m (loaded packs)
  = Some (fold_left (step parseJSON conflicts) (scanned packs) m).
Proof.
  revert m. induction packs as [|[packName files] packs IH]; intros m;
    [reflexivity|].
  simpl. rewrite IH. unfold scanned. simpl.
  now rewrite fold_left_app, fold_step_pack.
Qed.

(** An entry that is not written at [t] leaves [t] as it is. *)
Lemma step_elsewhere t m x :
  writesTo conflicts t x = false ->
  getKey t (mergedTextures (step parseJSON conflicts m x)) = getKey t (mergedTextures m).
Proof.
  unfold writesTo, writeTarget, step, mergeEntry, pathOf, entryOf, packNameOf.
  destruct x as [packName [path entry]]. simpl.
  destruct (dir entry); [reflexivity|]. simpl.
  destruct (isTexturePath path); simpl.
  - destruct (findConflict conflicts path) as [c|];
      [destruct (resolution c)|]; intros H; apply jeqb_neq in H;
      try (simpl; now apply getKey_setKey_other).
    destruct (hasKey path (mergedTextures m)); [reflexivity|].
    simpl. now apply getKey_setKey_other.
  - intros _. destruct (isModelPath path); [|reflexivity].
    now destruct (parseJSON (data entry)).
Qed.

(** A directory entry changes nothing. *)
Lemma step_dir m x : dir (entryOf x) = true -> step parseJSON conflicts m x = m.
Proof.
  unfold step, mergeEntry, entryOf. intros H. now rewrite H.
Qed.

Lemma contributors_snoc p l y :
  contributors p (l ++ [y])
  = contributors p l ++ (if contributes p y then [y] else []).
Proof.
  unfold contributors. rewrite filter_app. simpl.
  now destruct (contributes p y).
Qed.

Lemma lastOf_snoc (A : Type) (l : list A) (y : A) : lastOf (l ++ [y]) = Some y.
Proof. unfold lastOf. now rewrite rev_app_distr. Qed.

Lemma hd_error_app (A : Type) (l l' : list A) :
  hd_error (l ++ l') = match l with [] => hd_error l' | x :: _ => Some x end.
Proof. now destruct l. Qed.

Section OnePath.
Variable p : jstring.
Variable c : MergeConflict.
Hypothesis Htexture : isTexturePath p = true.
Hypothesis Hconflict : findConflict conflicts p = Some c.

(** What a step does with a contributor of [p], mode by mode. *)
Lemma step_contributor m x :
  contributes p x = true ->
  mergedTextures (step parseJSON conflicts m x) =
  match resolution c with
  | Overwrite => setKey p (fileAt p (entryOf x)) (mergedTextures m)
  | Skip =>
      if hasKey p (mergedTextures m) then mergedTextures m
      else setKey p (fileAt p (entryOf x)) (mergedTextures m)
  | Rename =>
      setKey (renamed p (packNameOf x))
        (fileAt (renamed p (packNameOf x)) (entryOf x)) (mergedTextures m)
  end.
Proof.
  unfold contributes, step, mergeEntry, pathOf, entryOf, packNameOf.
  destruct x as [packName [path entry]]. simpl.
  intros H. apply andb_true_iff in H as [Hp Hd].
  apply jeqb_eq in Hp. subst path. apply negb_true_iff in Hd.
  rewrite Hd, Htexture, Hconflict.
  destruct (resolution c); try reflexivity.
  now destruct (hasKey p (mergedTextures m)).
Qed.

(** An entry that does not contribute to [p] and is kept away from [t]
    leaves [t] as it is. *)
Lemma step_bystander t m x :
  contributes p x = false ->
  jeqb (pathOf x) p || negb (writesTo conflicts t x) = true ->
  getKey t (mergedTextures (step parseJSON conflicts m x)) = getKey t (mergedTextures m).
Proof.
  intros Hc Hq. unfold contributes in Hc.
  destruct (jeqb (pathOf x) p); simpl in *.
  - apply negb_false_iff in Hc. now rewrite step_dir.
  - apply negb_true_iff in Hq. now apply step_elsewhere.
Qed.

Lemma keptAway_target targets l x t :
  keptAway conflicts p targets l -> In x l -> In t targets ->
  jeqb (pathOf x) p || negb (writesTo conflicts t x) = true.
Proof.
  intros Hk Hx Ht. specialize (Hk x Hx).
  destruct (jeqb (pathOf x) p); [reflexivity|]. simpl in *.
  rewrite forallb_forall in Hk. now apply Hk.
Qed.

Lemma keptAway_prefix targets l y :
  keptAway conflicts p targets (l ++ [y]) ->
  keptAway conflicts p targets l /\
  jeqb (pathOf y) p
  || forallb (fun t => negb (writesTo conflicts t y)) targets = true.
Proof.
  intros H. split.
  - intros x Hx. apply H, in_or_app. now left.
  - apply H, in_or_app. right. now left.
Qed.

(** Overwrite: the last contributor scanned so far is at [p]. *)
Lemma overwrite_keeps_last targets l :
  resolution c = Overwrite -> In p targets -> keptAway conflicts p targets l ->
  forall x, lastOf (contributors p l) = Some x ->
    getKey p (mergedTextures (fold_left (step parseJSON conflicts) l start))
    = Some (fileAt p (entryOf x)).
Proof.
  intros Hmode Hp.
  induction l as [|y l IH] using rev_ind; intros Hk x Hx; [discriminate|].
  apply keptAway_prefix in Hk as [Hk Hy].
  rewrite fold_left_app. simpl.
  rewrite contributors_snoc in Hx.
  destruct (contributes p y) eqn:Hc.
  - rewrite lastOf_snoc in Hx. injection Hx as <-.
    rewrite (step_contributor _ _ Hc), Hmode.
    apply getKey_setKey_same.
  - rewrite app_nil_r in Hx.
    rewrite (step_bystander p _ _ Hc).
    + now apply IH.
    + destruct (jeqb (pathOf y) p); [reflexivity|]. simpl in *.
      rewrite forallb_forall in Hy. now apply Hy.
Qed.

(** Skip: the first contributor scanned so far is at [p], and nothing is
    there before one is scanned. *)
Lemma skip_keeps_first targets l :
  resolution c = Skip -> In p targets -> keptAway conflicts p targets l ->
  getKey p (mergedTextures (fold_left (step parseJSON conflicts) l start))
  = option_map (fun x => fileAt p (entryOf x))
      (hd_error (contributors p l)).
Proof.
  intros Hmode Hp.
  induction l as [|y l IH] using rev_ind; intros Hk; [reflexivity|].
  apply keptAway_prefix in Hk as [Hk Hy].
  specialize (IH Hk).
  rewrite fold_left_app. simpl.
  rewrite contributors_snoc, hd_error_app.
  destruct (contributes p y) eqn:Hc.
  - rewrite (step_contributor _ _ Hc), Hmode.
    unfold hasKey. rewrite IH.
    destruct (contributors p l) as [|x0 rest]; simpl.
    + apply getKey_setKey_same.
    + rewrite IH. reflexivity.
  - rewrite (step_bystander p _ _ Hc).
    + rewrite IH. now destruct (contributors p l).
    + destruct (jeqb (pathOf y) p); [reflexivity|]. simpl in *.
      rewrite forallb_forall in Hy. now apply Hy.
Qed.

End OnePath.

End MergeFacts.

Section RenameFacts.
Import Merge.

Lemma getSubstitution_plain matched before after capture template :
  has DOLLAR template = false ->
  getSubstitution matched before after capture (template ++ str "$1")
  = template ++ capture.
Proof.
  unfold has.
  induction template as [|ch template IH].
  - intros _. cbn. now rewrite app_nil_r.
  - intros H. cbn -[N.eqb] in H. apply orb_false_iff in H as [Hch Ht].
    rewrite N.eqb_sym in Hch.
    cbn -[N.eqb str]. rewrite Hch. cbn [negb]. now rewrite IH.
Qed.

Lemma renamed_plain p packName stem ext :
  splitExtension isDot p = Some (stem, ext) ->
  has DOLLAR packName = false ->
  renamed p packName = stem ++ [95%N] ++ packName ++ ext.
Proof.
  intros Hs Hn. unfold renamed. rewrite Hs.
  change ([95%N] ++ packName ++ str "$1")
    with ((95%N :: packName) ++ str "$1").
  rewrite getSubstitution_plain; [reflexivity|].
  unfold has in *. cbn -[N.eqb]. exact Hn.
Qed.

Lemma plain_paths_differ stem ext (n1 n2 : jstring) :
  n1 <> n2 ->
  stem ++ [95%N] ++ n1 ++ ext <> stem ++ [95%N] ++ n2 ++ ext.
Proof.
  intros Hne E. apply app_inv_head in E. simpl in E.
  injection E as E. apply app_inv_tail in E. contradiction.
Qed.

Variable parseJSON : list N -> option json.
Variable conflicts : list MergeConflict.
Variable p : jstring.
Variable c : MergeConflict.
Hypothesis Htexture : isTexturePath p = true.
Hypothesis Hconflict : findConflict conflicts p = Some c.

(** Rename: every contributor scanned so far is at the path made from
    [p] and the name of its pack. *)
Lemma rename_keeps_all targets stem ext l :
  resolution c = Rename ->
  splitExtension isDot p = Some (stem, ext) ->
  (forall x, In x (contributors p l) -> has DOLLAR (packNameOf x) = false) ->
  NoDup (map packNameOf (contributors p l)) ->
  (forall x, In x (contributors p l) ->
             In (renamed p (packNameOf x)) targets) ->
  keptAway conflicts p targets l ->
  forall x, In x (contributors p l) ->
    getKey (renamed p (packNameOf x))
      (mergedTextures (fold_left (step parseJSON conflicts) l start))
    = Some (fileAt (renamed p (packNameOf x)) (entryOf x)).
Proof.
  intros Hmode Hext.
  induction l as [|y l IH] using rev_ind;
    intros Hplain Hnodup Htargets Hk x Hx; [contradiction|].
  apply keptAway_prefix in Hk as [Hk Hy].
  rewrite contributors_snoc in Hplain, Hnodup, Htargets, Hx.
  rewrite map_app in Hnodup.
  assert (IH' : forall x, In x (contributors p l) ->
            getKey (renamed p (packNameOf x))
              (mergedTextures (fold_left (step parseJSON conflicts) l start))
            = Some (fileAt (renamed p (packNameOf x)) (entryOf x))).
  { apply IH; auto.
    - intros z Hz. apply Hplain, in_or_app. now left.
    - now apply NoDup_app_remove_r in Hnodup.
    - intros z Hz. apply Htargets, in_or_app. now left. }
  rewrite fold_left_app. simpl.
  destruct (contributes p y) eqn:Hc.
  - rewrite (@step_contributor parseJSON conflicts p c Htexture Hconflict
               _ _ Hc), Hmode.
    apply in_app_or in Hx as [Hx|[<-|[]]]; [|apply getKey_setKey_same].
    rewrite getKey_setKey_other; [now apply IH'|].
    rewrite (@renamed_plain p (packNameOf y) stem ext Hext)
      by (apply Hplain, in_or_app; right; now left).
    rewrite (@renamed_plain p (packNameOf x) stem ext Hext)
      by (apply Hplain, in_or_app; now left).
    apply plain_paths_differ. intros E.
    apply NoDup_remove_2 in Hnodup. apply Hnodup.
    rewrite app_nil_r. rewrite E. now apply in_map.
  - rewrite app_nil_r in Hx.
    rewrite (@step_bystander parseJSON conflicts p _ _ _ Hc);
      [now apply IH'|].
    destruct (jeqb (pathOf y) p); [reflexivity|]. simpl in *.
    rewrite forallb_forall in Hy. apply Hy.
    apply Htargets, in_or_app. now left.
Qed.

End RenameFacts.

Section PackFacts.
Import Merge.

Lemma hasKey_false_notin (V : Type) (k : jstring) (m : entries V) :
  hasKey k m = false -> ~ In k (keys m).
Proof.
  unfold hasKey. induction m as [|[k' v] m IH]; simpl; [tauto|].
  destruct (jeqb k' k) eqn:E; [discriminate|].
  intros H [->|Hin]; [now rewrite jeqb_refl in E|now apply IH].
Qed.

Lemma contributors_absent p packName files :
  hasKey p files = false ->
  contributors p (map (fun e => (packName, e)) files) = [].
Proof.
  unfold hasKey, contributors, contributes, pathOf.
  induction files as [|[k v] files IH]; simpl; [reflexivity|].
  destruct (jeqb k p); [discriminate|]. simpl. exact IH.
Qed.

Lemma contributors_one_pack p packName files :
  uniqueKeys files = true ->
  let names :=
    map packNameOf (contributors p (map (fun e => (packName, e)) files)) in
  names = [] \/ names = [packName].
Proof.
  cbv zeta.
  induction files as [|[k v] files IH]; [now left|].
  intros H. simpl in H. apply andb_true_iff in H as [Hk Hu].
  apply negb_true_iff in Hk.
  change (contributors p (map (fun e => (packName, e)) ((k, v) :: files)))
    with (if contributes p (packName, (k, v))
          then (packName, (k, v))
               :: contributors p (map (fun e => (packName, e)) files)
          else contributors p (map (fun e => (packName, e)) files)).
  destruct (contributes p (packName, (k, v))) eqn:Hc; [|now apply IH].
  unfold contributes, pathOf in Hc. simpl in Hc.
  apply andb_true_iff in Hc as [E _]. apply jeqb_eq in E. subst k.
  rewrite (contributors_absent _ _ _ Hk). now right.
Qed.

Lemma contributors_scanned_cons p packName files packs :
  contributors p (scanned ((packName, files) :: packs))
  = contributors p (map (fun e => (packName, e)) files)
    ++ contributors p (scanned packs).
Proof. unfold contributors, scanned. simpl. apply filter_app. Qed.

Lemma scanned_name_in packs x :
  In x (scanned packs) -> In (packNameOf x) (keys packs).
Proof.
  unfold scanned. intros H.
  apply in_flat_map in H as [[n files] [Hp Hx]].
  apply in_map_iff in Hx as [e [<- _]].
  unfold keys. change (packNameOf (fst (n, files), e)) with (fst (n, files)).
  now apply in_map.
Qed.

Lemma contributors_names_distinct p packs :
  uniqueKeys packs = true ->
  forallb (fun pk : LoadedPack => uniqueKeys (snd pk)) packs = true ->
  NoDup (map packNameOf (contributors p (scanned packs))).
Proof.
  induction packs as [|[n files] packs IH]; [constructor|].
  intros Hu Hf. simpl in Hu, Hf.
  apply andb_true_iff in Hu as [Hn Hu]. apply negb_true_iff in Hn.
  apply andb_true_iff in Hf as [Hfiles Hf].
  rewrite contributors_scanned_cons, map_app.
  specialize (IH Hu Hf).
  destruct (contributors_one_pack p n files Hfiles) as [E|E];
    cbv zeta in E; rewrite E; simpl; [exact IH|].
  constructor; [|exact IH].
  intros Hin. apply in_map_iff in Hin as [x [Hx Hin]].
  apply filter_In in Hin as [Hin _].
  apply scanned_name_in in Hin. rewrite Hx in Hin.
  now apply hasKey_false_notin in Hn.
Qed.

Lemma scanned_plain packs x :
  forallb (fun pk : LoadedPack => negb (has DOLLAR (fst pk))) packs = true ->
  In x (scanned packs) -> has DOLLAR (packNameOf x) = false.
Proof.
  intros Hf Hx. unfold scanned in Hx.
  apply in_flat_map in Hx as [[n files] [Hp Hx]].
  apply in_map_iff in Hx as [e [<- _]].
  rewrite forallb_forall in Hf. specialize (Hf _ Hp).
  now apply negb_true_iff in Hf.
Qed.

Lemma plainlyNamed_parts packs :
  plainlyNamed packs = true ->
  uniqueKeys packs = true /\
  forallb (fun pk : LoadedPack => uniqueKeys (snd pk)) packs = true /\
  forallb (fun pk : LoadedPack => negb (has DOLLAR (fst pk))) packs = true.
Proof.
  unfold plainlyNamed. intros H. apply andb_true_iff in H as [Hu Hf].
  split; [exact Hu|].
  rewrite forallb_forall in Hf.
  split; apply forallb_forall; intros pk Hpk; specialize (Hf pk Hpk);
    apply andb_true_iff in Hf as [H1 H2]; assumption.
Qed.

End PackFacts.

(** X21. Where the resolution of a conflict does decide.  Take a
    conflicting texture path and suppose no entry of another path is
    written where its contributors are.  Under overwrite the merged
    textures hold at that path the content of the last contributor
    scanned; under skip, the content of the first, the later ones being
    passed over.  Under rename, when the path has an extension and the
    packs have distinct names free of '$', every contributor is held at
    stem_name.extension, and these paths differ for different packs. *)
Theorem merge_resolution_decides
    (parseJSON : list N -> option json) (conflicts : list Merge.MergeConflict)
    (packs : list Merge.LoadedPack) (p : jstring) (c : Merge.MergeConflict) :
  Merge.isTexturePath p = true ->
  Merge.findConflict conflicts p = Some c ->
  Merge.undisturbed conflicts p (Merge.scanned packs) = true ->
  exists merged,
    Merge.mergeAll parseJSON conflicts (Merge.loaded packs) = Some merged /\
    let files := Merge.mergedTextures merged in
    let from := Merge.contributors p (Merge.scanned packs) in
    match Merge.resolution c with
    | Merge.Overwrite =>
        forall x, Merge.lastOf from = Some x ->
          getKey p files = Some (Merge.fileAt p (Merge.entryOf x))
    | Merge.Skip =>
        forall x, hd_error from = Some x ->
          getKey p files = Some (Merge.fileAt p (Merge.entryOf x))
    | Merge.Rename =>
        forall stem ext,
          splitExtension isDot p = Some (stem, ext) ->
          Merge.plainlyNamed packs = true ->
          forall x, In x from ->
            let newPath := stem ++ [95%N] ++ Merge.packNameOf x ++ ext in
            getKey newPath files
            = Some (Merge.fileAt newPath (Merge.entryOf x)) /\
            forall y, In y from ->
              Merge.packNameOf y <> Merge.packNameOf x ->
              stem ++ [95%N] ++ Merge.packNameOf y ++ ext <> newPath
    end.
Proof.
  intros Htexture Hconflict Hquiet.
  eexists. split.
  { unfold Merge.mergeAll. apply mergePacksFrom_loaded. }
  cbv zeta.
  set (scan := Merge.scanned packs) in *.
  set (targets := map (fun x => Merge.writeTarget conflicts
                                  (Merge.packNameOf x) p)
                      (Merge.contributors p scan)).
  assert (Hk : Merge.keptAway conflicts p targets scan).
  { unfold Merge.undisturbed in Hquiet. fold targets in Hquiet.
    rewrite forallb_forall in Hquiet. exact Hquiet. }
  assert (Htarget : forall x, In x (Merge.contributors p scan) ->
            In (match Merge.resolution c with
                | Merge.Rename => Merge.renamed p (Merge.packNameOf x)
                | _ => p
                end) targets).
  { intros x Hx. unfold targets.
    apply in_map_iff. exists x. split; [|exact Hx].
    unfold Merge.writeTarget. now rewrite Hconflict. }
  destruct (Merge.resolution c) eqn:Hmode.
  - intros x Hx.
    apply (@overwrite_keeps_last parseJSON conflicts p c Htexture Hconflict
             targets scan Hmode); [|exact Hk|exact Hx].
    unfold Merge.lastOf in Hx.
    destruct (rev (Merge.contributors p scan)) as [|z zs] eqn:R;
      [discriminate|].
    injection Hx as ->.
    assert (Hin : In x (Merge.contributors p scan)).
    { apply in_rev. rewrite R. now left. }
    exact (Htarget x Hin).
  - intros x Hx.
    assert (Hp : In p targets).
    { destruct (Merge.contributors p scan) as [|z zs] eqn:R;
        [discriminate|].
      apply (Htarget z). now left. }
    pose proof (@skip_keeps_first parseJSON conflicts p c Htexture Hconflict
                  targets scan Hmode Hp Hk) as E.
    rewrite Hx in E. exact E.
  - intros stem ext Hext Hplain x Hx.
    apply plainlyNamed_parts in Hplain as [Hu [Hfiles Hdollar]].
    assert (Hnames : forall z, In z (Merge.contributors p scan) ->
              has DOLLAR (Merge.packNameOf z) = false).
    { intros z Hz. apply filter_In in Hz as [Hz _].
      now apply (scanned_plain packs). }
    cbv zeta.
    rewrite <- (@renamed_plain p (Merge.packNameOf x) stem ext Hext)
      by (now apply Hnames).
    split.
    + apply (@rename_keeps_all parseJSON conflicts p c Htexture Hconflict
               targets stem ext scan Hmode Hext); auto.
      now apply contributors_names_distinct.
    + intros y Hy Hne.
      rewrite (@renamed_plain p (Merge.packNameOf x) stem ext Hext)
        by (now apply Hnames).
      now apply plain_paths_differ.
Qed.

Lemma merge_resolution_decides_witness :
  Merge.isTexturePath Samples.gemPath = true /\
  Merge.findConflict (Samples.conflictsAt Merge.Rename Samples.gemPath)
    Samples.gemPath = Some Samples.gemConflict /\
  Merge.undisturbed (Samples.conflictsAt Merge.Rename Samples.gemPath)
    Samples.gemPath (Merge.scanned (Samples.packsAt Samples.gemPath)) = true /\
  exists merged,
    Merge.mergeAll Samples.noJSON
      (Samples.conflictsAt Merge.Rename Samples.gemPath)
      (Merge.loaded (Samples.packsAt Samples.gemPath)) = Some merged /\
    getKey (str "assets/minecraft/textures/item/gem_a.png")
      (Merge.mergedTextures merged)
    = Some {| fileName := str "gem_a.png"; fileData := [1%N] |}.
Proof.
  split; [reflexivity|]. split; [reflexivity|]. split; [reflexivity|].
  destruct (@merge_resolution_decides Samples.noJSON
              (Samples.conflictsAt Merge.Rename Samples.gemPath)
              (Samples.packsAt Samples.gemPath) Samples.gemPath
              Samples.gemConflict eq_refl eq_refl eq_refl)
    as [merged [Hm H]].
  exists merged. split; [exact Hm|].
  refine (proj1 (H (str "assets/minecraft/textures/item/gem") (str ".png")
                   eq_refl eq_refl
                   (str "a", (Samples.gemPath, Samples.fileOfA)) _)).
  left. reflexivity.
Defined.

(** C6 at its failing input.  The packs "a" and "b" both hold a file at a
    texture path without extension and the conflict is resolved by
    rename, the choice the editor offers as "Rename (keep all)".  The
    pattern of the replacement asks for a final '.', so the renamed path
    is the path itself for both packs: the merged textures hold one
    entry, with the content of "b", and the file of "a" does not
    survive. *)
Theorem rename_without_extension_keeps_one :
  map Merge.packNameOf
    (Merge.contributors Samples.barePath
       (Merge.scanned (Samples.packsAt Samples.barePath)))
  = [str "a"; str "b"] /\
  option_map (fun c => Merge.resolution c)
    (Merge.findConflict (Samples.conflictsAt Merge.Rename Samples.barePath)
       Samples.barePath) = Some Merge.Rename /\
  option_map (@Merge.mergedTextures)
    (Merge.mergeAll Samples.noJSON
       (Samples.conflictsAt Merge.Rename Samples.barePath)
       (Merge.loaded (Samples.packsAt Samples.barePath)))
  = Some [ (Samples.barePath,
            {| fileName := str "gem"; fileData := [2%N] |}) ] /\
  Merge.renamed Samples.barePath (str "a") = Samples.barePath /\
  Merge.renamed Samples.barePath (str "b") = Samples.barePath.
Proof. repeat split. Qed.

(** Two more ways in which a renamed file is lost. *)

(** In the replacement text, "$1" in a pack name stands for the
    extension: the packs "$1" and ".png" rename a path to the same path. *)
Example rename_dollar_names_collide :
  Merge.renamed Samples.gemPath (str "$1")
  = Merge.renamed Samples.gemPath (str ".png").
Proof. reflexivity. Qed.

(** A pack "x" scanned last holds "gem_x.png", resolved by overwrite, and
    after it "gem.png", resolved by rename: the renamed file replaces the
    other one at "gem_x.png". *)
Example overwrite_disturbed_by_rename :
  let gem := str "textures/gem.png" in
  let gem_x := str "textures/gem_x.png" in
  let file n := {| Merge.dir := false; Merge.data := [n] |} in
  let packs :=
    [ (str "y", [(gem, file 1%N); (gem_x, file 2%N)]);
      (str "x", [(gem_x, file 3%N); (gem, file 4%N)]) ] in
  let conflicts :=
    [ {| Merge.conflict_path := gem; Merge.conflict_packs := [];
         Merge.resolution := Merge.Rename |};
      {| Merge.conflict_path := gem_x; Merge.conflict_packs := [];
         Merge.resolution := Merge.Overwrite |} ] in
  option_map (fun m => getKey gem_x (Merge.mergedTextures m))
    (Merge.mergeAll Samples.noJSON conflicts (Merge.loaded packs))
  = Some (Some {| fileName := str "gem_x.png"; fileData := [4%N] |}) /\
  Merge.undisturbed conflicts gem_x (Merge.scanned packs) = false.
Proof. split; reflexivity. Qed.

(** ** Worked examples *)

Section Examples.
Import Importer Merge.

Let icon : File := Samples.icon.

(** The ways a reference is recorded. *)
Example resolve_exact :
  resolveTexture
    (ordinary [(str "item/ruby", icon); (str "block/ruby", icon)])
    (str "minecraft:item/ruby")
  = {| finalTextureName := str "ruby"; textureFound := true |}.
Proof. reflexivity. Qed.

Example resolve_without_type_folder :
  resolveTexture
    (ordinary [(str "block/ruby", icon); (str "item/ruby", icon)])
    (str "entity/ruby")
  = {| finalTextureName := str "ruby"; textureFound := true |}.
Proof. reflexivity. Qed.

Example resolve_by_name :
  resolveTexture (ordinary [(str "block/gems/ruby", icon)])
    (str "minecraft:item/ruby")
  = {| finalTextureName := str "gems/ruby"; textureFound := true |}.
Proof. reflexivity. Qed.

Example resolve_not_found :
  resolveTexture (ordinary [(str "item/jade", icon)])
    (str "minecraft:item/gems/ruby")
  = {| finalTextureName := str "gems/ruby"; textureFound := false |}.
Proof. reflexivity. Qed.

(** A name every object inherits is found by strategy 2 in a map that
    holds no such key, before the key that matches by name is looked
    for. *)
Example resolve_inherited :
  resolveTexture (ordinary [(str "tools/constructor", icon)])
    (str "item/constructor")
  = {| finalTextureName := str "constructor"; textureFound := true |}.
Proof. reflexivity. Qed.

(** A texture stored under "__proto__" is no entry of the map but its
    prototype: a reference to "name" is then found, the name of the
    file. *)
Example resolve_through_file :
  let zip :=
    [ (str "assets/minecraft/textures/__proto__.png", Samples.fileOfA) ] in
  let textureMap := JavaImport.textureMapOf Samples.fileHolds zip in
  ownTextures textureMap = [] /\
  resolveTexture textureMap (str "item/name")
  = {| finalTextureName := str "name"; textureFound := true |} /\
  resolveTexture (ordinary []) (str "item/name")
  = {| finalTextureName := str "name"; textureFound := false |}.
Proof. repeat split. Qed.

(** Channels in hexadecimal. *)
Example channels_in_hex :
  map toString16 [0; 9; 255; 4096; -255]%Z
  = [str "0"; str "9"; str "ff"; str "1000"; str "-ff"].
Proof. reflexivity. Qed.

(** Lines the decoder passes over: comments, blank lines, lines without
    '=' and lines that begin with it. *)
Example decode_skips :
  Lang.convertBedrockLangToInternal
    (join [NL] [ str "## comment"; str "// note"; []; str "no separator";
                 str "=value"; str "  key = some value  "; str "key=other" ])
  = [(str "key", str "other")].
Proof. reflexivity. Qed.

(** Replacement patterns in a pack name. *)
Example rename_plain :
  renamed (str "textures/gem.png") (str "a") = str "textures/gem_a.png".
Proof. reflexivity. Qed.

Example rename_dotted_folder :
  renamed (str "textures.d/gem") (str "a") = str "textures_a.d/gem".
Proof. reflexivity. Qed.

Example rename_patterns :
  map (renamed (str "t/gem.png")) [str "a$$b"; str "x$&"; str "$10"; str "$2"; str "$"]
  = [ str "t/gem_a$b.png"; str "t/gem_x.png.png"; str "t/gem_.png0.png";
      str "t/gem_$2.png"; str "t/gem_$1" ].
Proof. reflexivity. Qed.

(** The override list of the legacy format, in ascending order. *)
Example legacy_overrides :
  map (fun w => match snd w with
                | Exporter.ZJson doc => (fst w, Exporter.overrideIdentifiers doc)
                | _ => (fst w, [])
                end)
      (Exporter.itemDefinitions Samples.legacyPack)
  = [ (str "assets/minecraft/models/item/stick.json", [1; 5; 9]%Z);
      (str "assets/minecraft/models/item/bow.json", [4]%Z) ].
Proof. reflexivity. Qed.

End Examples.

(* ================================================================== *)
(** * Further properties *)

(** ** Validation of a pack *)

Section ValidationFacts.
Import Validation Exporter.

Lemma existsb_Zeqb_In v seen : existsb (Z.eqb v) seen = true <-> In v seen.
Proof.
  rewrite existsb_exists. split.
  - intros [x [Hx E]]. apply Z.eqb_eq in E. now subst.
  - intros H. exists v. split; [exact H|apply Z.eqb_refl].
Qed.

(** [duplicatesFrom] finds nothing exactly in a list without repetition
    that avoids the values already seen. *)
Lemma duplicatesFrom_nil seen values :
  duplicatesFrom seen values = [] <->
  NoDup values /\ (forall v, In v values -> ~ In v seen).
Proof.
  revert seen. induction values as [|v values IH]; intros seen; simpl.
  - split; [intros _; split; [constructor|tauto]|reflexivity].
  - destruct (existsb (Z.eqb v) seen) eqn:E.
    + apply existsb_Zeqb_In in E. split; [discriminate|].
      intros [_ H]. exfalso. apply (H v); [now left|exact E].
    + assert (Hv : ~ In v seen).
      { intros Hin. apply existsb_Zeqb_In in Hin. congruence. }
      rewrite IH. split.
      * intros [Hn Hs]. split.
        -- constructor; [|exact Hn].
           intros Hin. apply (Hs v Hin). apply in_or_app. right. now left.
        -- intros x [<-|Hx]; [exact Hv|].
           intros Hin. apply (Hs x Hx). apply in_or_app. now left.
      * intros [Hn Hs]. inversion Hn as [|? ? Hnot Hn']; subst. split;
          [exact Hn'|].
        intros x Hx Hin. apply in_app_or in Hin as [Hin|[<-|[]]].
        -- apply (Hs x); [now right|exact Hin].
        -- contradiction.
Qed.

Lemma duplicates_nil values : duplicates values = [] <-> NoDup values.
Proof.
  unfold duplicates. rewrite duplicatesFrom_nil. split; [tauto|].
  intros H. split; [exact H|]. intros v _ [].
Qed.

(** The identifiers the validation groups under an item are those of the
    models that target it, in order. *)
Lemma targetItemGroups_group item values ms groups :
  targetItemGroups ms = Some groups ->
  In (item, values) groups ->
  values = map customModelData (targeting item ms).
Proof. apply (In_groupedUnder targetItem customModelData). Qed.

Lemma targetItemGroups_has m ms groups :
  targetItemGroups ms = Some groups ->
  In m ms ->
  In (targetItem m, map customModelData (targeting (targetItem m) ms)) groups.
Proof.
  intros H Hin.
  pose proof (getKey_groupedUnder targetItem customModelData (targetItem m)
                ms [] H) as G.
  simpl in G. fold (targeting (targetItem m) ms) in G.
  assert (Hm : In m (targeting (targetItem m) ms)).
  { apply filter_In. split; [exact Hin|apply jeqb_refl]. }
  destruct (targeting (targetItem m) ms) as [|x xs] eqn:T; [contradiction|].
  simpl in G. apply getKey_In in G as [k' [-> Hk]]. exact Hk.
Qed.

(** The grouping throws exactly when a model targets a name that every
    object inherits. *)
Lemma targetItemGroups_throws ms :
  targetItemGroups ms = None <->
  existsb (fun m => inherited (targetItem m)) ms = true.
Proof. now apply (groupedUnder_throws targetItem customModelData). Qed.

Lemma targeting_cons_sub item m ms :
  NoDup (map customModelData (targeting item (m :: ms))) ->
  NoDup (map customModelData (targeting item ms)).
Proof.
  unfold targeting. simpl. destruct (jeqb (targetItem m) item); simpl;
    [|auto].
  intros H. now inversion H.
Qed.

Lemma distinct_of_groups ms :
  (forall m, In m ms ->
     NoDup (map customModelData (targeting (targetItem m) ms))) ->
  distinctIdentifiers ms = true.
Proof.
  induction ms as [|m ms IH]; intros H; [reflexivity|].
  simpl. apply andb_true_iff. split.
  - apply forallb_forall. intros m' Hm'.
    apply negb_true_iff. apply andb_false_iff.
    destruct (jeqb (targetItem m) (targetItem m')) eqn:Et; [right|now left].
    apply Z.eqb_neq. intros Ec.
    specialize (H m (or_introl eq_refl)).
    unfold targeting in H. simpl in H. rewrite jeqb_refl in H. simpl in H.
    inversion H as [|? ? Hnot _]; subst. apply Hnot.
    rewrite Ec. apply in_map. apply filter_In. split; [exact Hm'|].
    now rewrite jeqb_sym.
  - apply IH. intros m' Hm'.
    apply (targeting_cons_sub _ m). apply H. now right.
Qed.

Lemma flat_map_nil (A B : Type) (f : A -> list B) (l : list A) :
  flat_map f l = [] <-> forall a, In a l -> f a = [].
Proof.
  induction l as [|a l IH]; simpl; [tauto|].
  split.
  - intros H. apply app_eq_nil in H as [Ha Hl].
    intros x [<-|Hx]; [exact Ha|]. now apply IH.
  - intros H. rewrite (H a (or_introl eq_refl)). apply IH.
    intros x Hx. apply H. now right.
Qed.

(** The duplicate check of [validateResourcePack] reports nothing exactly
    when no two models of one target item share an identifier. *)
Lemma duplicate_errors_nil ms groups :
  targetItemGroups ms = Some groups ->
  flat_map
    (fun g : jstring * list Z =>
       match duplicates (snd g) with
       | [] => []
       | ds => [DuplicateCustomModelData (fst g) ds]
       end)
    groups = []
  <-> distinctIdentifiers ms = true.
Proof.
  intros G. rewrite flat_map_nil. split.
  - intros H. apply distinct_of_groups. intros m Hm.
    apply duplicates_nil.
    specialize (H _ (targetItemGroups_has m ms G Hm)). simpl in H.
    destruct (duplicates (map customModelData (targeting (targetItem m) ms)));
      [reflexivity|discriminate].
  - intros H [item values] Hg. simpl.
    apply (targetItemGroups_group _ _ _ G) in Hg. subst values.
    pose proof (distinct_targeting item ms H) as Hn.
    apply duplicates_nil in Hn. now rewrite Hn.
Qed.

Lemma validateResourcePack_throws pack :
  validateResourcePack pack = None <->
  existsb (fun m => inherited (targetItem m)) (models pack) = true.
Proof.
  rewrite <- targetItemGroups_throws. unfold validateResourcePack.
  destruct (targetItemGroups (models pack)); split; (reflexivity || discriminate).
Qed.

(** When [validateResourcePack] accepts a pack. *)
Lemma validateResourcePack_accepts pack :
  option_map isValid (validateResourcePack pack) = Some true <->
  existsb (fun m => inherited (targetItem m)) (models pack) = false /\
  truthy (trim (name pack)) = true /\
  truthy (trim (description pack)) = true /\
  models pack <> [] /\
  distinctIdentifiers (models pack) = true.
Proof.
  pose proof (targetItemGroups_throws (models pack)) as T.
  unfold validateResourcePack.
  destruct (targetItemGroups (models pack)) as [groups|] eqn:G.
  - assert (I : existsb (fun m => inherited (targetItem m)) (models pack)
                = false).
    { destruct (existsb _ (models pack)); [|reflexivity].
      destruct T as [_ T]. discriminate (T eq_refl). }
    rewrite I. rewrite <- (duplicate_errors_nil _ G).
    unfold result, errorIf. simpl.
    destruct (truthy (trim (name pack))); simpl;
      [|split; [discriminate|intros [_ [H _]]; discriminate]].
    destruct (truthy (trim (description pack))); simpl;
      [|split; [discriminate|intros [_ [_ [H _]]]; discriminate]].
    destruct (models pack) as [|m ms] eqn:Hm; simpl;
      [split; [discriminate|intros [_ [_ [_ [H _]]]]; congruence]|].
    destruct (flat_map _ groups).
    + split; [intros _|reflexivity].
      repeat split. discriminate.
    + split; [discriminate|intros [_ [_ [_ [_ H]]]]; discriminate].
  - split; [discriminate|]. intros [I _].
    destruct T as [T _]. rewrite (T eq_refl) in I. discriminate.
Qed.

(** A pack that [validateResourcePack] accepts has no two models of one
    target item with the same identifier. *)
Lemma valid_pack_distinct pack :
  option_map isValid (validateResourcePack pack) = Some true ->
  distinctIdentifiers (models pack) = true.
Proof. intros H. now apply validateResourcePack_accepts in H. Qed.

End ValidationFacts.

(** X1. [validateResourcePack] throws a TypeError exactly when a model of
    the pack, whatever its identifier, targets a name that every object
    inherits, such as "constructor", "toString" or "__proto__".  It
    returns and finds the pack valid exactly when no model targets such a
    name, the name and the description of the pack are not blank, the
    pack has a model, and no two models of one target item share a
    primary identifier. *)
Theorem validateResourcePack_valid_iff (pack : ResourcePack) :
  (Validation.validateResourcePack pack = None <->
   existsb (fun m => inherited (targetItem m)) (models pack) = true) /\
  (option_map Validation.isValid (Validation.validateResourcePack pack)
   = Some true <->
   existsb (fun m => inherited (targetItem m)) (models pack) = false /\
   truthy (trim (name pack)) = true /\
   truthy (trim (description pack)) = true /\
   models pack <> [] /\
   Exporter.distinctIdentifiers (models pack) = true).
Proof.
  split.
  - apply validateResourcePack_throws.
  - apply validateResourcePack_accepts.
Qed.

(** ** What an export and a merge leave behind *)

Section OutcomeFacts.
Import Validation Exporter Merge App.

(** A field that no effect of a list writes is the same after the list. *)
Lemma run_keeps (A : Type) (field : AppState -> A) effects st :
  Forall (fun e => forall s, field (apply s e) = field s) effects ->
  field (run effects st) = field st.
Proof.
  revert st. induction effects as [|e effects IH]; intros st H;
    [reflexivity|].
  inversion H as [|? ? He Hrest]; subst.
  simpl. rewrite IH by exact Hrest. apply He.
Qed.

Lemma Forall_mapped (A : Type) (P : Effect -> Prop) (f : A -> Effect) l :
  (forall a, P (f a)) -> Forall P (map f l).
Proof.
  intros H. apply Forall_forall. intros e He.
  apply in_map_iff in He as [a [<- _]]. apply H.
Qed.

Lemma Forall_stepIf (P : Effect -> Prop) c step p :
  (forall s q, P (UpdateProgress s q)) -> Forall P (stepIf c step p).
Proof. intros H. destruct c; repeat constructor. apply H. Qed.

(** The steps of [generateZip] before the download show progress only. *)
Lemma progress_keeps (A : Type) (field : AppState -> A) :
  (forall s step q, field (apply s (UpdateProgress step q)) = field s) ->
  forall pack edition st,
    field (run (match edition with
                | Bedrock =>
                    [UpdateProgress (str "Creating Bedrock manifest...")
                       (Exactly 15);
                     UpdateProgress
                       (str "Creating Bedrock models and attachables...")
                       (Exactly 40)]
                    ++ modelSteps 40 30 (validModels pack)
                    ++ [UpdateProgress (str "Adding Bedrock textures...")
                          (Exactly 75);
                        UpdateProgress (str "Generating Geyser mapping...")
                          (Exactly 85)]
                | Java =>
                    [UpdateProgress (str "Creating item definitions...")
                       (Exactly 40);
                     UpdateProgress (str "Creating model files...")
                       (Exactly 60)]
                    ++ modelSteps 60 15 (validModels pack)
                    ++ [UpdateProgress (str "Adding textures...")
                          (Exactly 80)]
                    ++ stepIf (nonEmpty (fonts pack))
                         "Adding custom fonts..." 85
                    ++ stepIf (nonEmpty (pack_sounds pack))
                         "Adding sounds..." 90
                    ++ stepIf (nonEmpty (languages pack))
                         "Adding languages..." 92
                    ++ stepIf (nonEmpty (particles pack))
                         "Adding particles..." 93
                    ++ stepIf (nonEmpty (shaders pack))
                         "Adding shaders..." 94
                    ++ [UpdateProgress (str "Generating Geyser mapping...")
                          (Exactly 85)]
                end) st) = field st.
Proof.
  intros H pack edition st. apply run_keeps.
  destruct edition;
    repeat (apply Forall_app; split);
    try (apply Forall_stepIf; intros; apply H);
    try (unfold modelSteps; apply Forall_mapped; intros; apply H);
    repeat constructor; intros; apply H.
Qed.

(** The last steps of a successful export. *)
Lemma run_finish s fileName zip :
  let s' :=
    run [UpdateProgress (str "Generating ZIP file...") (Exactly 97);
         UpdateProgress (str "Complete!") (Exactly 100);
         Download fileName zip;
         SetIsProcessing false;
         SetProgress (Exactly 0);
         ShowAlert PackGenerated] s in
  isProcessing s' = false /\
  packEdition s' = packEdition s /\
  alerts s' = alerts s ++ [PackGenerated] /\
  downloads s' = downloads s ++ [(fileName, zip)].
Proof. repeat split. Qed.

End OutcomeFacts.

(** X2. [generateZip] stops at its validation.  When
    [validateResourcePack] throws, nothing catches the exception: no
    archive is downloaded, no message is shown and the processing flag
    stays up.  For a pack that [validateResourcePack] rejects it downloads
    nothing and shows the errors; for a pack it accepts it downloads one
    archive, the one of the selected edition, and reports success; in
    these two cases it ends with the processing flag down.  The edition is
    as it was in all three. *)
Theorem generateZip_outcome
    (javaReadme bedrockReadme : ResourcePack -> list ModelData -> jstring)
    (uuidv4 : nat -> jstring) (geometryDoc : BedrockGeometry -> json)
    (st : App.AppState) :
  let st' :=
    App.run (App.generateZip javaReadme bedrockReadme uuidv4 geometryDoc st)
      st in
  let pack := App.resourcePack st in
  App.packEdition st' = App.packEdition st /\
  match Validation.validateResourcePack pack with
  | None =>
      App.isProcessing st' = true /\
      App.alerts st' = App.alerts st /\
      App.downloads st' = App.downloads st
  | Some validation =>
      App.isProcessing st' = false /\
      if Validation.isValid validation then
        App.alerts st' = App.alerts st ++ [App.PackGenerated] /\
        App.downloads st'
        = App.downloads st
          ++ [match App.packEdition st with
              | App.Java =>
                  (orElse (name pack) (str "resource-pack") ++ str ".zip",
                   Exporter.archive (Exporter.javaWrites javaReadme pack))
              | App.Bedrock =>
                  (orElse (name pack) (str "resource-pack") ++ str "-bedrock"
                     ++ str ".zip",
                   Exporter.archive
                     (Exporter.bedrockWrites bedrockReadme uuidv4 geometryDoc
                        pack))
              end]
      else
        App.alerts st'
        = App.alerts st
          ++ [App.ValidationFailed (Validation.errors validation)] /\
        App.downloads st' = App.downloads st
  end.
Proof.
  intros st' pack. subst st'. unfold App.generateZip.
  fold pack.
  destruct (Validation.validateResourcePack pack) as [validation|];
    [|repeat split].
  cbv zeta.
  destruct (Validation.isValid validation); simpl negb; cbv iota;
    [|repeat split].
  rewrite !run_app.
  match goal with
  | |- context [App.run [?a; ?b; App.Download ?f ?z; ?c; ?d; ?e] ?s] =>
      destruct (run_finish s f z) as [H1 [H2 [H3 H4]]]
  end.
  cbv zeta in H1, H2, H3, H4. rewrite H1, H2, H3, H4. clear H1 H2 H3 H4.
  rewrite (progress_keeps App.packEdition) by reflexivity.
  rewrite (progress_keeps App.alerts) by reflexivity.
  rewrite (progress_keeps App.downloads) by reflexivity.
  split; [reflexivity|]. split; [reflexivity|]. split; [reflexivity|].
  simpl. f_equal. now destruct (App.packEdition st).
Qed.

(** X3. What passes the validation of [generateZip] needs no further
    care: in a pack that [validateResourcePack] accepts, every selection
    document the exporter writes lists its identifiers in strictly
    ascending order, in the dispatch branch (thresholds) and in the
    override branch (predicates) alike. *)
Theorem validated_pack_exports_ascending
    (pack : ResourcePack) (path : jstring) (doc : json) :
  option_map Validation.isValid (Validation.validateResourcePack pack)
  = Some true ->
  In (path, Exporter.ZJson doc) (Exporter.itemDefinitions pack) ->
  StronglySorted Z.lt
    (if (48 <=? format pack)%Z
     then Exporter.thresholds doc
     else Exporter.overrideIdentifiers doc).
Proof.
  intros Hv Hin.
  apply valid_pack_distinct in Hv as Hd.
  unfold Exporter.itemDefinitions in Hin.
  apply in_map_iff in Hin as [[item group] [Hdef Hg]].
  apply (In_grouped targetItem (fun m : ModelData => m)) in Hg.
  rewrite map_id in Hg.
  assert (Hasc : StronglySorted Z.lt
                   (map customModelData
                      (Exporter.sortBy Exporter.byCustomModelData group))).
  { apply sorted_distinct_ascending; [apply sortBy_sorted|].
    apply (Permutation_NoDup
             (Permutation_sym (Permutation_map _ (sortBy_perm group)))).
    rewrite Hg. apply distinct_targeting.
    now apply distinctIdentifiers_filter. }
  unfold Exporter.itemDefinition in Hdef. cbn [fst snd] in Hdef.
  destruct (48 <=? format pack)%Z; injection Hdef as _ <-.
  - now rewrite thresholds_itemDef.
  - now rewrite overrideIdentifiers_itemModel.
Qed.

Lemma validated_pack_exports_ascending_witness :
  option_map Validation.isValid
    (Validation.validateResourcePack Samples.legacyPack) = Some true /\
  StronglySorted Z.lt
    (Exporter.overrideIdentifiers
       (Exporter.itemModel (str "stick") Samples.stickModels)).
Proof.
  split; [reflexivity|].
  apply (validated_pack_exports_ascending Samples.legacyPack
           (str "assets/minecraft/models/item/stick.json")
           (Exporter.itemModel (str "stick") Samples.stickModels)
           eq_refl).
  left. reflexivity.
Defined.

Lemma truthy_trim s : truthy (trim s) = true -> truthy s = true.
Proof. destruct s; [discriminate|reflexivity]. Qed.

(** X4. The validation of a model is at least as strict as the filter of
    the export: a model that [validateModel] accepts has an identifier of
    1 or more and is among the models [generateZip] exports. *)
Theorem valid_model_is_exported (m : ModelData) (pack : ResourcePack) :
  Validation.isValid (Validation.validateModel m) = true ->
  In m (models pack) ->
  (1 <= customModelData m)%Z /\ In m (Exporter.validModels pack).
Proof.
  unfold Validation.validateModel, Validation.result, Validation.errorIf.
  simpl. intros Hv Hin.
  destruct (truthy (trim (model_name m))); simpl in Hv; [|discriminate].
  destruct (Z.eqb (customModelData m) 0) eqn:E0; simpl in Hv; [discriminate|].
  destruct (Z.ltb (customModelData m) 1) eqn:E1; simpl in Hv; [discriminate|].
  destruct (truthy (trim (targetItem m))) eqn:Et; simpl in Hv; [|discriminate].
  apply Z.ltb_ge in E1. split; [exact E1|].
  apply filter_In. split; [exact Hin|].
  unfold Exporter.isValidModel. rewrite E0. simpl.
  now apply truthy_trim.
Qed.

Lemma valid_model_is_exported_witness :
  Validation.isValid (Validation.validateModel (Samples.model "ruby" "stick" 9))
  = true /\
  In (Samples.model "ruby" "stick" 9) (Exporter.validModels Samples.pack).
Proof.
  split; [reflexivity|].
  apply (valid_model_is_exported (Samples.model "ruby" "stick" 9) Samples.pack
           eq_refl).
  left. reflexivity.
Defined.

(** ** Lists of keys and of groups *)

Lemma uniqueKeys_NoDup (V : Type) (m : entries V) :
  uniqueKeys m = true -> NoDup (keys m).
Proof.
  induction m as [|[k v] m IH]; simpl; [constructor|].
  intros H. apply andb_true_iff in H as [Hk Hu].
  apply negb_true_iff in Hk.
  constructor; [now apply hasKey_false_notin|now apply IH].
Qed.

Lemma flat_map_perm (A B : Type) (f g : A -> list B) (l : list A) :
  (forall a, In a l -> Permutation (f a) (g a)) ->
  Permutation (flat_map f l) (flat_map g l).
Proof.
  induction l as [|a l IH]; intros H; simpl; [constructor|].
  apply Permutation_app.
  - apply H. now left.
  - apply IH. intros x Hx. apply H. now right.
Qed.

(** The identifiers a selection document lists, whichever its shape. *)
Lemma itemDefinition_identifiers fmt (g : jstring * list ModelData) :
  match snd (Exporter.itemDefinition fmt g) with
  | Exporter.ZJson doc =>
      if (48 <=? fmt)%Z then Exporter.thresholds doc
      else Exporter.overrideIdentifiers doc
  | _ => []
  end
  = map customModelData (Exporter.sortBy Exporter.byCustomModelData (snd g)).
Proof.
  unfold Exporter.itemDefinition. cbn [fst snd].
  destruct (48 <=? fmt)%Z; cbn [snd].
  - apply thresholds_itemDef.
  - apply overrideIdentifiers_itemModel.
Qed.

(** ** The hash of an extended identifier *)

Section HashFacts.
Import Importer.

Lemma toInt32_repr z : exists k, toInt32 z = (z + 4294967296 * k)%Z.
Proof.
  unfold toInt32.
  exists (- ((z + 2147483648) / 4294967296))%Z.
  pose proof (Z.div_mod (z + 2147483648) 4294967296). lia.
Qed.

Lemma toInt32_shift z k : toInt32 (z + 4294967296 * k) = toInt32 z.
Proof.
  unfold toInt32.
  replace (z + 4294967296 * k + 2147483648)%Z
    with (z + 2147483648 + k * 4294967296)%Z by lia.
  now rewrite Z.mod_add by lia.
Qed.

(** One step: [(a << 5) - a + c] wraps to [31 * a + c]. *)
Lemma hashStep_31 a c : hashStep a c = toInt32 (31 * a + Z.of_N c).
Proof.
  unfold hashStep.
  destruct (toInt32_repr a) as [k1 E1]. rewrite E1.
  rewrite Z.shiftl_mul_pow2 by lia.
  destruct (toInt32_repr ((a + 4294967296 * k1) * 2 ^ 5)) as [k2 E2].
  rewrite E2.
  replace ((a + 4294967296 * k1) * 2 ^ 5 + 4294967296 * k2 - a + Z.of_N c)%Z
    with (31 * a + Z.of_N c + 4294967296 * (32 * k1 + k2))%Z by lia.
  apply toInt32_shift.
Qed.

Lemma fold_hashStep s p :
  fold_left hashStep s (toInt32 p)
  = toInt32 (fold_left (fun h c => (31 * h + Z.of_N c)%Z) s p).
Proof.
  revert p. induction s as [|c s IH]; intros p; [reflexivity|].
  simpl. rewrite hashStep_31.
  destruct (toInt32_repr p) as [k E]. rewrite E.
  replace (31 * (p + 4294967296 * k) + Z.of_N c)%Z
    with (31 * p + Z.of_N c + 4294967296 * (31 * k))%Z by lia.
  rewrite toInt32_shift. apply IH.
Qed.

End HashFacts.

(** X6. The hash of the import is the polynomial hash in base 31 of the
    code units of the serialized predicate, wrapped to 32 bits: each turn
    of [(a << 5) - a + c | 0] multiplies by 31 and adds the code unit.
    The synthetic identifier is its absolute value modulo 10000, plus 1. *)
Theorem hashString_is_polynomial31 (dataStr : jstring) :
  Importer.hashString dataStr
  = Importer.toInt32 (Importer.polynomial31 dataStr) /\
  Importer.syntheticId dataStr
  = (Z.abs (Importer.toInt32 (Importer.polynomial31 dataStr)) mod 10000 + 1)%Z.
Proof.
  assert (E : Importer.hashString dataStr
              = Importer.toInt32 (Importer.polynomial31 dataStr)).
  { unfold Importer.hashString, Importer.polynomial31.
    change 0%Z with (Importer.toInt32 0) at 1. apply fold_hashStep. }
  split; [exact E|]. unfold Importer.syntheticId. now rewrite E.
Qed.

(** ** Texture references: what a match points to *)


(** ** What a merge leaves behind *)

Section MergeOutcomeFacts.
Import Merge App.

Lemma mergePacksFrom_loads parseJSON conflicts packs m :
  match mergePacksFrom parseJSON conflicts m packs with
  | Some _ => true
  | None => false
  end = forallb loads packs.
Proof.
  revert m. induction packs as [|pack packs IH]; intros m; [reflexivity|].
  simpl. unfold loads at 1.
  destruct (pack_files pack); [apply IH|reflexivity].
Qed.

(** The last steps of a merge that went through. *)
Lemma run_merged s packs count :
  let s' :=
    run [UpdateProgress (str "Merge complete!") (Exactly 100);
         SetIsProcessing false;
         SetProgress (Exactly 0);
         SetMergePacks [];
         SetMergeConflicts [];
         ShowAlert (MergeDone packs count)] s in
  isProcessing s' = false /\
  packEdition s' = packEdition s /\
  downloads s' = downloads s /\
  resourcePack s' = resourcePack s /\
  mergePacks s' = [] /\
  mergeConflicts s' = [] /\
  alerts s' = alerts s ++ [MergeDone packs count].
Proof. repeat split. Qed.

(** The calls of [addTexture] that return append their textures, in
    order, and write no other field. *)
Lemma run_addTextures uuid dims merged n st :
  let images := loadedImages dims (map snd merged) in
  resourcePack (run (fst (addTextures uuid dims n merged)) st)
  = withTextures
      (textures (resourcePack st)
       ++ map (fun nf => newTexture uuid (fst nf) (fst (snd nf))
                           (snd (snd nf)))
            (combine (seq n (length images)) images))
      (resourcePack st).
Proof.
  revert n st.
  induction merged as [|[path file] merged IH]; intros n st; simpl.
  - now rewrite app_nil_r, withTextures_same.
  - unfold addTexture. destruct (dims file) as [dimensions|]; simpl.
    + specialize (IH (S n)).
      destruct (addTextures uuid dims (S n) merged) as [later finished].
      simpl in *. rewrite IH. simpl. now rewrite <- app_assoc.
    + now rewrite app_nil_r, withTextures_same.
Qed.

Lemma addTextures_keeps (A : Type) (field : AppState -> A)
    uuid dims merged n st :
  (forall f s, field (apply s (SetResourcePack f)) = field s) ->
  field (run (fst (addTextures uuid dims n merged)) st) = field st.
Proof.
  intros H. revert n st.
  induction merged as [|[path file] merged IH]; intros n st; simpl;
    [reflexivity|].
  unfold addTexture. destruct (dims file) as [dimensions|]; [|reflexivity].
  specialize (IH (S n)).
  destruct (addTextures uuid dims (S n) merged) as [later finished].
  simpl in *. now rewrite IH, H.
Qed.

(** The loop comes to its end when every file loads as an image, and only
    then. *)
Lemma addTextures_finished uuid dims merged n :
  snd (addTextures uuid dims n merged)
  = forallb (fun e => isImage dims (snd e)) merged.
Proof.
  revert n. induction merged as [|[path file] merged IH]; intros n; simpl;
    [reflexivity|].
  unfold addTexture, isImage.
  destruct (dims file) as [dimensions|]; [|reflexivity].
  specialize (IH (S n)).
  destruct (addTextures uuid dims (S n) merged) as [later finished].
  exact IH.
Qed.

Lemma loadedImages_length dims (merged : entries File) :
  length (loadedImages dims (map snd merged)) <= length merged /\
  (forallb (fun e => isImage dims (snd e)) merged = true ->
   length (loadedImages dims (map snd merged)) = length merged) /\
  (forallb (fun e => isImage dims (snd e)) merged = false ->
   length (loadedImages dims (map snd merged)) < length merged).
Proof.
  induction merged as [|[path file] merged (Hle & Hall & Hsome)]; simpl.
  - repeat split; [lia|discriminate].
  - unfold isImage. destruct (dims file) as [dimensions|]; simpl.
    + repeat split; [lia| |]; intros H;
        [rewrite (Hall H); reflexivity | specialize (Hsome H); lia].
    + repeat split; [lia|discriminate|lia].
Qed.

Lemma length_numbered (A : Type) (l : list A) n :
  length (combine (seq n (length l)) l) = length l.
Proof. rewrite length_combine, length_seq. apply Nat.min_id. Qed.

End MergeOutcomeFacts.

Ltac kept :=
  first [ apply Forall_mapped; intros; reflexivity
        | repeat constructor ].

(** X8. What a merge leaves behind.  Of the merged texture files, those
    that load as images are appended to the textures of the pack, in
    order, up to the first file that does not load; no other field of the
    pack is written, and nothing is downloaded.  When one of the uploaded
    packs cannot be loaded, nothing is appended, the uploaded packs and
    the conflicts stay, and the failure is shown.  When all load and every
    merged file is an image, the uploaded packs and the conflicts are
    cleared, the editor is idle again and the message counts the packs and
    exactly the textures that were added.  When all load and a merged file
    is no image, the operation never ends: fewer textures are added than
    were merged, the editor stays busy and no message is shown.  What the
    model documents of the packs parse to changes none of this. *)
Theorem executeMerge_outcome
    (uuidv4 : nat -> jstring) (getImageDimensions : File -> option (Z * Z))
    (parseJSON : list N -> option json) (st : App.AppState) :
  let st' := App.run (App.executeMerge uuidv4 parseJSON getImageDimensions st)
               st in
  let merged :=
    match Merge.mergeAll parseJSON (App.mergeConflicts st) (App.mergePacks st)
    with
    | Some m => Merge.mergedTextures m
    | None => []
    end in
  let images := App.loadedImages getImageDimensions (map snd merged) in
  let added :=
    map (fun nf => App.newTexture uuidv4 (fst nf) (fst (snd nf))
                     (snd (snd nf)))
        (combine (seq 0 (length images)) images) in
  App.resourcePack st'
  = withTextures (textures (App.resourcePack st) ++ added)
      (App.resourcePack st) /\
  App.packEdition st' = App.packEdition st /\
  App.downloads st' = App.downloads st /\
  (if forallb Merge.loads (App.mergePacks st) then
     if forallb (fun e => App.isImage getImageDimensions (snd e)) merged then
       length added = length merged /\
       App.isProcessing st' = false /\
       App.mergePacks st' = [] /\
       App.mergeConflicts st' = [] /\
       App.alerts st'
       = App.alerts st
         ++ [App.MergeDone (length (App.mergePacks st)) (length added)]
     else
       length added < length merged /\
       App.isProcessing st' = true /\
       App.mergePacks st' = App.mergePacks st /\
       App.mergeConflicts st' = App.mergeConflicts st /\
       App.alerts st' = App.alerts st
   else
     added = [] /\
     App.isProcessing st' = false /\
     App.mergePacks st' = App.mergePacks st /\
     App.mergeConflicts st' = App.mergeConflicts st /\
     App.alerts st' = App.alerts st ++ [App.MergeFailed]) /\
  forall parseJSON' : list N -> option json,
    App.run (App.executeMerge uuidv4 parseJSON' getImageDimensions st) st
    = st'.
Proof.
  intros st' merged images added.
  assert (Hparse : forall parseJSON' : list N -> option json,
             App.run (App.executeMerge uuidv4 parseJSON' getImageDimensions st)
               st = st').
  { intros parseJSON'. subst st'. unfold App.executeMerge.
    pose proof (mergePacksFrom_textures parseJSON' parseJSON
                  (App.mergeConflicts st) (App.mergePacks st)
                  Merge.start Merge.start eq_refl) as E.
    unfold Merge.mergeAll. fold Merge.start.
    destruct (Merge.mergePacksFrom parseJSON' _ _ _) as [m1|];
      destruct (Merge.mergePacksFrom parseJSON _ _ _) as [m2|];
      simpl in E; try discriminate; [|reflexivity].
    injection E as E. now rewrite E. }
  split; [|split; [|split; [|split; [|exact Hparse]]]];
    clear Hparse; subst st' added images merged; unfold App.executeMerge;
    rewrite <- ?(mergePacksFrom_loads parseJSON (App.mergeConflicts st)
                   (App.mergePacks st) Merge.start);
    unfold Merge.mergeAll; fold Merge.start;
    destruct (Merge.mergePacksFrom parseJSON (App.mergeConflicts st)
                Merge.start (App.mergePacks st)) as [m|];
    rewrite !run_app.
  - pose proof (run_addTextures uuidv4 getImageDimensions
                  (Merge.mergedTextures m) 0) as Hadd.
    destruct (App.addTextures uuidv4 getImageDimensions 0
                (Merge.mergedTextures m)) as [effects finished].
    rewrite run_app. simpl fst in Hadd.
    rewrite (run_keeps App.resourcePack (effects := if finished then _ else _))
      by (destruct finished; kept).
    rewrite Hadd. unfold App.mergeSteps.
    now rewrite !(run_keeps App.resourcePack) by kept.
  - unfold App.mergeSteps.
    rewrite !(run_keeps App.resourcePack) by kept.
    simpl. now rewrite app_nil_r, withTextures_same.
  - pose proof (fun s => addTextures_keeps App.packEdition uuidv4
                  getImageDimensions (Merge.mergedTextures m) 0 s
                  (fun f s' => eq_refl))
      as Hadd.
    destruct (App.addTextures uuidv4 getImageDimensions 0
                (Merge.mergedTextures m)) as [effects finished].
    rewrite run_app. simpl fst in Hadd.
    rewrite (run_keeps App.packEdition (effects := if finished then _ else _))
      by (destruct finished; kept).
    rewrite Hadd. unfold App.mergeSteps.
    now rewrite !(run_keeps App.packEdition) by kept.
  - unfold App.mergeSteps. now rewrite !(run_keeps App.packEdition) by kept.
  - pose proof (fun s => addTextures_keeps App.downloads uuidv4
                  getImageDimensions (Merge.mergedTextures m) 0 s
                  (fun f s' => eq_refl))
      as Hadd.
    destruct (App.addTextures uuidv4 getImageDimensions 0
                (Merge.mergedTextures m)) as [effects finished].
    rewrite run_app. simpl fst in Hadd.
    rewrite (run_keeps App.downloads (effects := if finished then _ else _))
      by (destruct finished; kept).
    rewrite Hadd. unfold App.mergeSteps.
    now rewrite !(run_keeps App.downloads) by kept.
  - unfold App.mergeSteps. now rewrite !(run_keeps App.downloads) by kept.
  - pose proof (addTextures_finished uuidv4 getImageDimensions
                  (Merge.mergedTextures m) 0) as Hfin.
    destruct (loadedImages_length getImageDimensions (Merge.mergedTextures m))
      as (_ & Hall & Hsome).
    pose proof (fun (A : Type) (field : App.AppState -> A) H s =>
                  addTextures_keeps field uuidv4 getImageDimensions
                    (Merge.mergedTextures m) 0 s H) as Hadd.
    destruct (App.addTextures uuidv4 getImageDimensions 0
                (Merge.mergedTextures m)) as [effects finished].
    simpl fst in Hadd. simpl snd in Hfin. rewrite <- Hfin.
    rewrite length_map, length_numbered.
    destruct finished.
    + rewrite (Hall (eq_sym Hfin)). rewrite run_app.
      match goal with
      | |- context [App.run [?a; ?b; ?c; ?d; ?e;
                             App.ShowAlert (App.MergeDone ?k ?n)] ?s] =>
          destruct (run_merged s k n) as (Hi & He & Hd & Hr & Hp & Hc & Ha)
      end.
      rewrite Hi, Hp, Hc, Ha.
      rewrite (Hadd _ App.alerts) by reflexivity.
      unfold App.mergeSteps.
      rewrite !(run_keeps App.alerts) by kept.
      repeat split.
    + specialize (Hsome (eq_sym Hfin)). rewrite run_app. simpl (App.run [] _).
      rewrite (Hadd _ App.alerts) by reflexivity.
      rewrite (Hadd _ App.isProcessing) by reflexivity.
      rewrite (Hadd _ App.mergePacks) by reflexivity.
      rewrite (Hadd _ App.mergeConflicts) by reflexivity.
      unfold App.mergeSteps.
      rewrite !(run_keeps App.alerts) by kept.
      rewrite !(run_keeps App.mergePacks) by kept.
      rewrite !(run_keeps App.mergeConflicts) by kept.
      rewrite (run_keeps App.isProcessing) by kept.
      repeat split. exact Hsome.
  - unfold App.mergeSteps.
    match goal with
    | |- context [App.run [?a; ?b; App.ShowAlert App.MergeFailed] ?s] =>
        assert (H : App.isProcessing
                      (App.run [a; b; App.ShowAlert App.MergeFailed] s)
                    = false /\
                    App.mergePacks
                      (App.run [a; b; App.ShowAlert App.MergeFailed] s)
                    = App.mergePacks s /\
                    App.mergeConflicts
                      (App.run [a; b; App.ShowAlert App.MergeFailed] s)
                    = App.mergeConflicts s /\
                    App.alerts
                      (App.run [a; b; App.ShowAlert App.MergeFailed] s)
                    = App.alerts s ++ [App.MergeFailed])
          by (repeat split);
        destruct H as (Hi & Hp & Hc & Ha)
    end.
    rewrite Hi, Hp, Hc, Ha.
    rewrite !(run_keeps App.alerts) by kept.
    rewrite !(run_keeps App.mergePacks) by kept.
    rewrite !(run_keeps App.mergeConflicts) by kept.
    repeat split.
Qed.

(** ** Language tables: what the decoder yields *)

Section DecoderFacts.
Import Lang.

Lemma trimStart_suffix s : exists w, s = w ++ trimStart s /\ Forall (fun c => isWhitespace c = true) w.
Proof.
  induction s as [|c s [w [E Hw]]]; [exists []; split; [reflexivity|constructor]|].
  simpl. destruct (isWhitespace c) eqn:W.
  - exists (c :: w). split; [simpl; now rewrite <- E|now constructor].
  - exists []. split; [reflexivity|constructor].
Qed.

Lemma headOk_trimStart s : headOk (trimStart s) = true.
Proof.
  induction s as [|c s IH]; [reflexivity|].
  simpl. destruct (isWhitespace c) eqn:W; [exact IH|].
  simpl. now rewrite W.
Qed.

Lemma trimEnd_prefix s : exists w, s = trimEnd s ++ w /\ Forall (fun c => isWhitespace c = true) w.
Proof.
  destruct (trimStart_suffix (rev s)) as [w [E Hw]].
  exists (rev w). split; [|now apply Forall_rev].
  unfold trimEnd. rewrite <- rev_app_distr, <- E. symmetry.
  apply rev_involutive.
Qed.

Lemma headOk_prefix a w : a <> [] -> headOk (a ++ w) = true -> headOk a = true.
Proof. destruct a; [congruence|intros _ H; exact H]. Qed.

Lemma trim_headOk s : headOk (trim s) = true /\ headOk (rev (trim s)) = true.
Proof.
  unfold trim. split.
  - destruct (trimEnd_prefix (trimStart s)) as [w [E _]].
    destruct (trimEnd (trimStart s)) eqn:T; [reflexivity|].
    apply (@headOk_prefix _ w); [discriminate|].
    rewrite <- E. apply headOk_trimStart.
  - unfold trimEnd. rewrite rev_involutive. apply headOk_trimStart.
Qed.

Lemma headOk_noOuterWhitespace s :
  headOk s = true -> headOk (rev s) = true -> noOuterWhitespace s = true.
Proof.
  destruct s as [|c s]; [reflexivity|].
  intros H1 H2. unfold noOuterWhitespace.
  apply andb_true_iff. split; [exact H1|].
  rewrite <- (hd_rev_last c s c).
  destruct (rev (c :: s)) as [|y r] eqn:R; [|exact H2].
  simpl in R. destruct (rev s); discriminate.
Qed.

Lemma noOuterWhitespace_trim s : noOuterWhitespace (trim s) = true.
Proof.
  destruct (trim_headOk s). now apply headOk_noOuterWhitespace.
Qed.

Lemma trim_within s : exists a b, s = a ++ trim s ++ b.
Proof.
  destruct (trimStart_suffix s) as [a [Ea _]].
  destruct (trimEnd_prefix (trimStart s)) as [b [Eb _]].
  exists a, b. unfold trim. now rewrite <- Eb.
Qed.

Lemma has_app c a b : has c (a ++ b) = has c a || has c b.
Proof. apply existsb_app. Qed.

Lemma has_trim c s : has c s = false -> has c (trim s) = false.
Proof.
  destruct (trim_within s) as [a [b E]]. intros H. rewrite E in H.
  rewrite !has_app in H.
  apply orb_false_iff in H as [_ H]. now apply orb_false_iff in H as [H _].
Qed.

Lemma has_firstn c n s : has c s = false -> has c (firstn n s) = false.
Proof.
  intros H. rewrite <- (firstn_skipn n s), has_app in H.
  now apply orb_false_iff in H as [H _].
Qed.

Lemma has_skipn c n s : has c s = false -> has c (skipn n s) = false.
Proof.
  intros H. rewrite <- (firstn_skipn n s), has_app in H.
  now apply orb_false_iff in H as [_ H].
Qed.

Lemma indexOf_firstn c s n :
  indexOf c s = Some n -> has c (firstn n s) = false.
Proof.
  revert n. induction s as [|x s IH]; intros n; simpl; [discriminate|].
  destruct (N.eqb x c) eqn:E.
  - intros H. injection H as <-. reflexivity.
  - destruct (indexOf c s) as [i|]; [|discriminate].
    intros H. injection H as <-. simpl.
    rewrite N.eqb_sym, E. now apply IH.
Qed.

Lemma split_segments c s : Forall (fun l => has c l = false) (split c s).
Proof.
  induction s as [|x s IH]; simpl; [repeat constructor|].
  destruct (N.eqb x c) eqn:E; [now constructor|].
  destruct (split c s) as [|seg segs]; [repeat constructor|].
  - simpl. now rewrite N.eqb_sym, E.
  - inversion IH as [|? ? Hseg Hsegs]; subst.
    constructor; [|exact Hsegs]. simpl. now rewrite N.eqb_sym, E.
Qed.

(** Trimming a string that begins with a visible unit keeps that unit and
    drops a blank end only. *)
Lemma trim_cons x l :
  isWhitespace x = false ->
  exists t w, trim (x :: l) = x :: t /\ x :: l = (x :: t) ++ w.
Proof.
  intros W. unfold trim. simpl trimStart. rewrite W.
  destruct (trimEnd_prefix (x :: l)) as [w [E Hw]].
  destruct (trimEnd (x :: l)) as [|y t].
  - simpl in E. subst w. inversion Hw; congruence.
  - exists t, w. injection E as <- E. split; [reflexivity|].
    simpl. now rewrite <- E.
Qed.

Lemma truthy_trim_cons x l :
  isWhitespace x = false -> truthy (trim (x :: l)) = true.
Proof.
  intros W. destruct (@trim_cons x l W) as [t [w [E _]]]. now rewrite E.
Qed.

Lemma forallb_setKey (V : Type) (P : jstring * V -> bool) k v m :
  P (k, v) = true -> forallb P m = true -> forallb P (setKey k v m) = true.
Proof.
  intros Hk. induction m as [|[k' v'] m IH]; simpl.
  - now rewrite Hk.
  - intros H. apply andb_true_iff in H as [H1 H2].
    destruct (jeqb k' k) eqn:E; simpl.
    + apply jeqb_eq in E. subst k'. now rewrite Hk, H2.
    + now rewrite H1, IH.
Qed.

Lemma startsWith_unit c x l : startsWith [c] (x :: l) = N.eqb c x.
Proof. simpl. apply andb_true_r. Qed.

Lemma startsWith_two c d x l :
  startsWith [c; d] (x :: l)
  = N.eqb c x && match l with y :: _ => N.eqb d y | [] => false end.
Proof. simpl. destruct l; [reflexivity|]. now rewrite andb_true_r. Qed.

(** What a line adds is an entry the encoder writes back unchanged. *)
Lemma decodeLine_entry line i :
  has NL line = false ->
  truthy (trim line) = true ->
  startsWith (str "#") (trim line) = false ->
  startsWith (str "//") (trim line) = false ->
  indexOf EQ (trim line) = Some (S i) ->
  plainEntry (trim (substringTo (S i) (trim line)),
              trim (substringFrom (S i + 1) (trim line))) = true.
Proof.
  intros Hnl Ht Hh Hs Hi.
  apply (has_trim NL) in Hnl.
  pose proof (indexOf_firstn _ _ Hi) as Heq.
  destruct (trim_headOk line) as [Hhead _].
  destruct (trim line) as [|x rest]; [discriminate|].
  simpl in Hhead. apply negb_true_iff in Hhead.
  unfold substringTo, substringFrom.
  assert (Hkey : has EQ (trim (firstn (S i) (x :: rest))) = false)
    by now apply has_trim.
  assert (Hknl : has NL (trim (firstn (S i) (x :: rest))) = false)
    by now apply has_trim, has_firstn.
  assert (Hvnl : has NL (trim (skipn (S i + 1) (x :: rest))) = false)
    by now apply has_trim, has_skipn.
  pose proof (noOuterWhitespace_trim (firstn (S i) (x :: rest))) as Hko.
  pose proof (noOuterWhitespace_trim (skipn (S i + 1) (x :: rest))) as Hvo.
  pose proof (firstn_skipn i rest) as Hrest.
  change (firstn (S i) (x :: rest)) with (x :: firstn i rest) in *.
  destruct (@trim_cons x (firstn i rest) Hhead) as [t [w [Et Ew]]].
  rewrite Et in *.
  unfold plainEntry.
  rewrite Hkey, Hknl, Hko, Hvo, Hvnl.
  change (str "#") with [35%N] in *.
  change (str "//") with [47%N; 47%N] in *.
  rewrite startsWith_unit in *. rewrite startsWith_two in *.
  rewrite Hh. cbn [truthy negb andb]. rewrite !andb_true_r.
  apply negb_true_iff.
  destruct (N.eqb 47 x); [|reflexivity].
  cbn [andb] in *.
  destruct t as [|y t]; [reflexivity|].
  injection Ew as Ew. rewrite Ew in Hrest. rewrite <- Hrest in Hs.
  exact Hs.
Qed.

Lemma decodeLine_keeps content line :
  has NL line = false ->
  readable content -> readable (decodeLine content line).
Proof.
  intros Hnl [Hu [He [Hp Hproto]]]. unfold decodeLine.
  destruct (truthy (trim line)) eqn:Ht; [|now repeat split].
  destruct (startsWith (str "#") (trim line)) eqn:Hh; [now repeat split|].
  destruct (startsWith (str "//") (trim line)) eqn:Hs; [now repeat split|].
  cbn [negb orb].
  destruct (indexOf EQ (trim line)) as [[|i]|] eqn:Hi;
    try now repeat split.
  split; [now apply uniqueKeys_assign|].
  split; [now apply enumerated_assign|].
  split.
  - apply forallb_assign; [|exact Hp]. now apply decodeLine_entry.
  - set (key := trim (substringTo (S i) (trim line))).
    destruct (jeqb key PROTO) eqn:E.
    + apply jeqb_eq in E. rewrite E. now rewrite assign_proto.
    + apply forallb_assign; [cbn [fst]; now rewrite E|exact Hproto].
Qed.

Lemma decodeLines_keep lines content :
  Forall (fun l => has NL l = false) lines ->
  readable content -> readable (fold_left decodeLine lines content).
Proof.
  revert content. induction lines as [|l lines IH]; intros content Hl H;
    [exact H|].
  inversion Hl as [|? ? H1 H2]; subst.
  simpl. apply IH; [exact H2|]. now apply decodeLine_keeps.
Qed.

End DecoderFacts.

(** X9. Whatever text is imported, the table [convertBedrockLangToInternal]
    reads from it has distinct, non-empty keys without '=', no key that
    begins with '#' or '//', and no key or value with a newline or with
    whitespace at either end; so exporting the table with
    [convertLangToBedrock] and importing the text again gives the same
    table. *)
Theorem imported_lang_reexports (langContent : jstring) :
  let content := Lang.convertBedrockLangToInternal langContent in
  uniqueKeys content = true /\
  forallb Lang.plainEntry content = true /\
  Lang.convertBedrockLangToInternal (Lang.convertLangToBedrock content)
  = content.
Proof.
  intros content.
  destruct (@decodeLines_keep (split NL langContent) []
              (split_segments NL langContent)
              (conj eq_refl (conj eq_refl (conj eq_refl eq_refl))))
    as [Hu [Hord [Hp Hproto]]].
  fold (Lang.convertBedrockLangToInternal langContent)
    in Hu, Hord, Hp, Hproto.
  fold content in Hu, Hord, Hp, Hproto.
  split; [exact Hu|]. split; [exact Hp|].
  unfold Lang.convertBedrockLangToInternal at 1, Lang.convertLangToBedrock.
  destruct content as [|kv rest] eqn:E; [reflexivity|].
  rewrite <- E in *.
  rewrite split_join.
  - rewrite decode_encoded_lines by exact Hp.
    now rewrite fold_assign_enumerated.
  - rewrite E. discriminate.
  - rewrite forallb_forall in Hp |- *.
    intros x Hx. apply in_map_iff in Hx as [e [<- He]].
    apply encoded_line_one_line. now apply Hp.
Qed.

(** ** Merge without renaming: every path *)

Section NoRenameFacts.
Import Merge.

Variable parseJSON : list N -> option json.
Variable conflicts : list MergeConflict.
Hypothesis Hno :
  forallb (fun c => match resolution c with Rename => false | _ => true end)
    conflicts = true.

Lemma found_not_renamed p c :
  findConflict conflicts p = Some c -> resolution c <> Rename.
Proof.
  intros H E. apply find_some in H as [Hin _].
  rewrite forallb_forall in Hno. specialize (Hno _ Hin).
  rewrite E in Hno. discriminate.
Qed.

Lemma writeTarget_same packName path :
  writeTarget conflicts packName path = path.
Proof.
  unfold writeTarget.
  destruct (findConflict conflicts path) as [c|] eqn:F; [|reflexivity].
  pose proof (found_not_renamed _ F).
  now destruct (resolution c).
Qed.

(** An entry that is no texture file changes no texture. *)
Lemma step_other m x :
  isTexturePath (pathOf x) = false ->
  mergedTextures (step parseJSON conflicts m x) = mergedTextures m.
Proof.
  unfold step, mergeEntry, pathOf. intros H. rewrite H.
  destruct (dir (snd (snd x))); [reflexivity|].
  destruct (isModelPath (fst (snd x))); [|reflexivity].
  now destruct (parseJSON (data (snd (snd x)))).
Qed.

(** A file at a path without conflict is written there. *)
Lemma step_unlisted p m x :
  isTexturePath p = true -> findConflict conflicts p = None ->
  contributes p x = true ->
  mergedTextures (step parseJSON conflicts m x)
  = setKey p (fileAt p (entryOf x)) (mergedTextures m).
Proof.
  unfold contributes, step, mergeEntry, pathOf, entryOf, packNameOf.
  destruct x as [packName [path entry]]. simpl.
  intros Ht Hf H. apply andb_true_iff in H as [Hp Hd].
  apply jeqb_eq in Hp. subst path. apply negb_true_iff in Hd.
  now rewrite Hd, Ht, Hf.
Qed.

Lemma step_not_contributor p m x :
  contributes p x = false ->
  getKey p (mergedTextures (step parseJSON conflicts m x))
  = getKey p (mergedTextures m).
Proof.
  intros Hc. unfold contributes in Hc.
  destruct (jeqb (pathOf x) p) eqn:E; simpl in Hc.
  - apply negb_false_iff in Hc. now rewrite step_dir.
  - apply step_elsewhere. unfold writesTo.
    rewrite writeTarget_same, E. apply andb_false_r.
Qed.

Lemma scan_without_rename p l :
  getKey p (mergedTextures (fold_left (step parseJSON conflicts) l start))
  = if isTexturePath p then
      option_map (fun x => fileAt p (entryOf x))
        (match option_map resolution (findConflict conflicts p) with
         | Some Skip => hd_error (contributors p l)
         | _ => lastOf (contributors p l)
         end)
    else None.
Proof.
  induction l as [|y l IH] using rev_ind.
  { simpl. destruct (isTexturePath p); [|reflexivity].
    now destruct (option_map resolution (findConflict conflicts p))
      as [[| |]|]. }
  rewrite fold_left_app. simpl.
  rewrite contributors_snoc.
  destruct (contributes p y) eqn:Hc.
  2:{ rewrite app_nil_r, step_not_contributor by exact Hc. exact IH. }
  destruct (isTexturePath p) eqn:Ht.
  2:{ rewrite step_other; [exact IH|].
      unfold contributes in Hc. apply andb_true_iff in Hc as [Hp _].
      apply jeqb_eq in Hp. now rewrite Hp. }
  destruct (findConflict conflicts p) as [c|] eqn:Hf; simpl in *.
  - pose proof (found_not_renamed _ Hf) as Hr.
    rewrite (@step_contributor parseJSON conflicts p c Ht Hf _ _ Hc).
    destruct (resolution c); [| |congruence].
    + rewrite lastOf_snoc. apply getKey_setKey_same.
    + unfold hasKey. rewrite IH, hd_error_app.
      destruct (contributors p l) as [|x0 rest]; simpl.
      * apply getKey_setKey_same.
      * rewrite IH. reflexivity.
  - rewrite (@step_unlisted p _ y Ht Hf Hc), lastOf_snoc.
    apply getKey_setKey_same.
Qed.

End NoRenameFacts.

(** X10. When no conflict is set to rename, the merge is decided path by
    path, with no further condition: a path that holds no "textures/" is
    not among the merged textures; a texture path listed with skip holds
    the file of the first pack that has it; every other texture path,
    listed with overwrite or not listed at all, holds the file of the last
    pack that has it; and a path that no pack has a file at is absent. *)
Theorem merge_without_rename
    (parseJSON : list N -> option json) (conflicts : list Merge.MergeConflict)
    (packs : list Merge.LoadedPack) :
  forallb (fun c => match Merge.resolution c with
                    | Merge.Rename => false
                    | _ => true
                    end) conflicts = true ->
  exists merged,
    Merge.mergeAll parseJSON conflicts (Merge.loaded packs) = Some merged /\
    forall p,
      getKey p (Merge.mergedTextures merged)
      = if Merge.isTexturePath p then
          option_map (fun x => Merge.fileAt p (Merge.entryOf x))
            (match option_map Merge.resolution
                     (Merge.findConflict conflicts p) with
             | Some Merge.Skip =>
                 hd_error (Merge.contributors p (Merge.scanned packs))
             | _ => Merge.lastOf (Merge.contributors p (Merge.scanned packs))
             end)
        else None.
Proof.
  intros Hno. unfold Merge.mergeAll. rewrite mergePacksFrom_loaded.
  eexists. split; [reflexivity|].
  intros p. now apply scan_without_rename.
Qed.

Lemma merge_without_rename_witness :
  exists merged,
    Merge.mergeAll Samples.noJSON
      (Samples.conflictsAt Merge.Skip Samples.gemPath)
      (Merge.loaded (Samples.packsAt Samples.gemPath)) = Some merged /\
    getKey Samples.gemPath (Merge.mergedTextures merged)
    = Some {| fileName := str "gem.png"; fileData := [1%N] |}.
Proof.
  destruct (@merge_without_rename Samples.noJSON
              (Samples.conflictsAt Merge.Skip Samples.gemPath)
              (Samples.packsAt Samples.gemPath) eq_refl)
    as [merged [Hm H]].
  exists merged. split; [exact Hm|]. exact (H Samples.gemPath).
Defined.

(** ** The analysis of the uploaded packs *)

Section AnalysisFacts.
Import Merge.

(** The texture map of the analysis groups the texture files of the scan
    by path. *)
Lemma analyze_pack packName files textureMap :
  fold_left
    (fun acc e =>
       if negb (dir (snd e)) && isTexturePath (fst e)
       then pushTo (fst e) (packName, fileAt (fst e) (snd e)) acc
       else acc)
    files textureMap
  = grouped pathOf (fun x => (packNameOf x, fileAt (pathOf x) (entryOf x)))
      (filter (fun x => negb (dir (entryOf x)) && isTexturePath (pathOf x))
         (map (fun e => (packName, e)) files))
      textureMap.
Proof.
  revert textureMap.
  induction files as [|e files IH]; intros textureMap; [reflexivity|].
  simpl. rewrite IH. unfold entryOf, pathOf, packNameOf. simpl.
  now destruct (negb (dir (snd e)) && isTexturePath (fst e)).
Qed.

Lemma analyzeFrom_loaded packs textureMap :
  analyzeFrom textureMap (loaded packs)
  = Some (grouped pathOf
            (fun x => (packNameOf x, fileAt (pathOf x) (entryOf x)))
            (filter
               (fun x => negb (dir (entryOf x)) && isTexturePath (pathOf x))
               (scanned packs))
            textureMap).
Proof.
  revert textureMap.
  induction packs as [|[packName files] packs IH]; intros textureMap;
    [reflexivity|].
  simpl. rewrite IH, analyze_pack. unfold scanned. simpl.
  rewrite filter_app. unfold grouped. now rewrite fold_left_app.
Qed.

(** The texture files of the scan at a texture path are its
    contributors. *)
Lemma texture_files_at p scan :
  filter (fun x => jeqb (pathOf x) p)
    (filter (fun x => negb (dir (entryOf x)) && isTexturePath (pathOf x))
       scan)
  = if isTexturePath p then contributors p scan else [].
Proof.
  induction scan as [|x scan IH]; simpl.
  - now destruct (isTexturePath p).
  - unfold contributes at 1.
    destruct (jeqb (pathOf x) p) eqn:E.
    + apply jeqb_eq in E. rewrite E.
      destruct (dir (entryOf x)); simpl; [exact IH|].
      destruct (isTexturePath p) eqn:T; simpl.
      * rewrite E, jeqb_refl. now rewrite IH.
      * exact IH.
    + destruct (negb (dir (entryOf x)) && isTexturePath (pathOf x)); simpl;
        [rewrite E|]; exact IH.
Qed.

Lemma group_at p scan :
  map (fun x => (packNameOf x, fileAt (pathOf x) (entryOf x)))
    (contributors p scan)
  = map (fun x => (packNameOf x, fileAt p (entryOf x))) (contributors p scan).
Proof.
  apply map_ext_in. intros x Hx. apply filter_In in Hx as [_ Hx].
  unfold contributes in Hx. apply andb_true_iff in Hx as [Hx _].
  apply jeqb_eq in Hx. now rewrite Hx.
Qed.

Lemma conflict_paths_are_keys (textureMap : entries (list (jstring * File))) p :
  In p (map conflict_path
          (flat_map
             (fun e =>
                if Nat.ltb 1 (length (snd e))
                then [{| conflict_path := fst e;
                         conflict_packs := snd e;
                         resolution := Overwrite |}]
                else [])
             textureMap)) ->
  In p (keys textureMap).
Proof.
  induction textureMap as [|e tm IH]; simpl; [contradiction|].
  destruct (Nat.ltb 1 (length (snd e))); simpl.
  - intros [H|H]; [now left|right; now apply IH].
  - intros H. right. now apply IH.
Qed.

Lemma conflict_paths_distinct (textureMap : entries (list (jstring * File))) :
  uniqueKeys textureMap = true ->
  NoDup (map conflict_path
           (flat_map
              (fun e =>
                 if Nat.ltb 1 (length (snd e))
                 then [{| conflict_path := fst e;
                          conflict_packs := snd e;
                          resolution := Overwrite |}]
                 else [])
              textureMap)).
Proof.
  intros Hu. apply uniqueKeys_NoDup in Hu.
  induction textureMap as [|e tm IH]; simpl; [constructor|].
  inversion Hu as [|? ? Hnot Hrest]; subst.
  destruct (Nat.ltb 1 (length (snd e))); simpl; [|now apply IH].
  constructor; [|now apply IH].
  intros H. apply Hnot. now apply conflict_paths_are_keys.
Qed.

End AnalysisFacts.

(** X11. The analysis reports exactly the texture paths that two or more
    of the scanned files have, each once.  A conflict it stores lists the
    files at its path in scan order, each with the name of its pack, and
    is set to overwrite; a path of one file only, of directories, or
    without "textures/" is never reported. *)
Theorem analysis_finds_shared_paths (packs : list Merge.LoadedPack) :
  exists conflicts,
    Merge.analyzeMergeConflicts (Merge.loaded packs) = Some conflicts /\
    NoDup (map Merge.conflict_path conflicts) /\
    (forall c, In c conflicts ->
       let p := Merge.conflict_path c in
       let from := Merge.contributors p (Merge.scanned packs) in
       Merge.isTexturePath p = true /\
       (2 <= length from)%nat /\
       Merge.conflict_packs c
       = map (fun x => (Merge.packNameOf x,
                        Merge.fileAt p (Merge.entryOf x))) from /\
       Merge.resolution c = Merge.Overwrite) /\
    (forall p,
       Merge.isTexturePath p = true ->
       (2 <= length (Merge.contributors p (Merge.scanned packs)))%nat ->
       exists c, In c conflicts /\ Merge.conflict_path c = p).
Proof.
  unfold Merge.analyzeMergeConflicts. rewrite analyzeFrom_loaded.
  eexists. split; [reflexivity|].
  set (val := fun x : Merge.Scanned =>
                (Merge.packNameOf x,
                 Merge.fileAt (Merge.pathOf x) (Merge.entryOf x))).
  set (files := filter _ (Merge.scanned packs)).
  assert (Hu : uniqueKeys (grouped Merge.pathOf val files []) = true)
    by now apply uniqueKeys_grouped.
  split; [now apply conflict_paths_distinct|]. split.
  - intros c Hc. apply in_flat_map in Hc as [[k g] [Hin Hc]].
    simpl in Hc.
    destruct (Nat.ltb 1 (length g)) eqn:L; [|contradiction].
    destruct Hc as [<-|[]]. simpl.
    apply In_grouped in Hin. subst files.
    rewrite texture_files_at in Hin.
    apply Nat.ltb_lt in L.
    destruct (Merge.isTexturePath k); [|subst g; simpl in L; lia].
    unfold val in Hin. rewrite group_at in Hin. subst g.
    rewrite length_map in L.
    repeat split. exact L.
  - intros p Ht Hlen.
    pose proof (getKey_grouped Merge.pathOf val p files []) as G.
    simpl in G. subst files. rewrite texture_files_at, Ht in G.
    unfold val in G at 2. rewrite group_at in G.
    destruct (map _ (Merge.contributors p (Merge.scanned packs)))
      as [|y g] eqn:E.
    { apply (f_equal (@length _)) in E. rewrite length_map in E.
      simpl in E. lia. }
    apply getKey_In in G as [k [-> Hin]].
    eexists. split.
    + apply in_flat_map. exists (p, y :: g). split; [exact Hin|].
      simpl snd. rewrite <- E, length_map.
      apply Nat.ltb_lt in Hlen. rewrite Hlen. now left.
    + reflexivity.
Qed.

(** ** Editing the models *)

Section EditFacts.
Import Validation Exporter App.

Lemma existsb_eqb_In (existing : list Z) (n : Z) :
  existsb (fun v => Z.eqb v n) existing = true <-> In n existing.
Proof.
  rewrite existsb_exists. split.
  - intros [v [Hin E]]. apply Z.eqb_eq in E. now subst.
  - intros H. exists n. split; [exact H|apply Z.eqb_refl].
Qed.

(** What the loop returns is free, and every number it passed is taken. *)
Lemma firstFree_least turns existing n r :
  firstFree turns existing n = Some r ->
  (n <= r)%Z /\ ~ In r existing /\
  forall k, (n <= k < r)%Z -> In k existing.
Proof.
  revert n. induction turns as [|turns IH]; intros n; simpl; [discriminate|].
  destruct (existsb (fun v => Z.eqb v n) existing) eqn:E.
  - intros H. apply IH in H as (Hle & Hfree & Hbelow).
    apply existsb_eqb_In in E.
    split; [lia|]. split; [exact Hfree|].
    intros k Hk. destruct (Z.eq_dec k n) as [->|Hne]; [exact E|].
    apply Hbelow. lia.
  - intros H. injection H as <-. split; [lia|]. split.
    + intros Hin. apply existsb_eqb_In in Hin. congruence.
    + intros k Hk. lia.
Qed.

Lemma fewer_from_next (existing : list Z) (n : Z) :
  In n existing ->
  (length (filter (fun v => Z.leb (n + 1) v) existing)
   < length (filter (fun v => Z.leb n v) existing))%nat.
Proof.
  induction existing as [|v l IH]; simpl; [contradiction|].
  assert (Hmono : (length (filter (fun v => Z.leb (n + 1) v) l)
                   <= length (filter (fun v => Z.leb n v) l))%nat).
  { clear. induction l as [|w l IH]; simpl; [lia|].
    destruct (Z.leb (n + 1) w) eqn:A; destruct (Z.leb n w) eqn:B; simpl;
      try lia; apply Z.leb_le in A; apply Z.leb_gt in B; lia. }
  intros [->|Hin].
  - rewrite Z.leb_refl.
    replace (Z.leb (n + 1) n) with false by (symmetry; apply Z.leb_gt; lia).
    simpl. lia.
  - specialize (IH Hin).
    destruct (Z.leb (n + 1) v) eqn:A; destruct (Z.leb n v) eqn:B; simpl;
      try lia; apply Z.leb_le in A; apply Z.leb_gt in B; lia.
Qed.

(** The loop ends within as many turns as there are numbers, and one. *)
Lemma firstFree_ends turns existing n :
  (length (filter (fun v => Z.leb n v) existing) < turns)%nat ->
  exists r, firstFree turns existing n = Some r.
Proof.
  revert n. induction turns as [|turns IH]; intros n H; [lia|].
  simpl. destruct (existsb (fun v => Z.eqb v n) existing) eqn:E.
  - apply IH. apply existsb_eqb_In in E.
    pose proof (fewer_from_next existing n E). lia.
  - now exists n.
Qed.

Lemma distinctIdentifiers_snoc ms m :
  distinctIdentifiers ms = true ->
  forallb (fun m' => negb (jeqb (targetItem m') (targetItem m)
                           && Z.eqb (customModelData m')
                                    (customModelData m))) ms = true ->
  distinctIdentifiers (ms ++ [m]) = true.
Proof.
  induction ms as [|a ms IH]; simpl; [reflexivity|].
  intros H1 H2. apply andb_true_iff in H1 as [Ha Hd].
  apply andb_true_iff in H2 as [Hm Hms].
  rewrite forallb_app, Ha, IH by assumption. simpl. now rewrite Hm.
Qed.

Lemma withModels_same (rp : ResourcePack) : withModels (models rp) rp = rp.
Proof. now destruct rp. Qed.

Lemma withLayers_same (m : ModelData) : withLayers (model_textures m) m = m.
Proof. now destruct m. Qed.

Lemma state_same (st : AppState) (rp : ResourcePack) :
  rp = resourcePack st ->
  {| resourcePack := rp; packEdition := packEdition st;
     isProcessing := isProcessing st; processingStep := processingStep st;
     progress := progress st; mergePacks := mergePacks st;
     mergeConflicts := mergeConflicts st; alerts := alerts st;
     downloads := downloads st |} = st.
Proof. intros ->. now destruct st. Qed.

Lemma deleteKey_setKey_fresh (V : Type) k (v : V) m :
  hasKey k m = false -> deleteKey k (setKey k v m) = m.
Proof.
  unfold hasKey, deleteKey.
  induction m as [|[k' v'] m IH]; simpl.
  - now rewrite jeqb_refl.
  - destruct (jeqb k' k) eqn:E; [discriminate|].
    intros H. simpl. rewrite E. simpl. now rewrite IH.
Qed.

End EditFacts.

(** X12. [addModel] gives the new model the least identifier from 1 on
    that no model of the pack has, whatever the target items: the loop
    ends, the number is free and every smaller one is taken.  The model is
    appended, a pack without a shared identifier stays one, and the new
    model, which has no texture yet, fails [validateModel] for that alone
    while it is already among the models an export writes. *)
Theorem addModel_takes_least_free_identifier
    (spare : nat) (uuid : jstring) (st : App.AppState) :
  let ms := models (App.resourcePack st) in
  exists effects n,
    App.addModel (S (length ms) + spare) uuid st = Some effects /\
    let st' := App.run effects st in
    let model := App.newModel uuid (length ms) n in
    App.resourcePack st' = App.withModels (ms ++ [model]) (App.resourcePack st) /\
    (1 <= n)%Z /\
    ~ In n (map customModelData ms) /\
    (forall k, (1 <= k < n)%Z -> In k (map customModelData ms)) /\
    (Exporter.distinctIdentifiers ms = true ->
     Exporter.distinctIdentifiers (models (App.resourcePack st')) = true) /\
    Validation.errors (Validation.validateModel model)
    = [Validation.TextureRequired] /\
    In model (Exporter.validModels (App.resourcePack st')).
Proof.
  intros ms. unfold App.addModel. fold ms.
  destruct (@firstFree_ends (S (length ms) + spare) (map customModelData ms) 1)
    as [n Hn].
  { pose proof (filter_length_le (fun v => Z.leb 1 v)
                  (map customModelData ms)) as L.
    rewrite length_map in L. lia. }
  rewrite Hn. eexists. exists n. split; [reflexivity|].
  apply firstFree_least in Hn as (Hle & Hfree & Hbelow).
  cbn zeta.
  cbn [App.run fold_left App.apply App.resourcePack models App.withModels].
  fold ms.
  split; [reflexivity|]. split; [exact Hle|]. split; [exact Hfree|].
  split; [exact Hbelow|].
  split; [|split].
  - intros Hd. apply distinctIdentifiers_snoc; [exact Hd|].
    apply forallb_forall. intros m' Hm'. apply negb_true_iff.
    apply andb_false_iff. right. apply Z.eqb_neq.
    cbn [customModelData App.newModel].
    intros E. apply Hfree. rewrite <- E. now apply in_map.
  - unfold Validation.validateModel, Validation.result.
    cbn [Validation.errors].
    cbn [model_name customModelData targetItem model_textures App.newModel].
    change (str "New Model " ++ decimal (length ms + 1))
      with (78%N :: (str "ew Model " ++ decimal (length ms + 1))).
    rewrite truthy_trim_cons by reflexivity.
    replace (Z.eqb n 0 || Z.ltb n 1) with false.
    + reflexivity.
    + symmetry. apply orb_false_iff.
      split; [apply Z.eqb_neq|apply Z.ltb_ge]; lia.
  - unfold Exporter.validModels. apply filter_In. split.
    + cbn [models App.withModels]. apply in_or_app. right. now left.
    + unfold Exporter.isValidModel.
      cbn [customModelData targetItem App.newModel].
      replace (Z.eqb n 0) with false by (symmetry; apply Z.eqb_neq; lia).
      reflexivity.
Qed.

(** X13. Deleting the model that [addModel] has just added gives back the
    state from before, when no model of the pack had the identifier drawn
    for it. *)
Theorem deleteModel_undoes_addModel
    (spare : nat) (uuid : jstring) (st : App.AppState) :
  forallb (fun m => negb (jeqb (model_id m) (str "model_" ++ uuid)))
    (models (App.resourcePack st)) = true ->
  exists effects,
    App.addModel (S (length (models (App.resourcePack st))) + spare) uuid st
    = Some effects /\
    App.run (App.deleteModel (str "model_" ++ uuid)) (App.run effects st)
    = st.
Proof.
  intros Hfresh. unfold App.addModel.
  destruct (@firstFree_ends
              (S (length (models (App.resourcePack st))) + spare)
              (map customModelData (models (App.resourcePack st))) 1)
    as [n Hn].
  { pose proof (filter_length_le (fun v => Z.leb 1 v)
                  (map customModelData (models (App.resourcePack st)))) as L.
    rewrite length_map in L. lia. }
  rewrite Hn. eexists. split; [reflexivity|].
  unfold App.deleteModel. simpl. apply state_same.
  rewrite filter_app. simpl. rewrite jeqb_refl. simpl. rewrite app_nil_r.
  rewrite forallb_filter_id by exact Hfresh.
  now destruct (App.resourcePack st).
Qed.

Lemma deleteModel_undoes_addModel_witness :
  exists effects,
    App.addModel
      (S (length (models (App.resourcePack (Samples.idle Samples.pack)))) + 0)
      (str "7c9e") (Samples.idle Samples.pack) = Some effects /\
    App.run (App.deleteModel (str "model_" ++ str "7c9e"))
      (App.run effects (Samples.idle Samples.pack))
    = Samples.idle Samples.pack.
Proof.
  apply (@deleteModel_undoes_addModel 0 (str "7c9e")
           (Samples.idle Samples.pack)).
  reflexivity.
Defined.

Section LayerFacts.
Import App.

Lemma layer_round_trip modelId layer textureName ms :
  forallb (fun m => negb (jeqb (model_id m) modelId)
                    || negb (hasKey layer (model_textures m))) ms = true ->
  map (fun model =>
         if jeqb (model_id model) modelId
         then withLayers (deleteKey layer (model_textures model)) model
         else model)
    (map (fun model =>
            if jeqb (model_id model) modelId
            then withLayers
                   (setKey layer textureName (model_textures model)) model
            else model)
       ms)
  = ms.
Proof.
  induction ms as [|m ms IH]; simpl; [reflexivity|].
  intros H. apply andb_true_iff in H as [Hm Hms].
  rewrite IH by exact Hms. f_equal.
  destruct (jeqb (model_id m) modelId) eqn:E; simpl in *.
  - rewrite E. simpl. apply negb_true_iff in Hm.
    rewrite deleteKey_setKey_fresh by exact Hm. now destruct m.
  - now rewrite E.
Qed.

End LayerFacts.

(** X14. Removing a texture layer that [updateModelTexture] has just set
    gives back the state from before, when the models with that
    identifier did not have the layer. *)
Theorem removeModelTexture_undoes_update
    (modelId layer textureName : jstring) (st : App.AppState) :
  forallb (fun m => negb (jeqb (model_id m) modelId)
                    || negb (hasKey layer (model_textures m)))
    (models (App.resourcePack st)) = true ->
  App.run (App.removeModelTexture modelId layer)
    (App.run (App.updateModelTexture modelId layer textureName) st)
  = st.
Proof.
  intros H. simpl. apply state_same.
  rewrite layer_round_trip by exact H.
  now destruct (App.resourcePack st).
Qed.

Lemma removeModelTexture_undoes_update_witness :
  App.run (App.removeModelTexture (str "model_ruby") (str "layer1"))
    (App.run (App.updateModelTexture (str "model_ruby") (str "layer1")
                (str "ruby_glow"))
       (Samples.idle Samples.pack))
  = Samples.idle Samples.pack.
Proof.
  apply (@removeModelTexture_undoes_update (str "model_ruby") (str "layer1")
           (str "ruby_glow") (Samples.idle Samples.pack)).
  reflexivity.
Defined.

(** ** Sounds, to Platform B and back *)

Section SoundFacts.
Import Exporter BedrockImport.

Lemma removeFirst_prefix p s : removeFirst p (p ++ s) = s.
Proof.
  assert (H : startsWith p (p ++ s) = true).
  { induction p as [|c p IH]; simpl; [reflexivity|].
    now rewrite N.eqb_refl, IH. }
  destruct (p ++ s) as [|c r] eqn:E; simpl; rewrite H; rewrite <- E;
    clear; induction p as [|c p IH]; simpl; auto.
Qed.

Lemma allOf_Ok (A B : Type) (f : A -> Outcome B) (g : A -> B) l :
  (forall a, In a l -> f a = Ok (g a)) ->
  allOf (map f l) = Ok (map g l).
Proof.
  induction l as [|a l IH]; intros H; [reflexivity|].
  unfold allOf in *. simpl.
  rewrite IH by (intros b Hb; apply H; now right).
  rewrite (H a) by now left.
  reflexivity.
Qed.

Lemma getKey_fld_hit k v r : getKey (str k) (fld k v :: r) = Some v.
Proof. unfold fld. simpl. now rewrite jeqb_refl. Qed.

Lemma getKey_fld_miss k k' v r :
  jeqb (str k') (str k) = false ->
  getKey (str k) (fld k' v :: r) = getKey (str k) r.
Proof. unfold fld. simpl. now intros ->. Qed.

Lemma soundFileNames_back (files : list jstring) :
  allOf (map soundFileName
           (map (fun s => obj [ fld "name" (JStr (str "sounds/" ++ s));
                                fld "volume" (JNum 1);
                                fld "pitch" (JNum 1);
                                fld "load_on_low_memory" (JBool true) ])
              files))
  = Ok files.
Proof.
  rewrite map_map. rewrite <- (map_id files) at 2.
  apply allOf_Ok. intros s _.
  unfold soundFileName, obj, prop.
  rewrite getKey_fld_hit. now rewrite removeFirst_prefix.
Qed.

(** The definition written for a sound is read back as that sound, bar
    the fields that are not written. *)
Lemma newSound_back uuid (sound : CustomSound) :
  newSound uuid (sound_name sound) (soundDefinition sound)
  = Ok {| sound_id := str "sound_" ++ uuid;
          sound_name := sound_name sound;
          category := orElse (category sound) (str "master");
          sounds := sounds sound;
          subtitle := someTruthy (subtitle sound);
          sound_replace := None;
          sound_file := None |}.
Proof.
  unfold newSound, categoryOf, soundsOf, subtitleOf, soundDefinition, obj,
    prop.
  cbn [app].
  rewrite getKey_fld_hit.
  rewrite (@getKey_fld_miss "sounds" "category") by reflexivity.
  rewrite getKey_fld_hit.
  rewrite (@getKey_fld_miss "__subtitle" "category") by reflexivity.
  rewrite (@getKey_fld_miss "__subtitle" "sounds") by reflexivity.
  pose proof (soundFileNames_back (sounds sound)) as Hs.
  unfold obj in Hs. rewrite Hs.
  destruct (category sound) as [|c cs]; cbv beta iota;
    (destruct (subtitle sound) as [t|]; simpl someTruthy;
     [destruct (truthy t); simpl optField; rewrite ?getKey_fld_hit|];
     reflexivity).
Qed.

End SoundFacts.

Section SoundTripFacts.
Import Exporter BedrockImport.

Lemma combine_mapped (A B C : Type) (h : B -> C) (ns : list A) l :
  combine ns (map h l) = map (fun p => (fst p, h (snd p))) (combine ns l).
Proof.
  revert ns. induction l as [|x l IH]; intros [|n ns]; simpl;
    try reflexivity.
  now rewrite IH.
Qed.

(** Assigning values and taking their images comes to assigning the
    images. *)
Lemma hasKey_images (V W : Type) (h : V -> W) k (m : entries V) :
  hasKey k (map (fun e => (fst e, h (snd e))) m) = hasKey k m.
Proof.
  unfold hasKey. induction m as [|[k0 v0] m IH]; simpl; [reflexivity|].
  destruct (jeqb k0 k); [reflexivity|exact IH].
Qed.

Lemma assign_images (V W : Type) (h : V -> W) k v (m : entries V) :
  map (fun e => (fst e, h (snd e))) (assign k v m)
  = assign k (h v) (map (fun e => (fst e, h (snd e))) m).
Proof.
  unfold assign. destruct (jeqb k PROTO); [reflexivity|].
  rewrite hasKey_images. destruct (hasKey k m).
  - induction m as [|[k0 v0] m IH]; simpl; [reflexivity|].
    destruct (jeqb k0 k); simpl; [reflexivity|now rewrite IH].
  - induction m as [|[k0 v0] m IH]; simpl; [reflexivity|].
    destruct (before k0 k); simpl; [now rewrite IH|reflexivity].
Qed.

Lemma fold_assign_images (A V W : Type) (key : A -> jstring) (val : A -> V)
    (h : V -> W) l (acc : entries V) :
  fold_left (fun a x => assign (key x) (h (val x)) a) l
    (map (fun e => (fst e, h (snd e))) acc)
  = map (fun e => (fst e, h (snd e)))
      (fold_left (fun a x => assign (key x) (val x) a) l acc).
Proof.
  revert acc. induction l as [|x l IH]; intros acc; [reflexivity|].
  simpl. rewrite <- IH. now rewrite assign_images.
Qed.

(** Every sound is kept under its own name. *)
Lemma kept_under_name ss (acc : entries CustomSound) :
  Forall (fun e => fst e = sound_name (snd e)) acc ->
  Forall (fun e => fst e = sound_name (snd e))
    (fold_left (fun kept sound => assign (sound_name sound) sound kept)
       ss acc).
Proof.
  revert acc. induction ss as [|s ss IH]; intros acc H; [exact H|].
  simpl. apply IH. apply Forall_forall. intros e He.
  apply In_assign in He as [->|He]; [reflexivity|].
  rewrite Forall_forall in H. now apply H.
Qed.

(** The definitions written: one per sound that is kept. *)
Lemma sound_definitions_written ss :
  prop "sound_definitions" (convertSoundsToBedrock ss)
  = Some (JObj (map (fun sound => (sound_name sound, soundDefinition sound))
                  (keptSounds ss))).
Proof.
  unfold convertSoundsToBedrock, prop. unfold obj at 1.
  rewrite (@getKey_fld_miss "sound_definitions" "format_version")
    by reflexivity.
  rewrite getKey_fld_hit. do 2 f_equal.
  pose proof (fold_assign_images sound_name (fun s : CustomSound => s)
                soundDefinition ss []) as E.
  simpl map in E at 1. rewrite E. unfold keptSounds. rewrite map_map.
  pose proof (kept_under_name ss (Forall_nil _)) as K.
  induction K as [|[k s] kept Hk _ IH]; [reflexivity|].
  simpl in *. now rewrite Hk, IH.
Qed.

End SoundTripFacts.

(** X15. The sounds that [convertSoundsToBedrock] writes are read back by
    [convertBedrockSoundsToInternal] as the object of the definitions
    keeps them: one sound per name, the last of that name, with the names
    that are array indices first and in ascending order, and no sound
    named "__proto__".  They come back with their names and their lists
    of sound files as they were, the "sounds/" put before each file being
    taken off again; an empty category comes back as "master", an empty
    subtitle as none; the replace flag and the file are not written and
    come back unset, and the identifiers are drawn anew.  When the names
    are distinct, none is "__proto__" and they stand in the order an
    object lists them, these are all the sounds in their order. *)
Theorem bedrock_sounds_round_trip
    (uuidv4 : nat -> jstring) (ss : list CustomSound) :
  BedrockImport.convertBedrockSoundsToInternal uuidv4
    (Exporter.convertSoundsToBedrock ss)
  = BedrockImport.Ok
      (map (fun nth_sound =>
              {| sound_id := str "sound_" ++ uuidv4 (fst nth_sound);
                 sound_name := sound_name (snd nth_sound);
                 category := orElse (category (snd nth_sound)) (str "master");
                 sounds := sounds (snd nth_sound);
                 subtitle := Exporter.someTruthy (subtitle (snd nth_sound));
                 sound_replace := None;
                 sound_file := None |})
         (combine (seq 0 (length (Exporter.keptSounds ss)))
            (Exporter.keptSounds ss))) /\
  (uniqueKeys (map (fun s => (sound_name s, s)) ss) = true ->
   enumerated (map (fun s => (sound_name s, s)) ss) = true ->
   forallb (fun s => negb (jeqb (sound_name s) PROTO)) ss = true ->
   Exporter.keptSounds ss = ss).
Proof.
  split.
  - unfold BedrockImport.convertBedrockSoundsToInternal.
    change (truthyJson (Exporter.convertSoundsToBedrock ss)) with true.
    cbv iota. rewrite (sound_definitions_written ss).
    cbn [truthyJson BedrockImport.entriesOf].
    rewrite length_map, combine_mapped, map_map.
    apply allOf_Ok. intros [i sound] _. cbn [fst snd].
    apply newSound_back.
  - intros Hu He Hp. unfold Exporter.keptSounds.
    assert (Hp' : forallb (fun e : jstring * CustomSound =>
                             negb (jeqb (fst e) PROTO))
                    (map (fun s => (sound_name s, s)) ss) = true).
    { clear Hu He. induction ss as [|s ss IH]; [reflexivity|].
      simpl in *. apply andb_true_iff in Hp as [H1 H2].
      now rewrite H1, IH. }
    pose proof (@fold_assign_enumerated CustomSound
                  (map (fun s => (sound_name s, s)) ss) [] Hu He Hp') as F.
    simpl app in F.
    transitivity (map snd (map (fun s : CustomSound => (sound_name s, s)) ss));
      [|rewrite map_map; apply map_id].
    rewrite <- F. clear. f_equal.
    generalize (@nil (jstring * CustomSound)).
    induction ss as [|s ss IH]; intros acc; [reflexivity|].
    simpl. rewrite IH. reflexivity.
Qed.

Lemma bedrock_sounds_round_trip_witness :
  option_map (map (fun s => (sound_name s, (category s, subtitle s))))
    (match BedrockImport.convertBedrockSoundsToInternal decimal
             (Exporter.convertSoundsToBedrock [Samples.chime; Samples.hum])
     with
     | BedrockImport.Ok l => Some l
     | _ => None
     end)
  = Some [ (str "gem.chime", (str "block", Some (str "Gem chimes")));
           (str "gem.hum", (str "master", None)) ] /\
  Exporter.keptSounds [Samples.chime; Samples.hum]
  = [Samples.chime; Samples.hum].
Proof.
  destruct (@bedrock_sounds_round_trip decimal [Samples.chime; Samples.hum])
    as [H1 H2].
  split.
  - rewrite H1. reflexivity.
  - apply H2; reflexivity.
Defined.

(** ** The paths of an archive, and the edition read from them *)

Section PathFacts.
Import Exporter Merge App BedrockImport.

Variable javaReadme : ResourcePack -> list ModelData -> jstring.

Lemma provider_paths font provider w :
  In w (snd (providerJson font provider)) ->
  startsWith (str "assets/minecraft/") (fst w) = true \/
  In (fst w) [str "pack.mcmeta"; str "pack.png"; str "README.md";
              str "geyser_mappings.json"].
Proof.
  unfold providerJson, bitmapProvider, ttfProvider.
  destruct (prov_type provider); simpl snd; try contradiction.
  - destruct (fileHandle provider).
    + intros [<-|[]]. left. reflexivity.
    + destruct (font_file font); [|contradiction].
      destruct (endsWith _ _); [|contradiction].
      intros [<-|[]]. left. reflexivity.
  - destruct (fileHandle provider).
    + intros [<-|[]]. left. reflexivity.
    + destruct (font_file font); [|contradiction].
      destruct (fontExtension _); [|contradiction].
      intros [<-|[]]. left. reflexivity.
Qed.

Lemma java_paths pack w :
  In w (javaWrites javaReadme pack) ->
  startsWith (str "assets/minecraft/") (fst w) = true \/
  In (fst w) [str "pack.mcmeta"; str "pack.png"; str "README.md";
              str "geyser_mappings.json"].
Proof.
  unfold javaWrites. intros H.
  repeat (apply in_app_or in H as [H|H]).
  - destruct H as [<-|[]]. right. simpl. tauto.
  - destruct (packIcon pack); [|contradiction].
    destruct H as [<-|[]]. right. simpl. tauto.
  - destruct H as [<-|[]]. right. simpl. tauto.
  - apply in_map_iff in H as [g [<- _]]. unfold itemDefinition.
    destruct (48 <=? format pack)%Z; left; reflexivity.
  - apply in_map_iff in H as [m [<- _]]. left. reflexivity.
  - apply in_flat_map in H as [t [_ H]]. unfold textureFiles in H.
    destruct H as [<-|H]; [left; reflexivity|].
    destruct (animation t) as [a|]; [|contradiction].
    destruct (anim_enabled a); [|contradiction].
    destruct H as [<-|[]]. left. reflexivity.
  - apply in_flat_map in H as [font [_ H]]. unfold fontFiles in H.
    apply in_app_or in H as [H|H].
    + apply in_flat_map in H as [provider [_ H]].
      now apply provider_paths in H.
    + destruct H as [<-|[]]. left. reflexivity.
  - unfold soundFiles in H.
    destruct (pack_sounds pack) as [|s ss]; [contradiction|].
    destruct H as [<-|H]; [left; reflexivity|].
    apply in_flat_map in H as [sound [_ H]].
    destruct (sound_file sound); [|contradiction].
    destruct H as [<-|[]]. left. reflexivity.
  - apply in_map_iff in H as [l [<- _]]. left. reflexivity.
  - apply in_flat_map in H as [p [_ H]]. unfold particleFiles in H.
    destruct H as [<-|H]; [left; reflexivity|].
    destruct (particle_file p); [|contradiction].
    destruct H as [<-|[]]. left. reflexivity.
  - apply in_flat_map in H as [s [_ H]]. unfold shaderFiles in H.
    destruct (shader_file s).
    + destruct H as [<-|[]]. left.
      destruct (shader_type s); reflexivity.
    + destruct (someTruthy (shader_content s)); [|contradiction].
      destruct H as [<-|[]]. left.
      destruct (shader_type s); reflexivity.
  - destruct H as [<-|[]]. right. simpl. tauto.
Qed.

(** The paths of an archive are the paths written. *)
Lemma hasKey_written k (writes : list ZipWrite) acc :
  hasKey k (fold_left (fun zip w => setKey (fst w) (snd w) zip) writes acc)
  = hasKey k acc || existsb (fun w => jeqb (fst w) k) writes.
Proof.
  revert acc. induction writes as [|w writes IH]; intros acc; simpl.
  - now rewrite orb_false_r.
  - rewrite IH. destruct (jeqb (fst w) k) eqn:E.
    + apply jeqb_eq in E. subst k. unfold hasKey at 1.
      rewrite getKey_setKey_same. simpl. now rewrite orb_true_r.
    + apply jeqb_neq in E. rewrite hasKey_setKey_other by exact E.
      reflexivity.
Qed.

Lemma hasKey_archive k writes :
  hasKey k (archive writes) = existsb (fun w => jeqb (fst w) k) writes.
Proof. unfold archive. now rewrite hasKey_written. Qed.

Lemma fileNamed_reloaded stringify k zip :
  fileNamed k (reloaded stringify zip)
  = option_map (stored stringify) (getKey k zip).
Proof.
  unfold fileNamed, reloaded.
  induction zip as [|[k' d] zip IH]; simpl; [reflexivity|].
  destruct (jeqb k' k); [reflexivity|exact IH].
Qed.

End PathFacts.

(** X16. Every file of a Platform A archive is [pack.mcmeta], [pack.png],
    [README.md] or [geyser_mappings.json], or lies under
    [assets/minecraft/], whatever the names in the pack; a Platform B
    archive holds [manifest.json].  So [detectPackEdition] reads from a
    downloaded archive the edition it was generated for. *)
Theorem exported_edition_is_detected
    (javaReadme bedrockReadme : ResourcePack -> list ModelData -> jstring)
    (uuidv4 : nat -> jstring) (geometryDoc : BedrockGeometry -> json)
    (stringify : json -> list N) (pack : ResourcePack) :
  (forall path, hasKey path (Exporter.archive
                               (Exporter.javaWrites javaReadme pack)) = true ->
     startsWith (str "assets/minecraft/") path = true \/
     In path [str "pack.mcmeta"; str "pack.png"; str "README.md";
              str "geyser_mappings.json"]) /\
  BedrockImport.detectPackEdition
    (BedrockImport.reloaded stringify
       (Exporter.archive (Exporter.javaWrites javaReadme pack)))
  = App.Java /\
  BedrockImport.detectPackEdition
    (BedrockImport.reloaded stringify
       (Exporter.archive
          (Exporter.bedrockWrites bedrockReadme uuidv4 geometryDoc pack)))
  = App.Bedrock.
Proof.
  assert (Hpaths : forall path,
            hasKey path (Exporter.archive
                           (Exporter.javaWrites javaReadme pack)) = true ->
            startsWith (str "assets/minecraft/") path = true \/
            In path [str "pack.mcmeta"; str "pack.png"; str "README.md";
                     str "geyser_mappings.json"]).
  { intros path H. rewrite hasKey_archive in H.
    apply existsb_exists in H as [w [Hin E]].
    apply jeqb_eq in E. subst path.
    now apply (@java_paths javaReadme pack w). }
  split; [exact Hpaths|]. split.
  - unfold BedrockImport.detectPackEdition.
    rewrite !fileNamed_reloaded.
    destruct (getKey (str "manifest.json") _) as [d|] eqn:G.
    + assert (H : hasKey (str "manifest.json")
                    (Exporter.archive (Exporter.javaWrites javaReadme pack))
                  = true) by (unfold hasKey; now rewrite G).
      apply Hpaths in H as [H|H]; [discriminate|].
      simpl in H. repeat (destruct H as [H|H]; [discriminate|]).
      contradiction.
    + simpl. now destruct (option_map _ _).
  - unfold BedrockImport.detectPackEdition.
    rewrite fileNamed_reloaded.
    assert (H : hasKey (str "manifest.json")
                  (Exporter.archive
                     (Exporter.bedrockWrites bedrockReadme uuidv4
                        geometryDoc pack)) = true).
    { rewrite hasKey_archive. reflexivity. }
    unfold hasKey in H.
    destruct (getKey (str "manifest.json") _); [reflexivity|discriminate].
Qed.

(** ** What a Platform B import leaves to the editor *)

Section BedrockFacts.
Import Validation Exporter Merge BedrockImport.

Lemma both_Ok (A B C : Type) (f : A -> B -> C) x y c :
  both f x y = Ok c -> exists a b, x = Ok a /\ y = Ok b /\ c = f a b.
Proof.
  destruct x as [a| |]; destruct y as [b| |]; simpl; try discriminate.
  intros H. injection H as <-. now exists a, b.
Qed.

Lemma allOf_each (A B : Type) (f : A -> Outcome B) l r :
  allOf (map f l) = Ok r -> Forall2 (fun a b => f a = Ok b) l r.
Proof.
  revert r. induction l as [|a l IH]; intros r; unfold allOf; simpl.
  - intros H. injection H as <-. constructor.
  - intros H. apply both_Ok in H as (b & bs & Ha & Hl & ->).
    constructor; [exact Ha|]. now apply IH.
Qed.

Variable parseJSON : list N -> option json.
Variable modelUuid : jstring -> jstring.

Lemma importedModel_default pe m :
  importedModel parseJSON modelUuid pe = Ok m ->
  customModelData m = 1%Z /\ targetItem m = str "stick".
Proof.
  destruct pe as [path e]. unfold importedModel, parsed.
  destruct (parseJSON (data e)); [|discriminate].
  intros H. injection H as <-. now split.
Qed.

Lemma shared_identifier_found (a b : ModelData) ms :
  targetItem a = targetItem b -> customModelData a = customModelData b ->
  distinctIdentifiers (a :: b :: ms) = false.
Proof.
  intros Ht Hc. simpl. rewrite Ht, Hc, jeqb_refl, Z.eqb_refl. reflexivity.
Qed.

End BedrockFacts.

(** X17. Every model that [importBedrockPack] builds targets "stick" with
    the identifier 1, one model per geometry file of the archive.  So a
    pack imported from an archive with two or more geometry files is one
    that [validateResourcePack] rejects, and that cannot be exported
    before its models are edited. *)
Theorem bedrock_import_shares_one_identifier
    (parseJSON : list N -> option json)
    (getImageDimensions : File -> Z * Z) (lowerCase : jstring -> jstring)
    (textureUuid modelUuid particleUuid : jstring -> jstring)
    (soundUuid : nat -> jstring)
    (zip : entries Merge.ZipObject) (fileName : jstring)
    (pack : ResourcePack) :
  BedrockImport.importBedrockPack parseJSON getImageDimensions lowerCase
    textureUuid modelUuid particleUuid soundUuid zip fileName
  = BedrockImport.Ok pack ->
  length (models pack) = length (BedrockImport.geometryFiles zip) /\
  Forall (fun m => customModelData m = 1%Z /\ targetItem m = str "stick")
    (models pack) /\
  ((2 <= length (BedrockImport.geometryFiles zip))%nat ->
   option_map Validation.isValid (Validation.validateResourcePack pack)
   = Some false).
Proof.
  unfold BedrockImport.importBedrockPack. intros H.
  apply both_Ok in H as (h & rest & _ & Hrest & ->).
  apply both_Ok in Hrest as (ms & others & Hms & _ & ->).
  cbn [models fst].
  apply allOf_each in Hms.
  assert (Hlen : length ms = length (BedrockImport.geometryFiles zip))
    by (symmetry; exact (Forall2_length Hms)).
  assert (Hall : Forall (fun m => customModelData m = 1%Z
                                  /\ targetItem m = str "stick") ms).
  { clear Hlen. induction Hms as [|pe m l r Hm _ IH]; constructor;
      [now apply (importedModel_default parseJSON modelUuid pe)|exact IH]. }
  split; [exact Hlen|]. split; [exact Hall|].
  intros Htwo. rewrite <- Hlen in Htwo.
  destruct ms as [|a [|b ms]]; simpl in Htwo; try lia.
  inversion Hall as [|? ? [Ha1 Ha2] Hrest]; subst.
  inversion Hrest as [|? ? [Hb1 Hb2] _]; subst.
  match goal with
  | |- option_map _ (Validation.validateResourcePack ?p) = _ =>
      set (imported := p)
  end.
  assert (Hmodels : models imported = a :: b :: ms) by reflexivity.
  clearbody imported.
  destruct (Validation.validateResourcePack imported) as [r|] eqn:V.
  - destruct (Validation.isValid r) eqn:I; [|simpl; now rewrite I].
    assert (Hv : option_map Validation.isValid
                   (Validation.validateResourcePack imported) = Some true)
      by (rewrite V; simpl; now rewrite I).
    apply valid_pack_distinct in Hv. rewrite Hmodels in Hv.
    rewrite shared_identifier_found in Hv; congruence.
  - apply validateResourcePack_throws in V. rewrite Hmodels in V.
    apply existsb_exists in V as [m [Hm Hi]].
    rewrite Forall_forall in Hall.
    destruct (Hall m Hm) as [_ Ht]. rewrite Ht in Hi. discriminate.
Qed.

Lemma bedrock_import_shares_one_identifier_witness :
  exists pack,
    BedrockImport.importBedrockPack Samples.emptyJSON (fun _ => (16, 16)%Z)
      toLowerCase (fun p => p) (fun p => p) (fun p => p) decimal
      Samples.twoGeometries (str "gems.zip")
    = BedrockImport.Ok pack /\
    map model_name (models pack) = [str "gem"; str "orb"] /\
    option_map Validation.isValid (Validation.validateResourcePack pack)
    = Some false.
Proof.
  eexists. split; [reflexivity|]. split; [reflexivity|].
  refine (proj2 (proj2
            (@bedrock_import_shares_one_identifier Samples.emptyJSON
               (fun _ => (16, 16)%Z) toLowerCase (fun p => p) (fun p => p)
               (fun p => p) decimal Samples.twoGeometries (str "gems.zip")
               _ eq_refl)) _).
  vm_compute. lia.
Defined.

(** ** An exported archive, imported again *)

Section ReimportFacts.
Import Exporter Merge BedrockImport JavaImport.

Lemma getKey_written k (writes : list ZipWrite) acc d :
  getKey k (fold_left (fun zip w => setKey (fst w) (snd w) zip) writes acc)
  = Some d ->
  In (k, d) writes \/ getKey k acc = Some d.
Proof.
  revert acc. induction writes as [|[k' d'] writes IH]; intros acc; simpl;
    [now right|].
  intros H. apply IH in H as [H|H]; [left; now right|].
  destruct (jeqb k' k) eqn:E.
  - apply jeqb_eq in E. subst k'. rewrite getKey_setKey_same in H.
    injection H as ->. left. now left.
  - apply jeqb_neq in E. rewrite getKey_setKey_other in H by exact E.
    now right.
Qed.

Lemma In_archive k d writes :
  getKey k (archive writes) = Some d -> In (k, d) writes.
Proof.
  unfold archive. intros H.
  apply getKey_written in H as [H|H]; [exact H|discriminate].
Qed.

Lemma keys_reloaded write zip : keys (reloaded write zip) = keys zip.
Proof. unfold keys, reloaded. rewrite map_map. now apply map_ext. Qed.

Lemma hasKey_In_keys (V : Type) k (m : entries V) :
  hasKey k m = true -> In k (keys m).
Proof.
  unfold hasKey. induction m as [|[k' v] m IH]; simpl; [discriminate|].
  destruct (jeqb k' k) eqn:E.
  - apply jeqb_eq in E. now left.
  - intros H. right. now apply IH.
Qed.

Lemma filesWhere_reloaded test write zip pe :
  In pe (filesWhere test (reloaded write zip)) ->
  exists d, getKey (fst pe) zip = Some d /\ snd pe = stored write d /\
            test (fst pe) = true.
Proof.
  unfold filesWhere. intros H.
  apply in_flat_map in H as [path [Hpath H]].
  apply filter_In in Hpath as [_ Htest].
  rewrite fileNamed_reloaded in H.
  destruct (getKey path zip) as [d|] eqn:G; [|contradiction].
  destruct H as [<-|[]]. exists d. simpl. auto.
Qed.

Variable javaReadme : ResourcePack -> list ModelData -> jstring.

(** The writes under [items/] and [models/] are the item definitions and
    the model documents. *)
Lemma writes_sorted pack w :
  In w (javaWrites javaReadme pack) ->
  In w (itemDefinitions pack) \/
  In w (map modelFile (validModels pack)) \/
  startsWith (str "assets/minecraft/items/") (fst w) = false /\
  startsWith (str "assets/minecraft/models/") (fst w) = false.
Proof.
  unfold javaWrites. intros H.
  repeat (apply in_app_or in H as [H|H]);
    try (left; exact H); try (right; left; exact H); right; right.
  - destruct H as [<-|[]]. split; reflexivity.
  - destruct (packIcon pack); [|contradiction].
    destruct H as [<-|[]]. split; reflexivity.
  - destruct H as [<-|[]]. split; reflexivity.
  - apply in_flat_map in H as [t [_ H]]. unfold textureFiles in H.
    destruct H as [<-|H]; [split; reflexivity|].
    destruct (animation t) as [a|]; [|contradiction].
    destruct (anim_enabled a); [|contradiction].
    destruct H as [<-|[]]. split; reflexivity.
  - apply in_flat_map in H as [font [_ H]]. unfold fontFiles in H.
    apply in_app_or in H as [H|H].
    + apply in_flat_map in H as [provider [_ H]].
      unfold providerJson, bitmapProvider, ttfProvider in H.
      destruct (prov_type provider); simpl snd in H; try contradiction.
      * destruct (fileHandle provider).
        -- destruct H as [<-|[]]. split; reflexivity.
        -- destruct (font_file font); [|contradiction].
           destruct (endsWith _ _); [|contradiction].
           destruct H as [<-|[]]. split; reflexivity.
      * destruct (fileHandle provider).
        -- destruct H as [<-|[]]. split; reflexivity.
        -- destruct (font_file font); [|contradiction].
           destruct (fontExtension _); [|contradiction].
           destruct H as [<-|[]]. split; reflexivity.
    + destruct H as [<-|[]]. split; reflexivity.
  - unfold soundFiles in H.
    destruct (pack_sounds pack) as [|s ss]; [contradiction|].
    destruct H as [<-|H]; [split; reflexivity|].
    apply in_flat_map in H as [sound [_ H]].
    destruct (sound_file sound); [|contradiction].
    destruct H as [<-|[]]. split; reflexivity.
  - apply in_map_iff in H as [l [<- _]]. split; reflexivity.
  - apply in_flat_map in H as [p [_ H]]. unfold particleFiles in H.
    destruct H as [<-|H]; [split; reflexivity|].
    destruct (particle_file p); [|contradiction].
    destruct H as [<-|[]]. split; reflexivity.
  - apply in_flat_map in H as [s [_ H]]. unfold shaderFiles in H.
    destruct (shader_file s).
    + destruct H as [<-|[]]. split; reflexivity.
    + destruct (someTruthy (shader_content s)); [|contradiction].
      destruct H as [<-|[]]. split; reflexivity.
  - destruct H as [<-|[]]. split; reflexivity.
Qed.

Lemma item_writes pack w :
  In w (javaWrites javaReadme pack) ->
  startsWith (str "assets/minecraft/items/") (fst w) = true ->
  In w (itemDefinitions pack) /\ (48 <= format pack)%Z.
Proof.
  intros H P. apply writes_sorted in H as [H|[H|[H _]]].
  - split; [exact H|].
    apply in_map_iff in H as [g [<- _]]. unfold itemDefinition in P.
    destruct (48 <=? format pack)%Z eqn:F; [now apply Z.leb_le|].
    discriminate.
  - apply in_map_iff in H as [m [<- _]]. discriminate.
  - congruence.
Qed.

Lemma model_writes pack w :
  In w (javaWrites javaReadme pack) ->
  startsWith (str "assets/minecraft/models/") (fst w) = true ->
  In w (itemDefinitions pack) \/ In w (map modelFile (validModels pack)).
Proof.
  intros H P. apply writes_sorted in H as [H|[H|[_ H]]]; auto. congruence.
Qed.

Lemma selectOverrides_itemDef itemName sortedModels :
  selectOverrides (itemDef itemName sortedModels) = None.
Proof. reflexivity. Qed.

Lemma itemGroups_nonempty m ms : itemGroups (m :: ms) <> [].
Proof.
  pose proof (getKey_grouped targetItem (fun x : ModelData => x)
                (targetItem m) (m :: ms) []) as G.
  change (grouped targetItem (fun x : ModelData => x) (m :: ms) [])
    with (itemGroups (m :: ms)) in G.
  intros E. rewrite E in G. simpl in G. rewrite jeqb_refl in G.
  discriminate.
Qed.

Lemma endsWith_app p s : endsWith p (s ++ p) = true.
Proof.
  unfold endsWith. rewrite rev_app_distr.
  induction (rev p) as [|c r IH]; simpl; [reflexivity|].
  now rewrite N.eqb_refl, IH.
Qed.

Lemma fold_left_same (A B : Type) (f : A -> B -> A) l a :
  (forall x, In x l -> forall acc, f acc x = acc) -> fold_left f l a = a.
Proof.
  induction l as [|x l IH]; intros H; [reflexivity|].
  simpl. rewrite (H x) by now left. apply IH.
  intros y Hy. apply H. now right.
Qed.

Lemma map_eq_In (A B : Type) (f g : A -> B) l x :
  map f l = map g l -> In x l -> f x = g x.
Proof.
  induction l as [|a l IH]; simpl; [contradiction|].
  intros E [<-|Hin]; injection E as E1 E2; auto.
Qed.

Lemma In_itemDefinitions pack w :
  In w (itemDefinitions pack) -> In w (javaWrites javaReadme pack).
Proof.
  intros H. unfold javaWrites.
  apply in_or_app. right. apply in_or_app. right.
  apply in_or_app. right. apply in_or_app. now left.
Qed.

(** An archive of the dispatch format with a model in it has the
    structure the importer looks for. *)
Lemma modern_structure write pack :
  (48 <= format pack)%Z -> validModels pack <> [] ->
  has1214Structure
    (reloaded write (archive (javaWrites javaReadme pack))) = true.
Proof.
  intros Hfmt Hvalid. unfold has1214Structure. rewrite keys_reloaded.
  destruct (validModels pack) as [|m ms] eqn:V; [congruence|].
  pose proof (@itemGroups_nonempty m ms) as Hg.
  destruct (itemGroups (m :: ms)) as [|g gs] eqn:G; [congruence|].
  apply existsb_exists.
  exists (str "assets/minecraft/items/" ++ fst g ++ str ".json"). split.
  - apply hasKey_In_keys. rewrite hasKey_archive. apply existsb_exists.
    exists (itemDefinition (format pack) g). split.
    + apply In_itemDefinitions. unfold itemDefinitions.
      rewrite V, G. now left.
    + unfold itemDefinition. apply Z.leb_le in Hfmt. rewrite Hfmt.
      apply jeqb_refl.
  - unfold isItemFile. apply andb_true_iff. split; [reflexivity|].
    rewrite app_assoc. apply endsWith_app.
Qed.

Variable parseJSON : list N -> option json.
Variable write : json -> list N.

(** Importing an archive of the dispatch format finds no override. *)
Lemma modern_table pack :
  (48 <= format pack)%Z ->
  map (fun w => match snd w with
                | ZJson doc => parseJSON (write doc)
                | _ => None
                end) (itemDefinitions pack)
  = map (fun w => match snd w with
                  | ZJson doc => Some doc
                  | _ => None
                  end) (itemDefinitions pack) ->
  baseItemOverrides parseJSON
    (reloaded write (archive (javaWrites javaReadme pack))) = [].
Proof.
  intros Hfmt Hparse. unfold baseItemOverrides.
  destruct (has1214Structure _) eqn:S.
  - apply fold_left_same. intros pe Hpe table.
    apply filesWhere_reloaded in Hpe as (d & Hd & Hs & Htest).
    apply In_archive in Hd.
    unfold isItemFile in Htest. apply andb_true_iff in Htest as [Hpre _].
    apply (@item_writes pack (fst pe, d) Hd) in Hpre as [Hin _].
    pose proof (@map_eq_In _ _ _ _ _ _ Hparse Hin) as E. cbn [snd] in E.
    apply in_map_iff in Hin as [g [Hg _]]. unfold itemDefinition in Hg.
    apply Z.leb_le in Hfmt. rewrite Hfmt in Hg.
    injection Hg as _ <-.
    rewrite Hs. cbn [stored data]. rewrite E.
    now rewrite selectOverrides_itemDef.
  - apply fold_left_same. intros itemName _ table.
    rewrite fileNamed_reloaded.
    destruct (getKey (modelPathOf itemName) _) as [d|] eqn:G;
      [|reflexivity].
    exfalso. apply In_archive in G.
    assert (Hvalid : validModels pack <> []).
    { apply model_writes in G; [|reflexivity].
      destruct G as [G|G]; intros V.
      - unfold itemDefinitions in G. rewrite V in G. contradiction.
      - rewrite V in G. contradiction. }
    rewrite (@modern_structure write pack Hfmt Hvalid) in S. discriminate.
Qed.

End ReimportFacts.

(** X18. An archive exported in the dispatch format (48 and later) comes
    back without its models: the importer reads the documents under
    [items/] for "minecraft:select" only, the exporter writes
    "minecraft:range_dispatch", and so the table of overrides stays empty
    and no model document is read.  The documents are assumed to be read
    as they were written. *)
Theorem modern_export_reimports_no_model
    (javaReadme : ResourcePack -> list ModelData -> jstring)
    (parseJSON : list N -> option json) (stringify : json -> jstring)
    (modelUuid : jstring -> jstring)
    (fileHolds : File -> jstring -> bool) (write : json -> list N)
    (pack : ResourcePack) :
  (48 <= format pack)%Z ->
  map (fun w => match snd w with
                | Exporter.ZJson doc => parseJSON (write doc)
                | _ => None
                end) (Exporter.itemDefinitions pack)
  = map (fun w => match snd w with
                  | Exporter.ZJson doc => Some doc
                  | _ => None
                  end) (Exporter.itemDefinitions pack) ->
  let zip := BedrockImport.reloaded write
               (Exporter.archive (Exporter.javaWrites javaReadme pack)) in
  JavaImport.baseItemOverrides parseJSON zip = [] /\
  JavaImport.importedModels parseJSON stringify modelUuid fileHolds zip
  = BedrockImport.Ok [].
Proof.
  intros Hfmt Hparse zip.
  pose proof (@modern_table javaReadme parseJSON write pack Hfmt Hparse) as T.
  fold zip in T. split; [exact T|].
  unfold JavaImport.importedModels, JavaImport.queued. now rewrite T.
Qed.

Lemma modern_export_reimports_no_model_witness :
  Exporter.validModels Samples.pack = Samples.gems /\
  JavaImport.importedModels
    (Samples.parseAmong
       (Samples.documents (Exporter.itemDefinitions Samples.pack)))
    Samples.stringify (fun path => path) Samples.fileHolds
    (BedrockImport.reloaded Samples.stringify
       (Exporter.archive (Exporter.javaWrites (fun _ _ => []) Samples.pack)))
  = BedrockImport.Ok [].
Proof.
  split; [reflexivity|].
  apply (@modern_export_reimports_no_model (fun _ _ => [])
           (Samples.parseAmong
              (Samples.documents (Exporter.itemDefinitions Samples.pack)))
           Samples.stringify (fun path => path) Samples.fileHolds
           Samples.stringify Samples.pack).
  - vm_compute. discriminate.
  - vm_compute. reflexivity.
Defined.

(** ** A legacy archive, imported again *)

Section CatalogFacts.
Import Exporter Merge BedrockImport JavaImport Importer.

(** The value at a path all of whose writes agree. *)
Lemma getKey_archive_agreed k d (writes : list ZipWrite) :
  In (k, d) writes ->
  (forall d', In (k, d') writes -> d' = d) ->
  getKey k (archive writes) = Some d.
Proof.
  intros Hin Hall.
  assert (H : hasKey k (archive writes) = true).
  { rewrite hasKey_archive. apply existsb_exists.
    exists (k, d). split; [exact Hin|apply jeqb_refl]. }
  unfold hasKey in H.
  destruct (getKey k (archive writes)) as [d'|] eqn:G; [|discriminate].
  apply In_archive in G. now rewrite (Hall d' G).
Qed.

Lemma modelPathOf_inj a b : modelPathOf a = modelPathOf b -> a = b.
Proof.
  unfold modelPathOf. intros H.
  apply app_inv_head in H. now apply app_inv_tail in H.
Qed.








Lemma flat_map_same_in (A B : Type) (f g : A -> list B) l :
  (forall a, In a l -> f a = g a) -> flat_map f l = flat_map g l.
Proof.
  induction l as [|a l IH]; intros H; [reflexivity|].
  simpl. rewrite (H a) by now left. rewrite IH; [reflexivity|].
  intros b Hb. apply H. now right.
Qed.

Lemma one_group (A : Type) (item : jstring) (m : A) (G : jstring -> list A) Xs :
  NoDup Xs -> In item Xs ->
  Permutation
    (flat_map (fun X => if jeqb item X then m :: G X else G X) Xs)
    (m :: flat_map G Xs).
Proof.
  induction Xs as [|X Xs IH]; intros Hn Hin; [contradiction|].
  inversion Hn as [|? ? Hnot Hrest]; subst. simpl.
  destruct (jeqb item X) eqn:E.
  - apply jeqb_eq in E. subst X. simpl. apply perm_skip.
    apply Permutation_app_head.
    assert (E : flat_map (fun X => if jeqb item X then m :: G X else G X) Xs
                = flat_map G Xs).
    { apply flat_map_same_in. intros Y HY.
      destruct (jeqb item Y) eqn:EY; [|reflexivity].
      apply jeqb_eq in EY. subst Y. contradiction. }
    rewrite E. reflexivity.
  - destruct Hin as [->|Hin]; [now rewrite jeqb_refl in E|].
    rewrite (IH Hrest Hin). symmetry. apply Permutation_middle.
Qed.

Lemma targeting_partition Xs (l : list ModelData) :
  NoDup Xs -> (forall m, In m l -> In (targetItem m) Xs) ->
  Permutation (flat_map (fun X => targeting X l) Xs) l.
Proof.
  intros Hn. induction l as [|m l IH]; intros Hin.
  - assert (E : flat_map (fun X => targeting X (@nil ModelData)) Xs = []).
    { clear. induction Xs as [|X Xs IHX]; [reflexivity|exact IHX]. }
    rewrite E. constructor.
  - unfold targeting. simpl filter.
    rewrite (flat_map_ext _
               (fun X => if jeqb (targetItem m) X
                         then m :: targeting X l else targeting X l))
      by (intros X; now destruct (jeqb (targetItem m) X)).
    rewrite one_group; [|exact Hn|apply Hin; now left].
    constructor. apply IH. intros m' Hm'. apply Hin. now right.
Qed.









End CatalogFacts.

Section LegacyFacts.
Import Exporter Merge BedrockImport JavaImport Importer.

Variable javaReadme : ResourcePack -> list ModelData -> jstring.
Variable parseJSON : list N -> option json.
Variable stringify : json -> jstring.
Variable modelUuid : jstring -> jstring.
Variable fileHolds : File -> jstring -> bool.
Variable write : json -> list N.
Variable pack : ResourcePack.

Hypothesis Hfmt : (format pack < 48)%Z.
Hypothesis Hitems :
  forallb (fun m => existsb (jeqb (targetItem m)) MINECRAFT_ITEMS)
    (validModels pack) = true.
Hypothesis Hnames :
  uniqueKeys (map (fun m => (model_name m, m)) (validModels pack)) = true.
Hypothesis Hplain :
  forallb (fun m => truthy (model_name m)
                    && negb (has SLASH (model_name m)))
    (validModels pack) = true.
Hypothesis Hapart :
  forallb (fun m => negb (existsb (fun m' => jeqb (targetItem m')
                                               (model_name m))
                            (validModels pack)))
    (validModels pack) = true.
Hypothesis Hparse :
  map (fun w => match snd w with
                | ZJson doc => parseJSON (write doc)
                | _ => None
                end)
    (itemDefinitions pack ++ map modelFile (validModels pack))
  = map (fun w => match snd w with
                  | ZJson doc => Some doc
                  | _ => None
                  end)
      (itemDefinitions pack ++ map modelFile (validModels pack)).



Lemma getKey_groups X :
  getKey X (itemGroups (validModels pack))
  = match targeting X (validModels pack) with
    | [] => None
    | g => Some g
    end.
Proof.
  change (itemGroups (validModels pack))
    with (grouped targetItem (fun m : ModelData => m) (validModels pack) []).
  rewrite getKey_grouped. cbn [getKey]. rewrite map_id.
  reflexivity.
Qed.

Lemma uniqueKeys_groups : uniqueKeys (itemGroups (validModels pack)) = true.
Proof.
  change (itemGroups (validModels pack))
    with (grouped targetItem (fun m : ModelData => m) (validModels pack) []).
  now apply uniqueKeys_grouped.
Qed.

Lemma group_is_targeting X g :
  In (X, g) (itemGroups (validModels pack)) ->
  g = targeting X (validModels pack) /\ g <> [].
Proof.
  intros H. apply In_getKey in H; [|exact uniqueKeys_groups].
  rewrite getKey_groups in H.
  destruct (targeting X (validModels pack)) as [|m g']; [discriminate|].
  injection H as <-. split; [reflexivity|discriminate].
Qed.

Lemma In_groups X m g :
  targeting X (validModels pack) = m :: g ->
  In (X, m :: g) (itemGroups (validModels pack)).
Proof.
  intros T. pose proof (getKey_groups X) as G. rewrite T in G.
  apply getKey_In in G as [k [-> Hin]]. exact Hin.
Qed.

















End LegacyFacts.



(** ** The selection documents in the archive *)

Section SelectionFacts.
Import Exporter JavaImport.

Variable javaReadme : ResourcePack -> list ModelData -> jstring.
Variable pack : ResourcePack.

(** What a later write leaves of the archive. *)
Lemma getKey_written_over k (writes : list ZipWrite) acc :
  getKey k (fold_left (fun zip w => setKey (fst w) (snd w) zip) writes acc)
  = match getKey k (archive writes) with
    | Some d => Some d
    | None => getKey k acc
    end.
Proof.
  unfold archive. revert acc.
  induction writes as [|[k' d'] writes IH]; intros acc; [reflexivity|].
  cbn [fold_left fst snd]. rewrite IH. rewrite (IH (setKey k' d' [])).
  match goal with
  | |- match ?x with _ => _ end = _ => destruct x; [reflexivity|]
  end.
  destruct (jeqb k' k) eqn:E.
  - apply jeqb_eq in E. subst k'. now rewrite !getKey_setKey_same.
  - apply jeqb_neq in E. now rewrite !getKey_setKey_other by exact E.
Qed.

Lemma getKey_archive_app k (before after : list ZipWrite) :
  getKey k (archive (before ++ after))
  = match getKey k (archive after) with
    | Some d => Some d
    | None => getKey k (archive before)
    end.
Proof.
  unfold archive at 1. rewrite fold_left_app. apply getKey_written_over.
Qed.

Lemma getKey_archive_none k (writes : list ZipWrite) :
  (forall w, In w writes -> fst w <> k) -> getKey k (archive writes) = None.
Proof.
  intros H.
  destruct (getKey k (archive writes)) as [d|] eqn:G; [|reflexivity].
  apply In_archive in G. now destruct (H _ G).
Qed.

(** The files written after the model documents lie neither under
    [items/] nor under [models/]. *)
Lemma later_writes w :
  In w (flat_map textureFiles (textures pack)
        ++ flat_map fontFiles (fonts pack)
        ++ soundFiles (pack_sounds pack)
        ++ map languageFile (languages pack)
        ++ flat_map particleFiles (particles pack)
        ++ flat_map shaderFiles (shaders pack)
        ++ [(str "geyser_mappings.json", ZJson (generateGeyserMapping pack))]) ->
  startsWith (str "assets/minecraft/items/") (fst w) = false /\
  startsWith (str "assets/minecraft/models/") (fst w) = false.
Proof.
  intros H.
  repeat (apply in_app_or in H as [H|H]).
  - apply in_flat_map in H as [t [_ H]]. unfold textureFiles in H.
    destruct H as [<-|H]; [split; reflexivity|].
    destruct (animation t) as [a|]; [|contradiction].
    destruct (anim_enabled a); [|contradiction].
    destruct H as [<-|[]]. split; reflexivity.
  - apply in_flat_map in H as [font [_ H]]. unfold fontFiles in H.
    apply in_app_or in H as [H|H].
    + apply in_flat_map in H as [provider [_ H]].
      unfold providerJson, bitmapProvider, ttfProvider in H.
      destruct (prov_type provider); simpl snd in H; try contradiction.
      * destruct (fileHandle provider).
        -- destruct H as [<-|[]]. split; reflexivity.
        -- destruct (font_file font); [|contradiction].
           destruct (endsWith _ _); [|contradiction].
           destruct H as [<-|[]]. split; reflexivity.
      * destruct (fileHandle provider).
        -- destruct H as [<-|[]]. split; reflexivity.
        -- destruct (font_file font); [|contradiction].
           destruct (fontExtension _); [|contradiction].
           destruct H as [<-|[]]. split; reflexivity.
    + destruct H as [<-|[]]. split; reflexivity.
  - unfold soundFiles in H.
    destruct (pack_sounds pack) as [|s ss]; [contradiction|].
    destruct H as [<-|H]; [split; reflexivity|].
    apply in_flat_map in H as [sound [_ H]].
    destruct (sound_file sound); [|contradiction].
    destruct H as [<-|[]]. split; reflexivity.
  - apply in_map_iff in H as [l [<- _]]. split; reflexivity.
  - apply in_flat_map in H as [p [_ H]]. unfold particleFiles in H.
    destruct H as [<-|H]; [split; reflexivity|].
    destruct (particle_file p); [|contradiction].
    destruct H as [<-|[]]. split; reflexivity.
  - apply in_flat_map in H as [s [_ H]]. unfold shaderFiles in H.
    destruct (shader_file s).
    + destruct H as [<-|[]]. split; reflexivity.
    + destruct (someTruthy (shader_content s)); [|contradiction].
      destruct H as [<-|[]]. split; reflexivity.
  - destruct H as [<-|[]]. split; reflexivity.
Qed.

Lemma selectionPath_inj fmt a b :
  selectionPath fmt a = selectionPath fmt b -> a = b.
Proof.
  unfold selectionPath. intros H.
  apply app_inv_head in H. now apply app_inv_tail in H.
Qed.

Lemma itemDefinition_at fmt g :
  fst (itemDefinition fmt g) = selectionPath fmt (fst g).
Proof. unfold itemDefinition, selectionPath. now destruct (48 <=? fmt)%Z. Qed.

Lemma selectionPath_under fmt item :
  if (48 <=? fmt)%Z then
    startsWith (str "assets/minecraft/items/") (selectionPath fmt item) = true
  else
    selectionPath fmt item = modelPathOf item /\
    startsWith (str "assets/minecraft/models/") (selectionPath fmt item)
    = true.
Proof.
  unfold selectionPath. destruct (48 <=? fmt)%Z; [|split]; reflexivity.
Qed.

Lemma modelFile_at m : fst (modelFile m) = modelPathOf (model_name m).
Proof. reflexivity. Qed.

Lemma modelJson_lists_nothing m : overrideIdentifiers (modelJson m) = [].
Proof.
  unfold overrideIdentifiers, modelJson.
  destruct (model_elements m), (model_display m); reflexivity.
Qed.

Lemma items_targeted item :
  In item (keys (itemGroups (validModels pack)))
  <-> In item (map targetItem (validModels pack)).
Proof.
  split; intros H.
  - apply in_map_iff in H as [[item' g] [E Hin]]. simpl in E. subst item'.
    apply group_is_targeting in Hin as [-> Hne].
    destruct (targeting item (validModels pack)) as [|m g] eqn:T;
      [contradiction|].
    assert (Hm : In m (targeting item (validModels pack)))
      by (rewrite T; now left).
    apply filter_In in Hm as [Hm E]. apply jeqb_eq in E. subst item.
    now apply in_map.
  - apply in_map_iff in H as [m [<- Hm]].
    destruct (targeting (targetItem m) (validModels pack)) as [|m' g] eqn:T.
    + assert (Hin : In m (targeting (targetItem m) (validModels pack))).
      { apply filter_In. split; [exact Hm|apply jeqb_refl]. }
      rewrite T in Hin. contradiction.
    + apply In_groups in T.
      apply in_map_iff. exists (targetItem m, m' :: g). now split.
Qed.

(** The selection document of an item, as the loop writes it. *)
Lemma selection_written item :
  In item (keys (itemGroups (validModels pack))) ->
  In (selectionPath (format pack) item,
      snd (itemDefinition (format pack)
             (item, targeting item (validModels pack))))
     (javaWrites javaReadme pack).
Proof.
  intros H. apply in_map_iff in H as [[item' g] [E Hin]].
  simpl in E. subst item'.
  destruct (group_is_targeting _ _ _ Hin) as [-> _].
  unfold javaWrites. do 3 (apply in_or_app; right).
  apply in_or_app. left.
  unfold itemDefinitions. apply in_map_iff.
  exists (item, targeting item (validModels pack)). split; [|exact Hin].
  rewrite (surjective_pairing (itemDefinition _ _)) at 1.
  now rewrite itemDefinition_at.
Qed.

Lemma selection_kept item :
  In item (keys (itemGroups (validModels pack))) ->
  overwritten (format pack) (validModels pack) item = false ->
  getKey (selectionPath (format pack) item)
    (archive (javaWrites javaReadme pack))
  = Some (snd (itemDefinition (format pack)
                 (item, targeting item (validModels pack)))).
Proof.
  intros Hitem Hover.
  apply getKey_archive_agreed; [now apply selection_written|].
  intros d' Hd'.
  pose proof (selectionPath_under (format pack) item) as Hunder.
  apply writes_sorted in Hd' as [Hd'|[Hd'|[H1 H2]]].
  - apply in_map_iff in Hd' as [[item' g] [E Hin]].
    assert (E1 : item' = item).
    { apply (f_equal fst) in E. rewrite itemDefinition_at in E.
      now apply selectionPath_inj in E. }
    subst item'.
    destruct (group_is_targeting _ _ _ Hin) as [-> _].
    now rewrite E.
  - exfalso. apply in_map_iff in Hd' as [m [E Hm]].
    apply (f_equal fst) in E. rewrite modelFile_at in E. cbn [fst] in E.
    unfold overwritten in Hover.
    destruct (48 <=? format pack)%Z.
    + rewrite <- E in Hunder. discriminate.
    + destruct Hunder as [Hpath _]. rewrite Hpath in E.
      apply modelPathOf_inj in E.
      simpl in Hover.
      assert (Hex : existsb (fun m => jeqb (model_name m) item)
                      (validModels pack) = true).
      { apply existsb_exists. exists m. split; [exact Hm|].
        now apply jeqb_eq. }
      congruence.
  - exfalso. cbn [fst] in H1, H2.
    destruct (48 <=? format pack)%Z; [|destruct Hunder]; congruence.
Qed.

Lemma selection_replaced item :
  overwritten (format pack) (validModels pack) item = true ->
  exists m, In m (validModels pack) /\ model_name m = item /\
    getKey (selectionPath (format pack) item)
      (archive (javaWrites javaReadme pack))
    = Some (ZJson (modelJson m)).
Proof.
  unfold overwritten. intros H. apply andb_true_iff in H as [Hfmt Hex].
  apply negb_true_iff in Hfmt.
  pose proof (selectionPath_under (format pack) item) as Hunder.
  rewrite Hfmt in Hunder. destruct Hunder as [Hpath Hunder].
  rewrite Hpath in *.
  unfold javaWrites.
  rewrite (getKey_archive_app (modelPathOf item) [_]).
  rewrite (getKey_archive_app (modelPathOf item) (whenSome _ _)).
  rewrite (getKey_archive_app (modelPathOf item) [_]).
  rewrite (getKey_archive_app (modelPathOf item) (itemDefinitions _)).
  rewrite (getKey_archive_app (modelPathOf item) (map modelFile _)).
  rewrite (@getKey_archive_none (modelPathOf item)
             (flat_map textureFiles _ ++ _)).
  2:{ intros w Hw E. apply later_writes in Hw as [_ Hw].
      rewrite E in Hw. congruence. }
  assert (Hhas : hasKey (modelPathOf item)
                   (archive (map modelFile (validModels pack))) = true).
  { rewrite hasKey_archive. apply existsb_exists in Hex as [m [Hm E]].
    apply jeqb_eq in E.
    apply existsb_exists. exists (modelFile m).
    split; [now apply in_map|]. rewrite modelFile_at, E. apply jeqb_refl. }
  unfold hasKey in Hhas.
  destruct (getKey (modelPathOf item)
              (archive (map modelFile (validModels pack)))) as [d|] eqn:G;
    [|discriminate].
  apply In_archive in G. apply in_map_iff in G as [m [E Hm]].
  unfold modelFile in E. injection E as E1 E2.
  apply app_inv_tail in E1.
  exists m. split; [exact Hm|]. split; [exact E1|]. now rewrite E2.
Qed.

Lemma targeting_filter (keep : jstring -> bool) item ms :
  targeting item (filter (fun m => keep (targetItem m)) ms)
  = if keep item then targeting item ms else [].
Proof.
  unfold targeting.
  induction ms as [|m ms IH]; simpl; [now destruct (keep item)|].
  destruct (keep (targetItem m)) eqn:K; simpl;
    destruct (jeqb (targetItem m) item) eqn:E; rewrite IH;
    try reflexivity;
    try (apply jeqb_eq in E; subst item; now rewrite K);
    destruct (keep item); reflexivity.
Qed.

End SelectionFacts.

(** X5. The selection documents of an exported archive divide the
    exported models among them.  One path is written per targeted item,
    and the paths of different items differ.  From format 48 on, and below
    it for an item that no exported model is named like, the archive
    holds at that path the selection document of the item, which lists
    the identifiers of the exported models targeting it in ascending
    order.  Below format 48 the model documents are written after the
    selection documents and into the same folder: for an item that an
    exported model is named like, the archive holds the document of such
    a model at that path, which lists no identifier.  So the documents at
    these paths list, taken together, the identifiers of the exported
    models whose item is not named like an exported model, each model
    once. *)
Theorem selection_documents_partition
    (javaReadme : ResourcePack -> list ModelData -> jstring)
    (pack : ResourcePack) :
  let zip := Exporter.archive (Exporter.javaWrites javaReadme pack) in
  let ms := Exporter.validModels pack in
  let fmt := format pack in
  let items := keys (Exporter.itemGroups ms) in
  let listed item :=
    Exporter.listedIdentifiers fmt
      (getKey (Exporter.selectionPath fmt item) zip) in
  let overwritten := Exporter.overwritten fmt ms in
  NoDup (map (Exporter.selectionPath fmt) items) /\
  (forall item, In item items <-> In item (map targetItem ms)) /\
  (forall item, In item items ->
     if overwritten item then
       listed item = [] /\
       exists m, In m ms /\ model_name m = item /\
         getKey (Exporter.selectionPath fmt item) zip
         = Some (Exporter.ZJson (Exporter.modelJson m))
     else
       listed item
       = map customModelData
           (Exporter.sortBy Exporter.byCustomModelData
              (Exporter.targeting item ms))) /\
  Permutation (flat_map listed items)
    (map customModelData
       (filter (fun m => negb (overwritten (targetItem m))) ms)).
Proof.
  intros zip ms fmt items listed overwritten.
  assert (Hn : NoDup items).
  { apply uniqueKeys_NoDup. apply uniqueKeys_groups. }
  assert (Hlisted : forall item, In item items ->
            listed item
            = if overwritten item then []
              else map customModelData
                     (Exporter.sortBy Exporter.byCustomModelData
                        (Exporter.targeting item ms))).
  { intros item Hitem. subst listed. cbv beta.
    destruct (overwritten item) eqn:Hover.
    - destruct (selection_replaced javaReadme pack item Hover)
        as [m [_ [_ G]]].
      fold zip fmt in G. rewrite G. unfold Exporter.listedIdentifiers.
      subst overwritten. unfold Exporter.overwritten in Hover.
      apply andb_true_iff in Hover as [Hfmt _].
      apply negb_true_iff in Hfmt. fold fmt in Hfmt. rewrite Hfmt.
      apply modelJson_lists_nothing.
    - pose proof (selection_kept javaReadme pack item Hitem Hover) as G.
      fold zip fmt ms in G. rewrite G.
      pose proof (itemDefinition_identifiers fmt
                    (item, Exporter.targeting item ms)) as E.
      unfold Exporter.listedIdentifiers. subst fmt ms.
      destruct (snd (Exporter.itemDefinition _ _)); exact E. }
  split; [|split; [|split]].
  - clear Hlisted. induction items as [|item items IH]; [constructor|].
    inversion Hn as [|? ? Hnot Hn']; subst. simpl. constructor; [|auto].
    intros Hin. apply Hnot.
    apply in_map_iff in Hin as [item' [E Hin]].
    apply selectionPath_inj in E. now subst item'.
  - intros item. apply items_targeted.
  - intros item Hitem. specialize (Hlisted item Hitem).
    destruct (overwritten item) eqn:Hover; [|exact Hlisted].
    split; [exact Hlisted|].
    exact (selection_replaced javaReadme pack item Hover).
  - rewrite (flat_map_same_in _ _ _ Hlisted).
    set (kept := filter (fun m => negb (overwritten (targetItem m))) ms).
    transitivity (flat_map (fun item =>
                    map customModelData (Exporter.targeting item kept))
                    items).
    + apply flat_map_perm. intros item _.
      subst kept.
      rewrite (targeting_filter (fun i => negb (overwritten i)) item ms).
      destruct (overwritten item); simpl; [constructor|].
      apply Permutation_map, sortBy_perm.
    + rewrite flat_map_concat_map, <- map_map, <- concat_map,
        <- flat_map_concat_map.
      apply Permutation_map. apply targeting_partition; [exact Hn|].
      intros m Hm. subst kept. apply filter_In in Hm as [Hm _].
      apply items_targeted. now apply in_map.
Qed.

(** Below format 48 a model named "stick" that targets "stick" is written
    over the selection document of "stick": the archive lists its
    identifier nowhere.  From format 48 on the same pack keeps it. *)
Example selection_document_overwritten :
  let readme := fun (_ : ResourcePack) (_ : list ModelData) => str "" in
  let listed pack :=
    Exporter.listedIdentifiers (format pack)
      (getKey (Exporter.selectionPath (format pack) (str "stick"))
         (Exporter.archive (Exporter.javaWrites readme pack))) in
  listed (Samples.packOf 34 [Samples.model "stick" "stick" 7] []) = [] /\
  listed (Samples.packOf 48 [Samples.model "stick" "stick" 7] []) = [7%Z] /\
  listed Samples.legacyPack
  = map customModelData
      (Exporter.sortBy Exporter.byCustomModelData
         (Exporter.targeting (str "stick")
            (Exporter.validModels Samples.legacyPack))).
Proof. vm_compute. repeat split. Qed.

(* ================================================================== *)
(** ** One archive per version *)

Section MultiVersionFacts.
Import Validation Exporter App MultiVersion.

Variable javaReadmeAt : nat -> ResourcePack -> list ModelData -> jstring.
Variable bedrockReadmeAt : nat -> ResourcePack -> list ModelData -> jstring.
Variable uuidAt : nat -> nat -> jstring.
Variable geometryDoc : BedrockGeometry -> json.

Lemma withFormat_back (f : Z) (p : ResourcePack) :
  withFormat (format p) (withFormat f p) = p.
Proof. now destruct p. Qed.

(** The downloads of a run are those before it and those of its calls. *)
Lemma run_downloads effects s :
  downloads (run effects s)
  = downloads s
    ++ flat_map (fun e => match e with
                          | Download f z => [(f, z)]
                          | _ => []
                          end) effects.
Proof.
  revert s. induction effects as [|e effects IH]; intros s; simpl.
  - now rewrite app_nil_r.
  - rewrite IH. destruct e; simpl; rewrite ?app_nil_r;
      try reflexivity.
    now rewrite <- app_assoc.
Qed.

(** What one call of [generateZip] downloads. *)
Lemma zipCalls_downloads i st :
  flat_map (fun e => match e with
                     | Download f z => [(f, z)]
                     | _ => []
                     end)
    (zipCalls javaReadmeAt bedrockReadmeAt uuidAt geometryDoc i st)
  = match validateResourcePack (resourcePack st) with
    | Some validation =>
        if isValid validation
        then [match packEdition st with
              | Java =>
                  (orElse (name (resourcePack st)) (str "resource-pack")
                     ++ str ".zip",
                   archive (javaWrites (javaReadmeAt i) (resourcePack st)))
              | Bedrock =>
                  (orElse (name (resourcePack st)) (str "resource-pack")
                     ++ str "-bedrock" ++ str ".zip",
                   archive (bedrockWrites (bedrockReadmeAt i) (uuidAt i)
                              geometryDoc (resourcePack st)))
              end]
        else []
    | None => []
    end.
Proof.
  apply (app_inv_head (downloads st)). rewrite <- run_downloads.
  unfold zipCalls, generateZip.
  destruct (validateResourcePack (resourcePack st)) as [validation|];
    [|now rewrite !app_nil_r].
  cbv zeta.
  destruct (isValid validation);
    simpl negb; cbv iota; [|now rewrite app_nil_r].
  rewrite !run_app.
  match goal with
  | |- context [run [?a; ?b; Download ?f ?z; ?c; ?d; ?e] ?s] =>
      destruct (run_finish s f z) as [_ [_ [_ H]]]
  end.
  cbv zeta in H. rewrite H. clear H.
  rewrite (progress_keeps downloads) by reflexivity.
  simpl. f_equal. now destruct (packEdition st).
Qed.

Lemma forallb_firstn (A : Type) (P : A -> bool) n l :
  forallb P l = true -> forallb P (firstn n l) = true.
Proof.
  intros H. rewrite <- (firstn_skipn n l), forallb_app in H.
  now apply andb_true_iff in H as [H _].
Qed.

Lemma forallb_skipn (A : Type) (P : A -> bool) n l :
  forallb P l = true -> forallb P (skipn n l) = true.
Proof.
  intros H. rewrite <- (firstn_skipn n l), forallb_app in H.
  now apply andb_true_iff in H as [_ H].
Qed.

Lemma beforeResolve_leavesPack i st :
  forallb leavesPack
    (beforeResolve javaReadmeAt bedrockReadmeAt uuidAt geometryDoc i st)
  = true.
Proof.
  unfold beforeResolve, zipCalls.
  destruct (validateResourcePack (resourcePack st)) as [validation|];
    [destruct (isValid validation); [apply forallb_firstn|]|];
    apply generateZip_leavesPack.
Qed.

Lemma onTimer_leavesPack i st :
  forallb leavesPack
    (onTimer javaReadmeAt bedrockReadmeAt uuidAt geometryDoc i st) = true.
Proof.
  unfold onTimer, zipCalls.
  destruct (validateResourcePack (resourcePack st)) as [validation|];
    [destruct (isValid validation); [apply forallb_skipn|reflexivity]
    |reflexivity].
  apply generateZip_leavesPack.
Qed.

Lemma split_downloads i st :
  flat_map (fun e => match e with
                     | Download f z => [(f, z)]
                     | _ => []
                     end)
    (beforeResolve javaReadmeAt bedrockReadmeAt uuidAt geometryDoc i st
     ++ onTimer javaReadmeAt bedrockReadmeAt uuidAt geometryDoc i st)
  = flat_map (fun e => match e with
                       | Download f z => [(f, z)]
                       | _ => []
                       end)
      (zipCalls javaReadmeAt bedrockReadmeAt uuidAt geometryDoc i st).
Proof.
  unfold beforeResolve, onTimer.
  destruct (validateResourcePack (resourcePack st)) as [validation|];
    [destruct (isValid validation)|];
    (now rewrite firstn_skipn) || (now rewrite app_nil_r).
Qed.

(** The loop when the validation returns: it comes to its end, the pack
    is restored in every turn and each turn adds the downloads of one
    call. *)
Lemma versionTurns_return st n validation turns s :
  validateResourcePack (resourcePack st) = Some validation ->
  resourcePack s = resourcePack st ->
  let loop :=
    versionTurns javaReadmeAt bedrockReadmeAt uuidAt geometryDoc st n turns in
  snd loop = true /\
  resourcePack (run (fst loop) s) = resourcePack st /\
  downloads (run (fst loop) s)
  = downloads s
    ++ flat_map
         (fun turn =>
            flat_map (fun e => match e with
                               | Download f z => [(f, z)]
                               | _ => []
                               end)
              (zipCalls javaReadmeAt bedrockReadmeAt uuidAt geometryDoc
                 (fst turn) st))
         turns.
Proof.
  intros Hv. revert s. induction turns as [|[i c] turns IH]; intros s Hs;
    cbn zeta.
  - simpl. rewrite app_nil_r. now repeat split.
  - cbn [versionTurns]. rewrite Hv.
    destruct (versionTurns javaReadmeAt bedrockReadmeAt uuidAt geometryDoc
                st n turns) as [later finished] eqn:L.
    cbn [fst snd] in *.
    set (entered := [UpdateProgress _ _; SetResourcePack _]).
    set (restore := [SetResourcePack _]).
    assert (Hturn :
              resourcePack
                (run (entered
                      ++ beforeResolve javaReadmeAt bedrockReadmeAt uuidAt
                           geometryDoc i st
                      ++ restore
                      ++ onTimer javaReadmeAt bedrockReadmeAt uuidAt
                           geometryDoc i st) s)
              = resourcePack st).
    { rewrite !run_app.
      rewrite run_leavesPack by apply onTimer_leavesPack.
      subst restore. cbn [run fold_left apply resourcePack].
      rewrite run_leavesPack by apply beforeResolve_leavesPack.
      subst entered. cbn [run fold_left apply resourcePack].
      rewrite Hs. apply withFormat_back. }
    destruct (IH _ Hturn) as [H1 [H2 H3]].
    replace (entered
             ++ beforeResolve javaReadmeAt bedrockReadmeAt uuidAt geometryDoc
                  i st
             ++ restore
             ++ onTimer javaReadmeAt bedrockReadmeAt uuidAt geometryDoc i st
             ++ later)
      with ((entered
             ++ beforeResolve javaReadmeAt bedrockReadmeAt uuidAt geometryDoc
                  i st
             ++ restore
             ++ onTimer javaReadmeAt bedrockReadmeAt uuidAt geometryDoc i st)
            ++ later)
      by (now rewrite <- !app_assoc).
    rewrite run_app.
    split; [exact H1|]. split; [exact H2|].
    rewrite H3, run_downloads. rewrite <- app_assoc. f_equal.
    cbn [flat_map fst]. f_equal.
    subst entered restore. rewrite !flat_map_app. cbn [flat_map app].
    rewrite <- flat_map_app. apply split_downloads.
Qed.

(** The loop when the validation throws: it stops in its first turn, the
    format of that version set. *)
Lemma versionTurns_throw st n i c rest :
  validateResourcePack (resourcePack st) = None ->
  versionTurns javaReadmeAt bedrockReadmeAt uuidAt geometryDoc st n
    ((i, c) :: rest)
  = ([UpdateProgress
        (str "Generating pack for " ++ config_version c ++ str "...")
        (Within 0 i n 100);
      SetResourcePack (withFormat (config_format c));
      SetIsProcessing true;
      UpdateProgress (str "Initializing...") (Exactly 5)],
     false).
Proof.
  intros Hv. cbn [versionTurns]. rewrite Hv.
  unfold zipCalls, generateZip. now rewrite Hv.
Qed.

Lemma flat_map_turns (A B : Type) (f : nat -> list B) (l : list A) k :
  flat_map (fun turn : nat * A => f (fst turn)) (combine (seq k (length l)) l)
  = flat_map f (seq k (length l)).
Proof.
  revert k. induction l as [|a l IH]; intros k; simpl; [reflexivity|].
  now rewrite IH.
Qed.

End MultiVersionFacts.

(** X20.  [generateMultiVersionPacks] sets the format of each enabled
    version before its call of [generateZip] and the former format after
    it, but each call reads the pack of the render in which the operation
    was started.  When the validation of that pack returns, the pack is
    in the end the one it was, and the archives downloaded, one per
    enabled version if the pack passes [validateResourcePack] and none
    otherwise, are all built from that pack in its own format: the
    formats of the versions reach no archive; the message reports the
    number of enabled versions either way.  When the validation throws
    (a model targets a name every object inherits), the first call of
    [generateZip] is rejected and the operation with it: the pack is left
    with the format of the first enabled version, the processing flag
    stays up, nothing is downloaded and no message is shown.  With no
    version enabled nothing is set and the message asks for one. *)
Theorem multi_version_archives_keep_the_format
    (javaReadmeAt bedrockReadmeAt :
       nat -> ResourcePack -> list ModelData -> jstring)
    (uuidAt : nat -> nat -> jstring) (geometryDoc : BedrockGeometry -> json)
    (versionConfigs : list MultiVersion.VersionConfig) (st : App.AppState) :
  let enabledVersions :=
    filter MultiVersion.config_enabled versionConfigs in
  let result :=
    MultiVersion.generateMultiVersionPacks javaReadmeAt bedrockReadmeAt
      uuidAt geometryDoc versionConfigs st in
  let st' := App.run (fst result) st in
  let pack := App.resourcePack st in
  match enabledVersions with
  | [] => fst result = [] /\ snd result = Some MultiVersion.NoVersionEnabled
  | first :: _ =>
      match Validation.validateResourcePack pack with
      | None =>
          App.resourcePack st'
          = MultiVersion.withFormat (MultiVersion.config_format first) pack /\
          App.isProcessing st' = true /\
          App.downloads st' = App.downloads st /\
          App.alerts st' = App.alerts st /\
          snd result = None
      | Some validation =>
          App.resourcePack st' = pack /\
          App.isProcessing st' = false /\
          App.downloads st'
          = App.downloads st
            ++ (if Validation.isValid validation
                then map (fun i =>
                            match App.packEdition st with
                            | App.Java =>
                                (orElse (name pack) (str "resource-pack")
                                   ++ str ".zip",
                                 Exporter.archive
                                   (Exporter.javaWrites (javaReadmeAt i)
                                      pack))
                            | App.Bedrock =>
                                (orElse (name pack) (str "resource-pack")
                                   ++ str "-bedrock" ++ str ".zip",
                                 Exporter.archive
                                   (Exporter.bedrockWrites
                                      (bedrockReadmeAt i) (uuidAt i)
                                      geometryDoc pack))
                            end)
                       (seq 0 (length enabledVersions))
                else []) /\
          snd result
          = Some (MultiVersion.VersionsGenerated (length enabledVersions))
      end
  end.
Proof.
  cbv zeta. unfold MultiVersion.generateMultiVersionPacks.
  destruct (filter MultiVersion.config_enabled versionConfigs)
    as [|first rest] eqn:E; [now split|].
  rewrite <- E. set (enabled := filter _ versionConfigs) in *.
  destruct (Validation.validateResourcePack (App.resourcePack st))
    as [validation|] eqn:Hv.
  - destruct (@versionTurns_return javaReadmeAt bedrockReadmeAt uuidAt
                geometryDoc st (length enabled) validation
                (combine (seq 0 (length enabled)) enabled)
                (App.run [App.SetIsProcessing true] st) Hv eq_refl)
      as [H1 [H2 H3]].
    cbv zeta in H1, H2, H3.
    destruct (MultiVersion.versionTurns _ _ _ _ _ _ _) as [turns finished].
    cbn [fst snd] in *. subst finished. cbn [fst snd].
    rewrite !run_app.
    cbn [App.run fold_left App.apply App.resourcePack App.isProcessing
           App.downloads] in *.
    split; [exact H2|]. split; [reflexivity|]. split; [|reflexivity].
    rewrite H3. f_equal.
    rewrite (flat_map_turns
               (fun i =>
                  flat_map (fun e => match e with
                                     | App.Download f z => [(f, z)]
                                     | _ => []
                                     end)
                    (MultiVersion.zipCalls javaReadmeAt bedrockReadmeAt
                       uuidAt geometryDoc i st))).
    clear H2 H3.
    induction (seq 0 (length enabled)) as [|i l IH].
    + now destruct (Validation.isValid validation).
    + cbn [flat_map map]. rewrite IH, zipCalls_downloads, Hv.
      now destruct (Validation.isValid validation).
  - rewrite E. cbn [length seq combine].
    rewrite versionTurns_throw by exact Hv.
    repeat split.
Qed.
